(** * Expense tracker web client: validation, normalisation and synchronisation

    A shallow embedding of the TypeScript front end (web/src): the amount
    and date utilities, the expense and income form validators, the tag
    normalisation done on submit, the category sorting and the three data
    hooks (expenses, incomes, categories).

    JavaScript strings are sequences of UTF-16 code units, modelled as lists
    of [N]. Platform services that are not code of the repository (the
    clock, [Date] parsing and printing, the locale collation behind
    [localeCompare], the HTTP server behind [api]) are taken as section
    variables; concrete instances are given where an example needs one. *)

From Stdlib Require Import List Bool Arith NArith ZArith Lia.
From Stdlib Require Import Ascii String Permutation Sorted.
Import ListNotations.

Set Implicit Arguments.

(* ------------------------------------------------------------------ *)
(** ** JavaScript strings *)

Module JS.

Definition codeunit := N.
Definition jsstring := list codeunit.

(** A string literal, code unit by code unit. *)
Definition js (s : string) : jsstring :=
  List.map N_of_ascii (list_ascii_of_string s).

(** Truthiness of a string: the empty string is falsy. *)
Definition truthy (s : jsstring) : bool :=
  match s with [] => false | _ :: _ => true end.

Definition jsstring_eqb (a b : jsstring) : bool :=
  if list_eq_dec N.eq_dec a b then true else false.

(** WhiteSpace and LineTerminator code points, as removed by
    [String.prototype.trim] and skipped by [Number]. *)
Definition isWhiteSpace (c : codeunit) : bool :=
  (((9 <=? c) && (c <=? 13)) || (c =? 32) || (c =? 160) || (c =? 5760)
   || ((8192 <=? c) && (c <=? 8202)) || (c =? 8232) || (c =? 8233)
   || (c =? 8239) || (c =? 8287) || (c =? 12288) || (c =? 65279))%N.

Fixpoint trimStart (s : jsstring) : jsstring :=
  match s with
  | [] => []
  | c :: t => if isWhiteSpace c then trimStart t else s
  end.

Fixpoint trimEnd (s : jsstring) : jsstring :=
  match s with
  | [] => []
  | c :: t =>
      match trimEnd t with
      | [] => if isWhiteSpace c then [] else [c]
      | r => c :: r
      end
  end.

Definition trim (s : jsstring) : jsstring := trimEnd (trimStart s).

Definition startsWith (s : jsstring) (c : codeunit) : bool :=
  match s with
  | [] => false
  | d :: _ => (d =? c)%N
  end.

(** [s.split(sep)] for a one-character separator: never empty. *)
Fixpoint split (sep : codeunit) (s : jsstring) : list jsstring :=
  match s with
  | [] => [[]]
  | c :: t =>
      if (c =? sep)%N then [] :: split sep t
      else match split sep t with
           | seg :: segs => (c :: seg) :: segs
           | [] => [[c]]
           end
  end.

(** [parts.join(sep)]. *)
Fixpoint join (sep : jsstring) (parts : list jsstring) : jsstring :=
  match parts with
  | [] => []
  | [p] => p
  | p :: ps => p ++ sep ++ join sep ps
  end.

(** Relational comparison of two strings: code unit by code unit. *)
Fixpoint compare (a b : jsstring) : comparison :=
  match a, b with
  | [], [] => Eq
  | [], _ :: _ => Lt
  | _ :: _, [] => Gt
  | x :: a', y :: b' =>
      match (x ?= y)%N with
      | Eq => compare a' b'
      | o => o
      end
  end.

Definition gtb (a b : jsstring) : bool :=
  match compare a b with Gt => true | _ => false end.

Definition chr_dot : codeunit := 46%N.
Definition chr_comma : codeunit := 44%N.
Definition chr_minus : codeunit := 45%N.
Definition chr_plus : codeunit := 43%N.
Definition chr_zero : codeunit := 48%N.
Definition chr_colon : codeunit := 58%N.
Definition chr_T : codeunit := 84%N.

(** [\d] without the unicode flag: the ten ASCII digits. *)
Definition isDigit (c : codeunit) : bool := ((48 <=? c) && (c <=? 57))%N.

End JS.
Import JS.

(* ------------------------------------------------------------------ *)
(** ** utils/number.ts *)

Module NumberUtils.

(** The class [[0-9.]] kept by [replace(/[^0-9.]/g, '')]. *)
Definition allowedChar (c : codeunit) : bool := isDigit c || (c =? chr_dot)%N.

(** [whole.replace(/^0+(?=\d)/, '')]: the longest run of leading zeros
    that is still followed by a digit is removed. *)
Fixpoint stripLeadingZeros (s : jsstring) : jsstring :=
  match s with
  | c :: ((d :: _) as t) =>
      if (c =? chr_zero)%N && isDigit d then stripLeadingZeros t else s
  | _ => s
  end.

Definition sanitizeDecimal (value : jsstring) (allowNegative : bool) : jsstring :=
  if negb (truthy value) then []
  else
    let trimmed0 := trim value in
    let isNegative := allowNegative && startsWith trimmed0 chr_minus in
    let trimmed := if isNegative then tl trimmed0 else trimmed0 in
    let allowed := filter allowedChar trimmed in
    if negb (truthy allowed) then []
    else
      let parts := split chr_dot allowed in
      let whole := hd [] parts in
      let rest := tl parts in
      let decimals := firstn 2 (join [] rest) in
      let normalizedWhole := stripLeadingZeros whole in
      let safeWhole :=
        if truthy normalizedWhole then normalizedWhole
        else if truthy decimals then [chr_zero] else whole in
      let sanitized :=
        if truthy decimals then safeWhole ++ [chr_dot] ++ decimals
        else safeWhole in
      if negb (truthy sanitized) then []
      else if isNegative then chr_minus :: sanitized else sanitized.

Definition sanitizeAmountInput (raw : jsstring) : jsstring :=
  sanitizeDecimal raw false.

End NumberUtils.
Import NumberUtils.

(* ------------------------------------------------------------------ *)
(** ** The [Number] conversion applied to a string *)

Module JSNumber.

(** The result of [Number(s)]: the mathematical value of the literal,
    [(-1)^negative * mantissa * 10^exponent], kept exact; the rounding to
    a double is accounted for where a comparison is made. *)
Inductive number :=
| NaN
| Infinity (negative : bool)
| Finite (negative : bool) (mantissa : N) (exponent : Z).

Fixpoint span (p : codeunit -> bool) (s : jsstring) : jsstring * jsstring :=
  match s with
  | [] => ([], [])
  | c :: t => if p c then let (a, b) := span p t in (c :: a, b) else ([], s)
  end.

Definition digitValue (c : codeunit) : N :=
  (if isDigit c then c - 48
   else if (97 <=? c) && (c <=? 102) then c - 87
   else c - 55)%N.

Definition isHexDigit (c : codeunit) : bool :=
  (isDigit c || ((97 <=? c) && (c <=? 102)) || ((65 <=? c) && (c <=? 70)))%N.
Definition isOctalDigit (c : codeunit) : bool := ((48 <=? c) && (c <=? 55))%N.
Definition isBinaryDigit (c : codeunit) : bool := ((c =? 48) || (c =? 49))%N.

Definition digitsValue (base : N) (ds : jsstring) : N :=
  fold_left (fun acc c => acc * base + digitValue c)%N ds 0%N.

(** ExponentPart: [e] or [E], an optional sign, at least one digit. *)
Definition parseExponent (s : jsstring) : option Z :=
  match s with
  | [] => Some 0%Z
  | c :: t =>
      if ((c =? 101) || (c =? 69))%N then
        let '(neg, ds) :=
          match t with
          | d :: t' =>
              if (d =? chr_minus)%N then (true, t')
              else if (d =? chr_plus)%N then (false, t') else (false, t)
          | [] => (false, t)
          end in
        if truthy ds && forallb isDigit ds then
          let v := Z.of_N (digitsValue 10 ds) in
          Some (if neg then (- v)%Z else v)
        else None
      else None
  end.

(** StrUnsignedDecimalLiteral other than [Infinity]:
    digits [.] digits? exponent?, [.] digits exponent?, digits exponent?. *)
Definition parseUnsignedDecimal (s : jsstring) : option (N * Z) :=
  let (ip, r1) := span isDigit s in
  let '(fp, r2, ok) :=
    match r1 with
    | c :: t =>
        if (c =? chr_dot)%N then
          let (fp, r2) := span isDigit t in (fp, r2, truthy ip || truthy fp)
        else ([], r1, truthy ip)
    | [] => ([], r1, truthy ip)
    end in
  if ok then
    match parseExponent r2 with
    | Some e =>
        Some (digitsValue 10 (ip ++ fp), (e - Z.of_nat (List.length fp))%Z)
    | None => None
    end
  else None.

Definition parseUnsigned (negative : bool) (s : jsstring) : number :=
  if jsstring_eqb s (js "Infinity") then Infinity negative
  else match parseUnsignedDecimal s with
       | Some (m, e) => Finite negative m e
       | None => NaN
       end.

Definition parseNonDecimal (base : N) (digit : codeunit -> bool)
  (ds : jsstring) : number :=
  if truthy ds && forallb digit ds then Finite false (digitsValue base ds) 0%Z
  else NaN.

(** StringToNumber: surrounding white space is skipped, the empty string
    is [+0], anything outside the StringNumericLiteral grammar is [NaN]. *)
Definition Number (s : jsstring) : number :=
  match trim s with
  | [] => Finite false 0%N 0%Z
  | c :: t =>
      if (c =? chr_plus)%N then parseUnsigned false t
      else if (c =? chr_minus)%N then parseUnsigned true t
      else
        match t with
        | p :: ds =>
            if (c =? chr_zero)%N && ((p =? 120) || (p =? 88))%N
            then parseNonDecimal 16 isHexDigit ds
            else if (c =? chr_zero)%N && ((p =? 111) || (p =? 79))%N
            then parseNonDecimal 8 isOctalDigit ds
            else if (c =? chr_zero)%N && ((p =? 98) || (p =? 66))%N
            then parseNonDecimal 2 isBinaryDigit ds
            else parseUnsigned false (c :: t)
        | [] => parseUnsigned false (c :: t)
        end
  end.

Definition isNaN (v : number) : bool :=
  match v with NaN => true | _ => false end.

(** A positive value [m * 10^e] rounds to the double [0] exactly when it
    is at most half the smallest subnormal, [2^-1075]. *)
Definition roundsToZero (m : N) (e : Z) : bool :=
  ((e <? 0) && (Z.of_N m * 2 ^ 1075 <=? 10 ^ (- e)))%Z.

(** [v <= 0] on the double that [v] rounds to. *)
Definition leZero (v : number) : bool :=
  match v with
  | NaN => false
  | Infinity negative => negative
  | Finite negative m e => negative || (m =? 0)%N || roundsToZero m e
  end.

(** The exact value is strictly positive. *)
Definition positive (v : number) : Prop :=
  match v with
  | NaN => False
  | Infinity negative => negative = false
  | Finite negative m e => negative = false /\ (0 < m)%N
  end.

End JSNumber.

(* ------------------------------------------------------------------ *)
(** ** Errors and completions *)

Module Completion.

(** Values that the client code throws or receives as rejections. An
    [AxiosError] carries its own message and, when the server answered,
    the [error] and [details] members of the response body. *)
Inductive JSError :=
| AxiosError (message : jsstring)
    (response_error response_details : option jsstring)
| Error (message : jsstring)
| RangeError (message : jsstring)
| Thrown.

(** How a call ends: normally with a value, or abruptly with a thrown one. *)
Inductive outcome (A : Type) :=
| Return (a : A)
| Throw (e : JSError).
Arguments Throw {A} e.

End Completion.
Import Completion.

(* ------------------------------------------------------------------ *)
(** ** utils/errors.ts *)

Module Errors.

Definition getApiErrorMessage (error : JSError) : jsstring :=
  match error with
  | AxiosError msg response_error response_details =>
      let message := match response_error with Some e => e | None => msg end in
      match response_details with
      | Some details =>
          if truthy details then message ++ js ": " ++ details else message
      | None => message
      end
  | Error msg => msg
  | RangeError msg => msg
  | Thrown => js "Unexpected error occurred"
  end.

End Errors.

(* ------------------------------------------------------------------ *)
(** ** utils/datetime.ts *)

Module DateTime.

(** A [Date] holding a valid time value, read through its local-time
    getters. [getMonth] counts from zero, as in JavaScript. *)
Record Date := {
  getFullYear : N;
  getMonth : N;
  getDate : N;
  getHours : N;
  getMinutes : N;
  getSeconds : N
}.

(** A [Date] object: its time value may be [NaN] (an invalid date). *)
Inductive DateObject :=
| ValidDate (d : Date)
| InvalidDate.

(** [value.toString()] of a non-negative integer. *)
Fixpoint toDigits (fuel : nat) (n : N) (acc : jsstring) : jsstring :=
  let acc' := (48 + n mod 10)%N :: acc in
  match fuel with
  | O => acc'
  | S f => if (n <? 10)%N then acc' else toDigits f (n / 10)%N acc'
  end.

Definition toString (n : N) : jsstring := toDigits (N.to_nat (N.log2 n)) n [].

(** [s.padStart(2, '0')]. *)
Definition padStart2 (s : jsstring) : jsstring :=
  repeat chr_zero (2 - List.length s) ++ s.

Definition pad (value : N) : jsstring := padStart2 (toString value).

(** The template [`${getFullYear()}-${pad(getMonth() + 1)}-${pad(getDate())}`]. *)
Definition localDateString (d : Date) : jsstring :=
  toString (getFullYear d) ++ js "-" ++ pad (getMonth d + 1) ++ js "-"
    ++ pad (getDate d).

(** The template [`${pad(getHours())}:${pad(getMinutes())}`]. *)
Definition localTimeString (d : Date) : jsstring :=
  pad (getHours d) ++ js ":" ++ pad (getMinutes d).

Section Platform.

(** [new Date()]: the clock. *)
Variable now : Date.
(** [new Date(value)]: the platform's date parser. *)
Variable parse : jsstring -> DateObject.
(** The text that [toISOString] prints for a valid time value. *)
Variable formatISO : Date -> jsstring.

(** [Date.prototype.toISOString] throws a [RangeError] on an invalid date. *)
Definition toISOString (d : DateObject) : outcome jsstring :=
  match d with
  | ValidDate v => Return (formatISO v)
  | InvalidDate => Throw (RangeError (js "Invalid time value"))
  end.

(** [Number.isNaN(date.getTime())]. *)
Definition isInvalid (d : DateObject) : bool :=
  match d with
  | ValidDate _ => false
  | InvalidDate => true
  end.

Definition toDate (value : option jsstring) : option DateObject :=
  match value with
  | None => None
  | Some v =>
      if negb (truthy v) then None
      else
        let date := parse v in
        if isInvalid date then None else Some date
  end.

(** The getters of an invalid date return [NaN], which prints as such. *)
Definition toLocalDateInput (isoString : option jsstring) : jsstring :=
  match toDate isoString with
  | None => []
  | Some (ValidDate date) => localDateString date
  | Some InvalidDate => js "NaN-NaN-NaN"
  end.

Definition toLocalTimeInput (isoString : option jsstring) : jsstring :=
  match toDate isoString with
  | None => []
  | Some (ValidDate date) => localTimeString date
  | Some InvalidDate => js "NaN:NaN"
  end.

Definition getTodayIsoDate : jsstring :=
  let today := now in
  toString (getFullYear today) ++ js "-" ++ pad (getMonth today + 1)
    ++ js "-" ++ pad (getDate today).

Definition isFutureDate (dateValue : option jsstring) : bool :=
  match dateValue with
  | None => false
  | Some v => if negb (truthy v) then false else gtb v getTodayIsoDate
  end.

Definition toIsoString (localValue : option jsstring) : outcome jsstring :=
  let date := toDate localValue in
  toISOString (match date with Some d => d | None => ValidDate now end).

Definition combineDateAndTime (date : jsstring) (time : option jsstring)
  : outcome jsstring :=
  if negb (truthy date) then toISOString (ValidDate now)
  else
    let safeTime :=
      match time with
      | Some t => if truthy t && truthy (trim t) then t else js "00:00"
      | None => js "00:00"
      end in
    let composed := date ++ js "T" ++ safeTime in
    let parsed := parse composed in
    if isInvalid parsed then toISOString (ValidDate now)
    else toISOString parsed.

End Platform.

End DateTime.

(* ------------------------------------------------------------------ *)
(** ** components/ExpenseForm.tsx *)

Module ExpenseForm.

Record ExpenseFormState := {
  amount : jsstring;
  currency : jsstring;
  category : jsstring;
  payment_method : jsstring;
  incurred_date : jsstring;
  incurred_time : jsstring;
  description : jsstring;
  merchant : jsstring;
  tags : jsstring;
  receipt_image_path : jsstring
}.

(** [Partial<Record<...>>]: a key is present when its message is. *)
Record ExpenseFormErrors := {
  err_amount : option jsstring;
  err_category : option jsstring;
  err_payment_method : option jsstring;
  err_incurred_date : option jsstring
}.

Record ExpenseValidationResult := {
  errors : ExpenseFormErrors;
  hasFutureDateError : bool
}.

(** types.ts, [ExpensePayload]: optional members are [option]s. *)
Record ExpensePayload := {
  p_amount : jsstring;
  p_currency : jsstring;
  p_category : jsstring;
  p_payment_method : jsstring;
  p_incurred_at : jsstring;
  p_description : option jsstring;
  p_merchant : option jsstring;
  p_tags : option (list jsstring);
  p_receipt_image_path : option jsstring
}.

(** [value || undefined]. *)
Definition orUndefined (value : jsstring) : option jsstring :=
  if truthy value then Some value else None.

(** The [tags] member built on submit:
    [tags ? tags.split(',').map(trim).filter(Boolean) : undefined]. *)
Definition submittedTags (tags : jsstring) : option (list jsstring) :=
  if truthy tags
  then Some (filter truthy (List.map trim (split chr_comma tags)))
  else None.

Section Platform.

Variable now : DateTime.Date.
Variable parse : jsstring -> DateTime.DateObject.
Variable formatISO : DateTime.Date -> jsstring.
(** [String.prototype.toUpperCase]. *)
Variable toUpperCase : jsstring -> jsstring.

Definition validateExpense (state : ExpenseFormState) : ExpenseValidationResult :=
  let amountValue := JSNumber.Number (amount state) in
  let e_amount :=
    if negb (truthy (trim (amount state)))
    then Some (js "Amount is required.")
    else if JSNumber.isNaN amountValue || JSNumber.leZero amountValue
    then Some (js "Enter a positive amount.")
    else None in
  let e_category :=
    if negb (truthy (trim (category state)))
    then Some (js "Select or create a category.")
    else None in
  let e_payment_method :=
    if negb (truthy (trim (payment_method state)))
    then Some (js "Choose a payment method.")
    else None in
  let '(e_date, future) :=
    if negb (truthy (incurred_date state))
    then (Some (js "Date is required."), false)
    else if DateTime.isFutureDate now (Some (incurred_date state))
    then (Some (js "Incurred date cannot be in the future."), true)
    else (None, false) in
  {| errors := {| err_amount := e_amount;
                  err_category := e_category;
                  err_payment_method := e_payment_method;
                  err_incurred_date := e_date |};
     hasFutureDateError := future |}.

(** [Object.keys(validationErrors).length === 0]. *)
Definition isFormValid (state : ExpenseFormState) : bool :=
  let e := errors (validateExpense state) in
  match err_amount e, err_category e, err_payment_method e, err_incurred_date e with
  | None, None, None, None => true
  | _, _, _, _ => false
  end.

(** [handleSubmit], seen from [onSubmit]: [None] when the handler
    returns before calling it, otherwise the payload it is called with. *)
Definition handleSubmit (state : ExpenseFormState)
  : outcome (option ExpensePayload) :=
  if negb (isFormValid state) then Return None
  else
    match DateTime.combineDateAndTime now parse formatISO
            (incurred_date state) (Some (incurred_time state)) with
    | Throw e => Throw e
    | Return combined =>
        match DateTime.toIsoString now parse formatISO (Some combined) with
        | Throw e => Throw e
        | Return iso =>
            Return (Some
              {| p_amount := amount state;
                 p_currency := toUpperCase (currency state);
                 p_category := category state;
                 p_payment_method := payment_method state;
                 p_incurred_at := iso;
                 p_description := orUndefined (description state);
                 p_merchant := orUndefined (merchant state);
                 p_tags := submittedTags (tags state);
                 p_receipt_image_path := orUndefined (receipt_image_path state) |})
        end
    end.

End Platform.

End ExpenseForm.

(* ------------------------------------------------------------------ *)
(** ** components/IncomeForm.tsx *)

Module IncomeForm.

Record IncomeFormState := {
  amount : jsstring;
  currency : jsstring;
  source : jsstring;
  received_method : jsstring;
  received_date : jsstring;
  received_time : jsstring;
  description : jsstring;
  tags : jsstring;
  attachment_path : jsstring
}.

(** [Partial<Record<...>>]: a key is present when its message is. *)
Record IncomeFormErrors := {
  err_amount : option jsstring;
  err_source : option jsstring;
  err_received_method : option jsstring;
  err_received_date : option jsstring
}.

Record IncomeValidationResult := {
  errors : IncomeFormErrors;
  hasFutureDateError : bool
}.

(** types.ts, [IncomePayload]: optional members are [option]s. *)
Record IncomePayload := {
  p_amount : jsstring;
  p_currency : jsstring;
  p_source : jsstring;
  p_received_method : jsstring;
  p_received_at : jsstring;
  p_description : option jsstring;
  p_tags : option (list jsstring);
  p_attachment_path : option jsstring
}.

(** [value || undefined]. *)
Definition orUndefined (value : jsstring) : option jsstring :=
  if truthy value then Some value else None.

(** The [tags] member built on submit:
    [tags ? tags.split(',').map(trim).filter(Boolean) : undefined]. *)
Definition submittedTags (tags : jsstring) : option (list jsstring) :=
  if truthy tags
  then Some (filter truthy (List.map trim (split chr_comma tags)))
  else None.

Section Platform.

Variable now : DateTime.Date.
Variable parse : jsstring -> DateTime.DateObject.
Variable formatISO : DateTime.Date -> jsstring.
(** [String.prototype.toUpperCase]. *)
Variable toUpperCase : jsstring -> jsstring.

Definition validateIncome (state : IncomeFormState) : IncomeValidationResult :=
  let amountValue := JSNumber.Number (amount state) in
  let e_amount :=
    if negb (truthy (trim (amount state)))
    then Some (js "Amount is required.")
    else if JSNumber.isNaN amountValue || JSNumber.leZero amountValue
    then Some (js "Enter a positive amount.")
    else None in
  let e_source :=
    if negb (truthy (trim (source state)))
    then Some (js "Source is required.")
    else None in
  let e_received_method :=
    if negb (truthy (trim (received_method state)))
    then Some (js "Choose a received method.")
    else None in
  let '(e_date, future) :=
    if negb (truthy (received_date state))
    then (Some (js "Date is required."), false)
    else if DateTime.isFutureDate now (Some (received_date state))
    then (Some (js "Received date cannot be in the future."), true)
    else (None, false) in
  {| errors := {| err_amount := e_amount;
                  err_source := e_source;
                  err_received_method := e_received_method;
                  err_received_date := e_date |};
     hasFutureDateError := future |}.

(** [Object.keys(validationErrors).length === 0]. *)
Definition isFormValid (state : IncomeFormState) : bool :=
  let e := errors (validateIncome state) in
  match err_amount e, err_source e, err_received_method e, err_received_date e with
  | None, None, None, None => true
  | _, _, _, _ => false
  end.

(** [handleSubmit], seen from [onSubmit]: [None] when the handler
    returns before calling it, otherwise the payload it is called with. *)
Definition handleSubmit (state : IncomeFormState)
  : outcome (option IncomePayload) :=
  if negb (isFormValid state) then Return None
  else
    match DateTime.combineDateAndTime now parse formatISO
            (received_date state) (Some (received_time state)) with
    | Throw e => Throw e
    | Return combined =>
        match DateTime.toIsoString now parse formatISO (Some combined) with
        | Throw e => Throw e
        | Return iso =>
            Return (Some
              {| p_amount := amount state;
                 p_currency := toUpperCase (currency state);
                 p_source := source state;
                 p_received_method := received_method state;
                 p_received_at := iso;
                 p_description := orUndefined (description state);
                 p_tags := submittedTags (tags state);
                 p_attachment_path := orUndefined (attachment_path state) |})
        end
    end.

End Platform.

End IncomeForm.

(* ------------------------------------------------------------------ *)
(** ** types.ts *)

Module Types.

Record Category := {
  id : jsstring;
  name : jsstring
}.

Record Expense := {
  expense_id : jsstring;
  expense_amount : jsstring;
  expense_currency : jsstring;
  expense_category : jsstring;
  expense_payment_method : jsstring;
  incurred_at : jsstring;
  expense_recorded_at : jsstring;
  expense_description : option jsstring;
  expense_merchant : option jsstring;
  expense_tags : list jsstring;
  receipt_image_path : option jsstring
}.

Record Income := {
  income_id : jsstring;
  income_amount : jsstring;
  income_currency : jsstring;
  income_source : jsstring;
  income_received_method : jsstring;
  received_at : jsstring;
  income_recorded_at : jsstring;
  income_description : option jsstring;
  income_tags : list jsstring;
  attachment_path : option jsstring
}.

End Types.

(* ------------------------------------------------------------------ *)
(** ** Promises over a client state and a server *)

Module Async.

Section Monad.

Variable St : Type.

(** An asynchronous function body: it runs from a state to a completion
    and a state. *)
Definition M (A : Type) : Type := St -> outcome A * St.

Definition ret {A} (a : A) : M A := fun s => (Return a, s).

Definition throw {A} (e : JSError) : M A := fun s => (Throw e, s).

Definition bind {A B} (m : M A) (k : A -> M B) : M B :=
  fun s =>
    match m s with
    | (Return a, s') => k a s'
    | (Throw e, s') => (Throw e, s')
    end.

Definition modify (f : St -> St) : M unit := fun s => (Return tt, f s).

(** [try { body } catch (err) { handler }]. *)
Definition tryCatch {A} (body : M A) (handler : JSError -> M A) : M A :=
  fun s =>
    match body s with
    | (Return a, s') => (Return a, s')
    | (Throw e, s') => handler e s'
    end.

(** [try { body } finally { cleanup }]: the cleanup runs on both exits
    and the completion of the body is kept unless the cleanup throws. *)
Definition finally {A} (body : M A) (cleanup : M unit) : M A :=
  fun s =>
    match body s with
    | (r, s') =>
        match cleanup s' with
        | (Return _, s'') => (r, s'')
        | (Throw e, s'') => (Throw e, s'')
        end
    end.

End Monad.

Declare Scope async_scope.
Delimit Scope async_scope with async.
Notation "x <- m ;; k" := (bind m (fun x => k))
  (at level 100, m at next level, right associativity) : async_scope.
Notation "m ;;; k" := (bind m (fun _ => k))
  (at level 100, right associativity) : async_scope.

(** The requests that [api] sends. *)
Inductive Method := GET | POST | PUT | DELETE.

Record Request := {
  method : Method;
  url : jsstring
}.

End Async.
Import Async.

(* ------------------------------------------------------------------ *)
(** ** hooks/useExpenses.ts and hooks/useIncomes.ts

    The two hooks are the same text up to the item type and the route, so
    they are embedded once, over both. *)

Module ListHook.

Section Hook.

Variables Item Payload PartialPayload Server : Type.
(** The route: ['/expenses'] or ['/incomes']. *)
Variable path : jsstring.

(** [{items, total}], the body of a list response. *)
Record ListResponse := {
  resp_items : list Item;
  resp_total : jsstring
}.

(** The server behind [api]: each request answers or fails, and may
    change the server. *)
Record Api := {
  api_get : Server -> (JSError + ListResponse) * Server;
  api_post : Payload -> Server -> (JSError + Item) * Server;
  api_put : jsstring -> PartialPayload -> Server -> (JSError + Item) * Server;
  api_delete : jsstring -> Server -> (JSError + unit) * Server
}.

Variable api : Api.

(** The [useState] cells of the hook. *)
Record State := {
  items : list Item;
  total : jsstring;
  loading : bool;
  submitting : bool;
  error : option jsstring
}.

(** The initial values given to [useState]. *)
Definition initialState : State :=
  {| items := []; total := js "0.00"; loading := false;
     submitting := false; error := None |}.

(** What a call runs over: the hook state, the server, and the requests
    sent so far, oldest first. *)
Record World := {
  state : State;
  server : Server;
  log : list Request
}.

Definition setState (f : State -> State) : M World unit :=
  modify (fun w =>
    {| state := f (state w); server := server w; log := log w |}).

Definition setItems (v : list Item) : M World unit :=
  setState (fun s =>
    {| items := v; total := total s; loading := loading s;
       submitting := submitting s; error := error s |}).
Definition setTotal (v : jsstring) : M World unit :=
  setState (fun s =>
    {| items := items s; total := v; loading := loading s;
       submitting := submitting s; error := error s |}).
Definition setLoading (v : bool) : M World unit :=
  setState (fun s =>
    {| items := items s; total := total s; loading := v;
       submitting := submitting s; error := error s |}).
Definition setSubmitting (v : bool) : M World unit :=
  setState (fun s =>
    {| items := items s; total := total s; loading := loading s;
       submitting := v; error := error s |}).
Definition setError (v : option jsstring) : M World unit :=
  setState (fun s =>
    {| items := items s; total := total s; loading := loading s;
       submitting := submitting s; error := v |}).

(** One awaited request: it is logged, the server moves, and a failure
    is a rejection. *)
Definition request {A} (m : Method) (u : jsstring)
  (call : Server -> (JSError + A) * Server) : M World A :=
  fun w =>
    let (r, sv) := call (server w) in
    let w' := {| state := state w; server := sv;
                 log := log w ++ [{| method := m; url := u |}] |} in
    match r with
    | inl e => (Throw e, w')
    | inr a => (Return a, w')
    end.

Definition itemUrl (id : jsstring) : jsstring := path ++ js "/" ++ id.

Definition refresh : M World unit :=
  (setLoading true ;;;
   finally
     (tryCatch
        (data <- request GET path (api_get api) ;;
         setItems (resp_items data) ;;;
         setTotal (resp_total data) ;;;
         setError None)
        (fun err => setError (Some (Errors.getApiErrorMessage err))))
     (setLoading false))%async.

Definition create (payload : Payload) : M World unit :=
  (setSubmitting true ;;;
   finally
     (tryCatch
        (request POST path (api_post api payload) ;;;
         refresh ;;;
         setError None)
        (fun err =>
           setError (Some (Errors.getApiErrorMessage err)) ;;;
           throw err))
     (setSubmitting false))%async.

Definition update (id : jsstring) (payload : PartialPayload) : M World unit :=
  (setSubmitting true ;;;
   finally
     (tryCatch
        (request PUT (itemUrl id) (api_put api id payload) ;;;
         refresh ;;;
         setError None)
        (fun err =>
           setError (Some (Errors.getApiErrorMessage err)) ;;;
           throw err))
     (setSubmitting false))%async.

Definition remove (id : jsstring) : M World unit :=
  (setSubmitting true ;;;
   finally
     (tryCatch
        (request DELETE (itemUrl id) (api_delete api id) ;;;
         refresh ;;;
         setError None)
        (fun err =>
           setError (Some (Errors.getApiErrorMessage err)) ;;;
           throw err))
     (setSubmitting false))%async.

End Hook.

End ListHook.

Module useExpenses.
Section Hook.
Variables PartialPayload Server : Type.
Let Item := Types.Expense.
Let Payload := ExpenseForm.ExpensePayload.
Variable api : ListHook.Api Item Payload PartialPayload Server.

Definition path : jsstring := js "/expenses".
Definition refresh := ListHook.refresh path api.
Definition create := ListHook.create path api.
Definition update := ListHook.update path api.
Definition remove := ListHook.remove path api.
End Hook.
End useExpenses.

Module useIncomes.
Section Hook.
Variables PartialPayload Server : Type.
Let Item := Types.Income.
Let Payload := IncomeForm.IncomePayload.
Variable api : ListHook.Api Item Payload PartialPayload Server.

Definition path : jsstring := js "/incomes".
Definition refresh := ListHook.refresh path api.
Definition create := ListHook.create path api.
Definition update := ListHook.update path api.
Definition remove := ListHook.remove path api.
End Hook.
End useIncomes.

(* ------------------------------------------------------------------ *)
(** ** Platform: [Array.prototype.sort] and [localeCompare] *)

Module JSArray.

Section Sort.

Variable A : Type.
(** The comparator: negative, zero or positive. *)
Variable cmp : A -> A -> Z.

(** An element is put before the first element that it does not
    follow, so that it stays after those it compares equal to. *)
Fixpoint insert (x : A) (l : list A) : list A :=
  match l with
  | [] => [x]
  | y :: t => if (cmp x y <=? 0)%Z then x :: y :: t else y :: insert x t
  end.

(** [Array.prototype.sort] is a stable sort; with a consistent
    comparator every stable sort gives the same array, here the one of
    insertion sort. *)
Fixpoint sort (l : list A) : list A :=
  match l with
  | [] => []
  | x :: t => insert x (sort t)
  end.

End Sort.

End JSArray.

Module Intl.

Section Collation.

(** The collation key of a string at base sensitivity in the default
    locale: strings that differ only in case or accents share a key. *)
Variable sortKey : jsstring -> list N.

(** [a.localeCompare(b, undefined, { sensitivity: 'base' })]: the
    order of the two collation keys. *)
Definition localeCompare (a b : jsstring) : Z :=
  match JS.compare (sortKey a) (sortKey b) with
  | Lt => (-1)%Z
  | Eq => 0%Z
  | Gt => 1%Z
  end.

End Collation.

(** A collation key for ASCII text: letters are folded to lower case. *)
Definition asciiBaseKey (s : jsstring) : list N :=
  List.map (fun c => if ((65 <=? c) && (c <=? 90))%N then (c + 32)%N else c) s.

End Intl.

(* ------------------------------------------------------------------ *)
(** ** hooks/useCategories.ts *)

Module useCategories.

Import Types.

Record CategoryPayload := {
  payload_name : jsstring
}.

Section Hook.

Variable sortKey : jsstring -> list N.
Variable Server : Type.

Definition sortCategories (items : list Category) : list Category :=
  JSArray.sort
    (fun a b => Intl.localeCompare sortKey (name a) (name b)) items.

(** [{items}], the body of the list response. *)
Record CategoryListResponse := {
  resp_items : list Category
}.

Record Api := {
  api_get : Server -> (JSError + CategoryListResponse) * Server;
  api_post : CategoryPayload -> Server -> (JSError + Category) * Server;
  api_put : jsstring -> CategoryPayload -> Server
            -> (JSError + Category) * Server;
  api_delete : jsstring -> Server -> (JSError + unit) * Server
}.

Variable api : Api.

Record State := {
  items : list Category;
  loading : bool;
  submitting : bool;
  error : option jsstring
}.

Definition initialState : State :=
  {| items := []; loading := false; submitting := false; error := None |}.

Record World := {
  state : State;
  server : Server;
  log : list Request
}.

Definition setState (f : State -> State) : M World unit :=
  modify (fun w =>
    {| state := f (state w); server := server w; log := log w |}).

(** [setItems(prev => f(prev))]; a plain [setItems(v)] is the constant
    update. *)
Definition setItems (f : list Category -> list Category) : M World unit :=
  setState (fun s =>
    {| items := f (items s); loading := loading s;
       submitting := submitting s; error := error s |}).
Definition setLoading (v : bool) : M World unit :=
  setState (fun s =>
    {| items := items s; loading := v;
       submitting := submitting s; error := error s |}).
Definition setSubmitting (v : bool) : M World unit :=
  setState (fun s =>
    {| items := items s; loading := loading s;
       submitting := v; error := error s |}).
Definition setError (v : option jsstring) : M World unit :=
  setState (fun s =>
    {| items := items s; loading := loading s;
       submitting := submitting s; error := v |}).

Definition request {A} (m : Method) (u : jsstring)
  (call : Server -> (JSError + A) * Server) : M World A :=
  fun w =>
    let (r, sv) := call (server w) in
    let w' := {| state := state w; server := sv;
                 log := log w ++ [{| method := m; url := u |}] |} in
    match r with
    | inl e => (Throw e, w')
    | inr a => (Return a, w')
    end.

Definition path : jsstring := js "/categories".
Definition itemUrl (i : jsstring) : jsstring := path ++ js "/" ++ i.

Definition refresh : M World unit :=
  (setLoading true ;;;
   finally
     (tryCatch
        (data <- request GET path (api_get api) ;;
         setItems (fun _ => sortCategories (resp_items data)) ;;;
         setError None)
        (fun err => setError (Some (Errors.getApiErrorMessage err))))
     (setLoading false))%async.

Definition create (payload : CategoryPayload) : M World Category :=
  (setSubmitting true ;;;
   finally
     (tryCatch
        (data <- request POST path (api_post api payload) ;;
         setItems (fun prev => sortCategories (prev ++ [data])) ;;;
         setError None ;;;
         ret data)
        (fun err =>
           let message := Errors.getApiErrorMessage err in
           setError (Some message) ;;;
           throw err))
     (setSubmitting false))%async.

Definition update (i : jsstring) (payload : CategoryPayload)
  : M World Category :=
  (setSubmitting true ;;;
   finally
     (tryCatch
        (data <- request PUT (itemUrl i) (api_put api i payload) ;;
         setItems (fun prev =>
           sortCategories
             (List.map
                (fun item => if jsstring_eqb (id item) i then data else item)
                prev)) ;;;
         setError None ;;;
         ret data)
        (fun err =>
           let message := Errors.getApiErrorMessage err in
           setError (Some message) ;;;
           throw err))
     (setSubmitting false))%async.

Definition remove (i : jsstring) : M World unit :=
  (setSubmitting true ;;;
   finally
     (tryCatch
        (request DELETE (itemUrl i) (api_delete api i) ;;;
         setItems (fun prev =>
           filter (fun item => negb (jsstring_eqb (id item) i)) prev) ;;;
         setError None)
        (fun err =>
           let message := Errors.getApiErrorMessage err in
           setError (Some message) ;;;
           throw err))
     (setSubmitting false))%async.

End Hook.

End useCategories.

(* ------------------------------------------------------------------ *)
(** ** Vocabulary of the statements *)

Module Vocabulary.

(** The characters before the first decimal point. *)
Fixpoint wholePart (s : jsstring) : jsstring :=
  match s with
  | [] => []
  | c :: t => if (c =? chr_dot)%N then [] else c :: wholePart t
  end.

(** The characters after the first decimal point. *)
Fixpoint fractionPart (s : jsstring) : jsstring :=
  match s with
  | [] => []
  | c :: t => if (c =? chr_dot)%N then t else fractionPart t
  end.

(** The digits of a string, in order. *)
Definition digits (s : jsstring) : jsstring := filter isDigit s.

Definition notDot (c : codeunit) : bool := negb (c =? chr_dot)%N.

(** A member of an error record is present. *)
Definition present {A : Type} (o : option A) : bool :=
  match o with Some _ => true | None => false end.

(** A field is blank: empty once trimmed. *)
Definition blank (s : jsstring) : bool := negb (truthy (trim s)).

(** An amount is empty, does not parse as a number, or parses as a value
    that is not above zero. *)
Definition amountRejected (a : jsstring) : bool :=
  blank a || JSNumber.isNaN (JSNumber.Number a)
  || JSNumber.leZero (JSNumber.Number a).

(** A date field is missing or lies after today. *)
Definition dateRejected (today : DateTime.Date) (d : jsstring) : bool :=
  negb (truthy d) || DateTime.isFutureDate today (Some d).

Definition indicator (b : bool) : nat := if b then 1 else 0.

(** One of the digits [1] to [9]. *)
Definition nonzeroDigit (c : codeunit) : bool := ((49 <=? c) && (c <=? 57))%N.

Section ListHookOutcomes.

Variables Item Payload PartialPayload Server : Type.
Variable path : jsstring.
Variable api : ListHook.Api Item Payload PartialPayload Server.

(** A call that started in [w] and sent the mutation [m], which the
    server refused with [e] and state [sv], ended by throwing [e] with
    the held items, total and loading flag as they were, the error
    message set, and nothing else sent. *)
Definition keptOnFailure (w : ListHook.World Item Server) (m : Request)
  (e : JSError) (sv : Server)
  (res : outcome unit * ListHook.World Item Server) : Prop :=
  let w' := snd res in
  fst res = Throw e
  /\ ListHook.items (ListHook.state w') = ListHook.items (ListHook.state w)
  /\ ListHook.total (ListHook.state w') = ListHook.total (ListHook.state w)
  /\ ListHook.loading (ListHook.state w')
     = ListHook.loading (ListHook.state w)
  /\ ListHook.error (ListHook.state w')
     = Some (Errors.getApiErrorMessage e)
  /\ ListHook.submitting (ListHook.state w') = false
  /\ ListHook.server w' = sv
  /\ ListHook.log w' = ListHook.log w ++ [m].

(** A call that started in [w] and sent the mutation [m], which the
    server accepted leaving it in [sv], ended normally after sending the
    full list request, and holds what that request returned (or what it
    held before, if the list request failed). *)
Definition refetched (w : ListHook.World Item Server) (m : Request)
  (sv : Server) (res : outcome unit * ListHook.World Item Server) : Prop :=
  let w' := snd res in
  fst res = Return tt
  /\ ListHook.log w'
     = ListHook.log w ++ [m; {| method := GET; url := path |}]
  /\ ListHook.submitting (ListHook.state w') = false
  /\ ListHook.error (ListHook.state w') = None
  /\ match ListHook.api_get api sv with
     | (inr data, sv') =>
         ListHook.items (ListHook.state w') = ListHook.resp_items data
         /\ ListHook.total (ListHook.state w') = ListHook.resp_total data
         /\ ListHook.server w' = sv'
     | (inl _, sv') =>
         ListHook.items (ListHook.state w')
         = ListHook.items (ListHook.state w)
         /\ ListHook.total (ListHook.state w')
            = ListHook.total (ListHook.state w)
         /\ ListHook.server w' = sv'
     end.

End ListHookOutcomes.

Section CategoryHookOutcomes.

Variable Server : Type.

(** A category call that started in [w] and sent the mutation [m],
    which the server accepted leaving it in [sv], sent nothing else and
    holds [merged], computed from the items held before. *)
Definition mergedLocally {A : Type} (w : useCategories.World Server)
  (m : Request) (sv : Server) (result : A)
  (merged : list Types.Category)
  (res : outcome A * useCategories.World Server) : Prop :=
  let w' := snd res in
  fst res = Return result
  /\ useCategories.log w' = useCategories.log w ++ [m]
  /\ useCategories.server w' = sv
  /\ useCategories.items (useCategories.state w') = merged.

(** The last request a call has sent is the full list request. *)
Definition endsWithListRequest (w' : useCategories.World Server) : Prop :=
  exists before,
    useCategories.log w'
    = before ++ [{| method := GET; url := useCategories.path |}].

End CategoryHookOutcomes.

(** The time that is composed with a date: midnight when the time is
    missing or blank. *)
Definition timeOrMidnight (time : option jsstring) : jsstring :=
  match time with
  | Some t => if blank t then js "00:00" else t
  | None => js "00:00"
  end.

(** What a text parses to, or the current instant when it does not parse. *)
Definition parsedOrNow (now : DateTime.Date)
  (parse : jsstring -> DateTime.DateObject) (text : jsstring) : DateTime.Date :=
  match parse text with
  | DateTime.ValidDate d => d
  | DateTime.InvalidDate => now
  end.

(** A local date and time as a calendar shows it, with a four-digit year. *)
Definition validLocal (d : DateTime.Date) : Prop :=
  (1000 <= DateTime.getFullYear d <= 9999
   /\ DateTime.getMonth d <= 11
   /\ 1 <= DateTime.getDate d <= 31
   /\ DateTime.getHours d <= 23
   /\ DateTime.getMinutes d <= 59
   /\ DateTime.getSeconds d <= 59)%N.

(** The calendar day of [t] is after the calendar day of [now]. *)
Definition dayAfter (t now : DateTime.Date) : Prop :=
  (DateTime.getFullYear now < DateTime.getFullYear t
   \/ (DateTime.getFullYear now = DateTime.getFullYear t
       /\ (DateTime.getMonth now < DateTime.getMonth t
           \/ (DateTime.getMonth now = DateTime.getMonth t
               /\ DateTime.getDate now < DateTime.getDate t))))%N.

Definition sameDay (t now : DateTime.Date) : Prop :=
  DateTime.getFullYear now = DateTime.getFullYear t
  /\ DateTime.getMonth now = DateTime.getMonth t
  /\ DateTime.getDate now = DateTime.getDate t.

Definition secondOfDay (d : DateTime.Date) : N :=
  ((DateTime.getHours d * 60 + DateTime.getMinutes d) * 60
   + DateTime.getSeconds d)%N.

(** The instant [t] is strictly after the instant [now]. *)
Definition instantAfter (t now : DateTime.Date) : Prop :=
  dayAfter t now \/ (sameDay t now /\ (secondOfDay now < secondOfDay t)%N).

(** Decimal printing, checked number by number over a range. *)
Definition fourDigitsOk (y : N) : bool :=
  let a := (y / 1000)%N in
  let b := ((y / 100) mod 10)%N in
  let c := ((y / 10) mod 10)%N in
  let d := (y mod 10)%N in
  ((a <? 10) && (b <? 10) && (c <? 10) && (d <? 10)
   && (y =? 1000 * a + 100 * b + 10 * c + d))%N
  && jsstring_eqb (DateTime.toString y)
       [48 + a; 48 + b; 48 + c; 48 + d]%N.

Definition twoDigitsOk (n : N) : bool :=
  let a := (n / 10)%N in
  let b := (n mod 10)%N in
  ((a <? 10) && (b <? 10) && (n =? 10 * a + b))%N
  && jsstring_eqb (DateTime.pad n) [48 + a; 48 + b]%N.

(** Category [a] may stand before category [b]: its name does not come
    after the name of [b] in the collation. *)
Definition nameOrdered (sortKey : jsstring -> list N)
  (a b : Types.Category) : Prop :=
  (Intl.localeCompare sortKey (Types.name a) (Types.name b) <= 0)%Z.

(** Category [c] has the name [n], up to what base sensitivity ignores. *)
Definition sameBaseName (sortKey : jsstring -> list N) (n : jsstring)
  (c : Types.Category) : bool :=
  (Intl.localeCompare sortKey (Types.name c) n =? 0)%Z.

(** In a listing, categories with equal names (up to case) stand in the
    order of their identifiers. *)
Definition tiesByIdentifier (sortKey : jsstring -> list N)
  (l : list Types.Category) : Prop :=
  forall i j a b,
    i < j -> nth_error l i = Some a -> nth_error l j = Some b ->
    Intl.localeCompare sortKey (Types.name a) (Types.name b) = 0%Z ->
    JS.compare (Types.id a) (Types.id b) <> Gt.

Definition expenseErrorCount (e : ExpenseForm.ExpenseFormErrors) : nat :=
  indicator (present (ExpenseForm.err_amount e))
  + indicator (present (ExpenseForm.err_category e))
  + indicator (present (ExpenseForm.err_payment_method e))
  + indicator (present (ExpenseForm.err_incurred_date e)).

Definition incomeErrorCount (e : IncomeForm.IncomeFormErrors) : nat :=
  indicator (present (IncomeForm.err_amount e))
  + indicator (present (IncomeForm.err_source e))
  + indicator (present (IncomeForm.err_received_method e))
  + indicator (present (IncomeForm.err_received_date e)).

End Vocabulary.
Import Vocabulary.

(* ------------------------------------------------------------------ *)
(** ** A concrete platform, for examples

    A clock stopped on 2 November 2026 at 10:00:00, a date parser that
    reads the forms [YYYY-MM-DDTHH:MM] and [YYYY-MM-DDTHH:MM:SS.sssZ], an ISO printer for a platform
    whose local time is UTC, and an upper-casing of ASCII letters. *)

Module Fixtures.

Import DateTime.

Definition clock : Date :=
  {| getFullYear := 2026; getMonth := 10; getDate := 2;
     getHours := 10; getMinutes := 0; getSeconds := 0 |}.

(** The next calendar day, the same day at 18:00, and one second before
    the clock. *)
Definition tomorrow : Date :=
  {| getFullYear := 2026; getMonth := 10; getDate := 3;
     getHours := 10; getMinutes := 0; getSeconds := 0 |}.

Definition laterToday : Date :=
  {| getFullYear := 2026; getMonth := 10; getDate := 2;
     getHours := 18; getMinutes := 0; getSeconds := 0 |}.

Definition aSecondAgo : Date :=
  {| getFullYear := 2026; getMonth := 10; getDate := 2;
     getHours := 9; getMinutes := 59; getSeconds := 59 |}.

Definition number2 (a b : codeunit) : option N :=
  if isDigit a && isDigit b then Some ((a - 48) * 10 + (b - 48))%N else None.

(** The seconds that may follow [HH:MM]: nothing, or [:SS.sssZ]. *)
Definition parseSeconds (s : jsstring) : option N :=
  match s with
  | [] => Some 0%N
  | [c; s1; s2; p; f1; f2; f3; z] =>
      match number2 s1 s2 with
      | Some sec =>
          if ((c =? chr_colon) && (p =? chr_dot) && isDigit f1 && isDigit f2
              && isDigit f3 && (z =? 90) && (sec <? 60))%N
          then Some sec else None
      | None => None
      end
  | _ => None
  end.

Definition parseLocal (s : jsstring) : DateObject :=
  match s with
  | y1 :: y2 :: y3 :: y4 :: m0 :: mo1 :: mo2 :: m1 :: d1 :: d2 :: t
      :: h1 :: h2 :: c :: mi1 :: mi2 :: rest =>
      match number2 y1 y2, number2 y3 y4, number2 mo1 mo2, number2 d1 d2,
            number2 h1 h2, number2 mi1 mi2, parseSeconds rest with
      | Some yh, Some yl, Some mo, Some d, Some h, Some mi, Some sec =>
          if ((m0 =? chr_minus) && (m1 =? chr_minus) && (t =? chr_T)
              && (c =? chr_colon) && (1 <=? mo) && (mo <=? 12) && (1 <=? d)
              && (d <=? 31) && (h <? 24) && (mi <? 60))%N
          then ValidDate
                 {| getFullYear := yh * 100 + yl; getMonth := mo - 1;
                    getDate := d; getHours := h; getMinutes := mi;
                    getSeconds := sec |}
          else InvalidDate
      | _, _, _, _, _, _, _ => InvalidDate
      end
  | _ => InvalidDate
  end.

Definition printISO (d : Date) : jsstring :=
  localDateString d ++ js "T" ++ localTimeString d ++ js ":"
    ++ pad (getSeconds d) ++ js ".000Z".

Definition upperASCII (s : jsstring) : jsstring :=
  List.map (fun c => if ((97 <=? c) && (c <=? 122))%N then (c - 32)%N else c) s.

(** A category server that holds a list of categories and numbers the
    ones it creates. *)
Definition categoryServer : useCategories.Api (list Types.Category) :=
  {| useCategories.api_get := fun sv =>
       (inr {| useCategories.resp_items := sv |}, sv);
     useCategories.api_post := fun payload sv =>
       let c := {| Types.id := toString (N.of_nat (List.length sv) + 1);
                   Types.name := useCategories.payload_name payload |} in
       (inr c, sv ++ [c]);
     useCategories.api_put := fun i payload sv =>
       let c := {| Types.id := i;
                   Types.name := useCategories.payload_name payload |} in
       (inr c,
        List.map (fun x => if jsstring_eqb (Types.id x) i then c else x) sv);
     useCategories.api_delete := fun i sv =>
       (inr tt, filter (fun x => negb (jsstring_eqb (Types.id x) i)) sv) |}.

(** An expense server that is down: every request fails. *)
Definition networkError : JSError :=
  AxiosError (js "Network Error") None None.

Definition expenseServerDown
  : ListHook.Api Types.Expense ExpenseForm.ExpensePayload
      ExpenseForm.ExpensePayload unit :=
  {| ListHook.api_get := fun sv => (inl networkError, sv);
     ListHook.api_post := fun _ sv => (inl networkError, sv);
     ListHook.api_put := fun _ _ sv => (inl networkError, sv);
     ListHook.api_delete := fun _ sv => (inl networkError, sv) |}.

(** An income server that accepts every mutation and lists nothing. *)
Definition incomeServerEmpty
  : ListHook.Api Types.Income IncomeForm.IncomePayload
      IncomeForm.IncomePayload unit :=
  {| ListHook.api_get := fun sv =>
       (inr {| ListHook.resp_items := []; ListHook.resp_total := js "0.00" |},
        sv);
     ListHook.api_post := fun p sv =>
       (inr {| Types.income_id := js "1";
               Types.income_amount := IncomeForm.p_amount p;
               Types.income_currency := IncomeForm.p_currency p;
               Types.income_source := IncomeForm.p_source p;
               Types.income_received_method := IncomeForm.p_received_method p;
               Types.received_at := IncomeForm.p_received_at p;
               Types.income_recorded_at := IncomeForm.p_received_at p;
               Types.income_description := IncomeForm.p_description p;
               Types.income_tags := [];
               Types.attachment_path := IncomeForm.p_attachment_path p |},
        sv);
     ListHook.api_put := fun _ _ sv => (inl networkError, sv);
     ListHook.api_delete := fun _ sv => (inr tt, sv) |}.

Definition lunch : Types.Expense :=
  {| Types.expense_id := js "e1";
     Types.expense_amount := js "12.50";
     Types.expense_currency := js "USD";
     Types.expense_category := js "Food";
     Types.expense_payment_method := js "cash";
     Types.incurred_at := js "2026-11-01T12:00:00.000Z";
     Types.expense_recorded_at := js "2026-11-01T12:05:00.000Z";
     Types.expense_description := None;
     Types.expense_merchant := None;
     Types.expense_tags := [];
     Types.receipt_image_path := None |}.

Definition coffee : ExpenseForm.ExpensePayload :=
  {| ExpenseForm.p_amount := js "3.20";
     ExpenseForm.p_currency := js "USD";
     ExpenseForm.p_category := js "Food";
     ExpenseForm.p_payment_method := js "cash";
     ExpenseForm.p_incurred_at := js "2026-11-02T09:00:00.000Z";
     ExpenseForm.p_description := None;
     ExpenseForm.p_merchant := None;
     ExpenseForm.p_tags := None;
     ExpenseForm.p_receipt_image_path := None |}.

(** A client that holds one expense, facing the server that is down. *)
Definition holdingLunch : ListHook.World Types.Expense unit :=
  {| ListHook.state :=
       {| ListHook.items := [lunch]; ListHook.total := js "12.50";
          ListHook.loading := false; ListHook.submitting := false;
          ListHook.error := None |};
     ListHook.server := tt;
     ListHook.log := [] |}.

Definition rent : Types.Category :=
  {| Types.id := js "1"; Types.name := js "Rent" |}.

(** A client that holds no category yet, facing a server that already
    holds one, created elsewhere. *)
Definition staleCategories : useCategories.World (list Types.Category) :=
  {| useCategories.state := useCategories.initialState;
     useCategories.server := [rent];
     useCategories.log := [] |}.

Definition expenseDraft (amount category date tags : jsstring)
  : ExpenseForm.ExpenseFormState :=
  {| ExpenseForm.amount := amount;
     ExpenseForm.currency := js "USD";
     ExpenseForm.category := category;
     ExpenseForm.payment_method := js "cash";
     ExpenseForm.incurred_date := date;
     ExpenseForm.incurred_time := [];
     ExpenseForm.description := [];
     ExpenseForm.merchant := [];
     ExpenseForm.tags := tags;
     ExpenseForm.receipt_image_path := [] |}.

Definition incomeDraft (amount source date tags : jsstring)
  : IncomeForm.IncomeFormState :=
  {| IncomeForm.amount := amount;
     IncomeForm.currency := js "USD";
     IncomeForm.source := source;
     IncomeForm.received_method := js "salary";
     IncomeForm.received_date := date;
     IncomeForm.received_time := [];
     IncomeForm.description := [];
     IncomeForm.tags := tags;
     IncomeForm.attachment_path := [] |}.

Definition refundDraft : ExpenseForm.ExpenseFormState :=
  expenseDraft (js "-5.00") (js "Food") (js "2026-11-01") [].

Definition zeroDraft : IncomeForm.IncomeFormState :=
  incomeDraft (js "0") (js "Salary") (js "2026-11-01") [].

Definition food : Types.Category :=
  {| Types.id := js "2"; Types.name := js "Food" |}.

(** Two categories whose names differ in case only, the larger
    identifier first. *)
Definition tiedCategories : list Types.Category :=
  [ {| Types.id := js "2"; Types.name := js "food" |};
    {| Types.id := js "1"; Types.name := js "Food" |} ].

(** The stale client creates the category [Food]. *)
Definition createFood
  : outcome Types.Category * useCategories.World (list Types.Category) :=
  useCategories.create Intl.asciiBaseKey categoryServer
    {| useCategories.payload_name := js "Food" |} staleCategories.

Definition noIncomes : ListHook.World Types.Income unit :=
  {| ListHook.state := ListHook.initialState Types.Income;
     ListHook.server := tt; ListHook.log := [] |}.

End Fixtures.

(* ================================================================== *)
(** * More of the client *)

(* ------------------------------------------------------------------ *)
(** ** utils/number.ts: display *)

Module NumberFormat.

(** The argument of [formatAmount], [string | number]. *)
Inductive AmountValue :=
| AmountString (s : jsstring)
| AmountNumber (v : JSNumber.number).

Section Platform.

(** [amountFormatter.format(x)], on the double that a value rounds to. *)
Variable format : JSNumber.number -> jsstring.
(** [Math.trunc(x)], on the double that a value rounds to. *)
Variable trunc : JSNumber.number -> JSNumber.number.

Definition formatAmount (value : AmountValue) : jsstring :=
  match value with
  | AmountNumber v => if JSNumber.isNaN v then [] else format v
  | AmountString s =>
      let sanitized := sanitizeDecimal s true in
      if negb (truthy sanitized) then []
      else
        let numeric := JSNumber.Number sanitized in
        if JSNumber.isNaN numeric then []
        else
          let decimalPart := nth_error (split chr_dot sanitized) 1 in
          let formattedWhole := format (trunc numeric) in
          match decimalPart with
          | Some d => formattedWhole ++ js "." ++ d
          | None => formattedWhole
          end
  end.

End Platform.

End NumberFormat.

(* ------------------------------------------------------------------ *)
(** ** utils/datetime.ts: display *)

Module DateTimeDisplay.

Import DateTime.

Section Platform.

Variable now : Date.
Variable parse : jsstring -> DateObject.

Definition toLocalInputValue (isoString : option jsstring) : jsstring :=
  match toDate parse isoString with
  | None => []
  | Some (ValidDate date) =>
      toString (getFullYear date) ++ js "-" ++ pad (getMonth date + 1)
        ++ js "-" ++ pad (getDate date) ++ js "T" ++ pad (getHours date)
        ++ js ":" ++ pad (getMinutes date)
  | Some InvalidDate => js "NaN-NaN-NaNTNaN:NaN"
  end.

Definition getCurrentTimeInput : jsstring :=
  pad (getHours now) ++ js ":" ++ pad (getMinutes now).

Definition formatDateTime (value : jsstring) : jsstring :=
  match toDate parse (Some value) with
  | None => value
  | Some (ValidDate date) =>
      toString (getFullYear date) ++ js "-" ++ pad (getMonth date + 1)
        ++ js "-" ++ pad (getDate date) ++ js " " ++ pad (getHours date)
        ++ js ":" ++ pad (getMinutes date)
  | Some InvalidDate => js "NaN-NaN-NaN NaN:NaN"
  end.

End Platform.

End DateTimeDisplay.

(* ------------------------------------------------------------------ *)
(** ** components/ExpenseForm.tsx: the component *)

Module ExpenseFormUI.

Import ExpenseForm.

Definition DEFAULT_CURRENCY : jsstring := js "USD".

Definition emptyState : ExpenseFormState :=
  {| amount := []; currency := DEFAULT_CURRENCY; category := [];
     payment_method := js "cash"; incurred_date := []; incurred_time := [];
     description := []; merchant := []; tags := [];
     receipt_image_path := [] |}.

(** [keyof ExpenseFormState]. *)
Inductive Field :=
| F_amount | F_currency | F_category | F_payment_method | F_incurred_date
| F_incurred_time | F_description | F_merchant | F_tags
| F_receipt_image_path.

(** [{ ...prev, [field]: value }]. *)
Definition setField (field : Field) (value : jsstring)
  (prev : ExpenseFormState) : ExpenseFormState :=
  {| amount := match field with F_amount => value | _ => amount prev end;
     currency := match field with F_currency => value | _ => currency prev end;
     category := match field with F_category => value | _ => category prev end;
     payment_method :=
       match field with F_payment_method => value | _ => payment_method prev end;
     incurred_date :=
       match field with F_incurred_date => value | _ => incurred_date prev end;
     incurred_time :=
       match field with F_incurred_time => value | _ => incurred_time prev end;
     description :=
       match field with F_description => value | _ => description prev end;
     merchant := match field with F_merchant => value | _ => merchant prev end;
     tags := match field with F_tags => value | _ => tags prev end;
     receipt_image_path :=
       match field with
       | F_receipt_image_path => value
       | _ => receipt_image_path prev
       end |}.

Definition updateField (field : Field) (value : jsstring)
  (prev : ExpenseFormState) : ExpenseFormState :=
  match field with
  | F_amount =>
      let sanitized := sanitizeAmountInput value in
      setField F_amount sanitized prev
  | _ => setField field value prev
  end.

Definition handleCategoryChange (next : jsstring)
  (prev : ExpenseFormState) : ExpenseFormState :=
  setField F_category next prev.

(** [value ?? ''] on an optional member. *)
Definition orEmpty (value : option jsstring) : jsstring :=
  match value with Some v => v | None => [] end.

(** The keys of [ExpenseFormErrors]. *)
Inductive ErrorField :=
| E_amount | E_category | E_payment_method | E_incurred_date.

Definition lookupError (e : ExpenseFormErrors) (field : ErrorField)
  : option jsstring :=
  match field with
  | E_amount => err_amount e
  | E_category => err_category e
  | E_payment_method => err_payment_method e
  | E_incurred_date => err_incurred_date e
  end.

(** [err instanceof Error ? err.message : fallback]. *)
Definition messageOr (fallback : jsstring) (err : JSError) : jsstring :=
  match err with
  | AxiosError msg _ _ => msg
  | Error msg => msg
  | RangeError msg => msg
  | Thrown => fallback
  end.

(** The [useState] cells of the component. *)
Record Component := {
  state : ExpenseFormState;
  error : option jsstring;
  hasSubmitted : bool
}.

Section Platform.

Variable now : DateTime.Date.
Variable parse : jsstring -> DateTime.DateObject.
Variable formatISO : DateTime.Date -> jsstring.
Variable toUpperCase : jsstring -> jsstring.

Definition handleUseCurrentTime (prev : ExpenseFormState) : ExpenseFormState :=
  setField F_incurred_time (DateTimeDisplay.getCurrentTimeInput now) prev.

(** The effect that follows [initialValues]. *)
Definition loadInitialValues (initialValues : option Types.Expense)
  : Component :=
  {| state :=
       match initialValues with
       | Some iv =>
           {| amount := sanitizeAmountInput (Types.expense_amount iv);
              currency :=
                if truthy (Types.expense_currency iv)
                then Types.expense_currency iv else DEFAULT_CURRENCY;
              category := Types.expense_category iv;
              payment_method := Types.expense_payment_method iv;
              incurred_date :=
                DateTime.toLocalDateInput parse (Some (Types.incurred_at iv));
              incurred_time :=
                DateTime.toLocalTimeInput parse (Some (Types.incurred_at iv));
              description := orEmpty (Types.expense_description iv);
              merchant := orEmpty (Types.expense_merchant iv);
              tags := join (js ", ") (Types.expense_tags iv);
              receipt_image_path := orEmpty (Types.receipt_image_path iv) |}
       | None => emptyState
       end;
     error := None;
     hasSubmitted := false |}.

Definition getFieldError (c : Component) (field : ErrorField)
  : option jsstring :=
  let validationErrors := errors (validateExpense now (state c)) in
  match lookupError validationErrors field with
  | None => None
  | Some message =>
      if negb (truthy message) then None
      else
        match field with
        | E_incurred_date =>
            if negb (truthy (incurred_date (state c))) && negb (hasSubmitted c)
            then None else Some message
        | _ =>
            if negb (hasSubmitted c) then
              match field with
              | E_amount =>
                  if truthy (trim (amount (state c)))
                  then Some message else None
              | E_category =>
                  if truthy (trim (category (state c)))
                  then Some message else None
              | E_payment_method =>
                  if truthy (trim (payment_method (state c)))
                  then Some message else None
              | E_incurred_date => None
              end
            else Some message
        end
  end.

Definition disableSubmit (loading : bool) (c : Component) : bool :=
  loading || hasFutureDateError (validateExpense now (state c)).

(** [handleSubmit] as a step of the component: [onSubmit] answers for the
    parent. *)
Definition submit (isEdit : bool)
  (onSubmit : ExpensePayload -> outcome unit) (c : Component)
  : outcome Component :=
  match handleSubmit now parse formatISO toUpperCase (state c) with
  | Throw e => Throw e
  | Return None =>
      Return {| state := state c;
                error := Some (js "Please correct the highlighted fields.");
                hasSubmitted := true |}
  | Return (Some payload) =>
      match onSubmit payload with
      | Return _ =>
          Return {| state := if negb isEdit then emptyState else state c;
                    error := None;
                    hasSubmitted := false |}
      | Throw err =>
          Return {| state := state c;
                    error := Some (messageOr (js "Failed to submit expense") err);
                    hasSubmitted := true |}
      end
  end.

End Platform.

(** What happens to a mounted form. *)
Inductive Event :=
| Change (field : Field) (value : jsstring)
| CategoryChange (next : jsstring)
| UseCurrentTime
| Submit (isEdit : bool) (onSubmit : ExpensePayload -> outcome unit)
| InitialValues (initialValues : option Types.Expense).

Section Steps.

Variable parse : jsstring -> DateTime.DateObject.
Variable formatISO : DateTime.Date -> jsstring.
Variable toUpperCase : jsstring -> jsstring.

Definition withState (f : ExpenseFormState -> ExpenseFormState)
  (c : Component) : Component :=
  {| state := f (state c); error := error c; hasSubmitted := hasSubmitted c |}.

(** One event, with the clock reading [now] at that moment. *)
Definition step (now : DateTime.Date) (ev : Event) (c : Component)
  : outcome Component :=
  match ev with
  | Change field value => Return (withState (updateField field value) c)
  | CategoryChange next => Return (withState (handleCategoryChange next) c)
  | UseCurrentTime => Return (withState (handleUseCurrentTime now) c)
  | Submit isEdit onSubmit =>
      submit now parse formatISO toUpperCase isEdit onSubmit c
  | InitialValues iv => Return (loadInitialValues parse iv)
  end.

(** The components that a mounted form can reach. *)
Inductive Reachable : Component -> Prop :=
| reach_mount (iv : option Types.Expense) :
    Reachable (loadInitialValues parse iv)
| reach_step (now : DateTime.Date) (ev : Event) (c c' : Component) :
    Reachable c -> step now ev c = Return c' -> Reachable c'.

End Steps.

End ExpenseFormUI.

(* ------------------------------------------------------------------ *)
(** ** A concrete number formatter, for examples

    An [en-US] formatter restricted to whole numbers that a double holds
    exactly: digits in groups of three, separated by commas. *)

Module FormatFixtures.

Fixpoint groupFromRight (n : nat) (rev_digits : jsstring) : jsstring :=
  match rev_digits with
  | [] => []
  | c :: t =>
      match n with
      | O => chr_comma :: c :: groupFromRight 2 t
      | S k => c :: groupFromRight k t
      end
  end.

Definition groupThousands (ds : jsstring) : jsstring :=
  rev (groupFromRight 3 (rev ds)).

Definition truncExact (v : JSNumber.number) : JSNumber.number :=
  match v with
  | JSNumber.Finite negative m e =>
      if (0 <=? e)%Z
      then JSNumber.Finite negative (m * N.pow 10 (Z.to_N e)) 0
      else JSNumber.Finite negative (m / N.pow 10 (Z.to_N (- e))) 0
  | other => other
  end.

Definition formatWhole (v : JSNumber.number) : jsstring :=
  match v with
  | JSNumber.Finite negative m _ =>
      (if negative && negb (m =? 0)%N then [chr_minus] else [])
        ++ groupThousands (DateTime.toString m)
  | JSNumber.Infinity negative =>
      if negative then js "-Infinity" else js "Infinity"
  | JSNumber.NaN => js "NaN"
  end.

End FormatFixtures.

(** A category server that refuses every request. *)
Module ServerFixtures.

Definition conflict : JSError :=
  AxiosError (js "Request failed with status code 409")
    (Some (js "Duplicate category")) (Some (js "Rent already exists")).

Definition categoryServerRefusing : useCategories.Api unit :=
  {| useCategories.api_get := fun sv => (inl conflict, sv);
     useCategories.api_post := fun _ sv => (inl conflict, sv);
     useCategories.api_put := fun _ _ sv => (inl conflict, sv);
     useCategories.api_delete := fun _ sv => (inl conflict, sv) |}.

(** A client that holds one category. *)
Definition holdingRent : useCategories.World unit :=
  {| useCategories.state :=
       {| useCategories.items := [Fixtures.rent];
          useCategories.loading := false;
          useCategories.submitting := false;
          useCategories.error := None |};
     useCategories.server := tt;
     useCategories.log := [] |}.

(** A client that holds what the list server holds: two categories. *)
Definition holdingTwo : useCategories.World (list Types.Category) :=
  {| useCategories.state :=
       {| useCategories.items := [Fixtures.food; Fixtures.rent];
          useCategories.loading := false;
          useCategories.submitting := false;
          useCategories.error := None |};
     useCategories.server := [Fixtures.rent; Fixtures.food];
     useCategories.log := [] |}.

End ServerFixtures.

(* ------------------------------------------------------------------ *)
(** ** hooks/useSummary.ts *)

Module useSummary.

Section Hook.

Variable Server : Type.

(** [{balance}], the body of the summary response. *)
Record SummaryResponse := {
  resp_balance : jsstring
}.

Variable api_get : Server -> (JSError + SummaryResponse) * Server.

Record State := {
  balance : jsstring;
  loading : bool;
  error : option jsstring
}.

Definition initialState : State :=
  {| balance := js "0.00"; loading := false; error := None |}.

Record World := {
  state : State;
  server : Server;
  log : list Request
}.

Definition setState (f : State -> State) : M World unit :=
  modify (fun w =>
    {| state := f (state w); server := server w; log := log w |}).

Definition setBalance (v : jsstring) : M World unit :=
  setState (fun s =>
    {| balance := v; loading := loading s; error := error s |}).
Definition setLoading (v : bool) : M World unit :=
  setState (fun s =>
    {| balance := balance s; loading := v; error := error s |}).
Definition setError (v : option jsstring) : M World unit :=
  setState (fun s =>
    {| balance := balance s; loading := loading s; error := v |}).

Definition request {A} (m : Method) (u : jsstring)
  (call : Server -> (JSError + A) * Server) : M World A :=
  fun w =>
    let (r, sv) := call (server w) in
    let w' := {| state := state w; server := sv;
                 log := log w ++ [{| method := m; url := u |}] |} in
    match r with
    | inl e => (Throw e, w')
    | inr a => (Return a, w')
    end.

Definition path : jsstring := js "/summary".

Definition refresh : M World unit :=
  (setLoading true ;;;
   finally
     (tryCatch
        (data <- request GET path api_get ;;
         setBalance (resp_balance data) ;;;
         setError None)
        (fun err => setError (Some (Errors.getApiErrorMessage err))))
     (setLoading false))%async.

End Hook.

End useSummary.

(* ------------------------------------------------------------------ *)
(** ** The category hook over time *)

Module CategoryHistory.

(** The calls that a component makes on the hook. *)
Inductive Call :=
| CallRefresh
| CallCreate (payload : useCategories.CategoryPayload)
| CallUpdate (i : jsstring) (payload : useCategories.CategoryPayload)
| CallRemove (i : jsstring).

Section History.

Variable sortKey : jsstring -> list N.
Variable Server : Type.
Variable api : useCategories.Api Server.

(** The world after one call, whatever its completion. *)
Definition after (call : Call) (w : useCategories.World Server)
  : useCategories.World Server :=
  match call with
  | CallRefresh => snd (useCategories.refresh sortKey api w)
  | CallCreate payload => snd (useCategories.create sortKey api payload w)
  | CallUpdate i payload => snd (useCategories.update sortKey api i payload w)
  | CallRemove i => snd (useCategories.remove api i w)
  end.

(** The world after a sequence of calls, the first call first. *)
Definition afterAll (calls : list Call) (w : useCategories.World Server)
  : useCategories.World Server :=
  fold_left (fun acc call => after call acc) calls w.

(** The hook as mounted against a server. *)
Definition mounted (sv : Server) : useCategories.World Server :=
  {| useCategories.state := useCategories.initialState;
     useCategories.server := sv;
     useCategories.log := [] |}.

End History.

End CategoryHistory.

(* ------------------------------------------------------------------ *)
(** ** App.tsx: the handlers

    The forms always pass a full payload to the update handlers, so the
    [Partial] payload of the hooks is taken to be the payload type. *)

Module App.

Section Handlers.

Variable Server : Type.
Variable expenseApi
  : ListHook.Api Types.Expense ExpenseForm.ExpensePayload
      ExpenseForm.ExpensePayload Server.
Variable incomeApi
  : ListHook.Api Types.Income IncomeForm.IncomePayload
      IncomeForm.IncomePayload Server.
Variable summaryApi
  : Server -> (JSError + useSummary.SummaryResponse) * Server.

(** The hooks and [useState] cells of [App], over the one server. *)
Record World := {
  expenses : ListHook.State Types.Expense;
  incomes : ListHook.State Types.Income;
  summary : useSummary.State;
  editingExpense : option Types.Expense;
  editingIncome : option Types.Income;
  isExpenseModalOpen : bool;
  isIncomeModalOpen : bool;
  server : Server;
  log : list Request
}.

(** A call on the expense hook, run inside [App]. *)
Definition onExpenses {A}
  (m : M (ListHook.World Types.Expense Server) A) : M World A :=
  fun w =>
    let (r, h) :=
      m {| ListHook.state := expenses w; ListHook.server := server w;
           ListHook.log := log w |} in
    (r, {| expenses := ListHook.state h; incomes := incomes w;
           summary := summary w; editingExpense := editingExpense w;
           editingIncome := editingIncome w;
           isExpenseModalOpen := isExpenseModalOpen w;
           isIncomeModalOpen := isIncomeModalOpen w;
           server := ListHook.server h; log := ListHook.log h |}).

Definition onIncomes {A}
  (m : M (ListHook.World Types.Income Server) A) : M World A :=
  fun w =>
    let (r, h) :=
      m {| ListHook.state := incomes w; ListHook.server := server w;
           ListHook.log := log w |} in
    (r, {| expenses := expenses w; incomes := ListHook.state h;
           summary := summary w; editingExpense := editingExpense w;
           editingIncome := editingIncome w;
           isExpenseModalOpen := isExpenseModalOpen w;
           isIncomeModalOpen := isIncomeModalOpen w;
           server := ListHook.server h; log := ListHook.log h |}).

Definition onSummary {A}
  (m : M (useSummary.World Server) A) : M World A :=
  fun w =>
    let (r, h) :=
      m {| useSummary.state := summary w; useSummary.server := server w;
           useSummary.log := log w |} in
    (r, {| expenses := expenses w; incomes := incomes w;
           summary := useSummary.state h; editingExpense := editingExpense w;
           editingIncome := editingIncome w;
           isExpenseModalOpen := isExpenseModalOpen w;
           isIncomeModalOpen := isIncomeModalOpen w;
           server := useSummary.server h; log := useSummary.log h |}).

Definition setEditingExpense (v : option Types.Expense) : M World unit :=
  modify (fun w =>
    {| expenses := expenses w; incomes := incomes w; summary := summary w;
       editingExpense := v; editingIncome := editingIncome w;
       isExpenseModalOpen := isExpenseModalOpen w;
       isIncomeModalOpen := isIncomeModalOpen w;
       server := server w; log := log w |}).

Definition setEditingIncome (v : option Types.Income) : M World unit :=
  modify (fun w =>
    {| expenses := expenses w; incomes := incomes w; summary := summary w;
       editingExpense := editingExpense w; editingIncome := v;
       isExpenseModalOpen := isExpenseModalOpen w;
       isIncomeModalOpen := isIncomeModalOpen w;
       server := server w; log := log w |}).

Definition setExpenseModalOpen (v : bool) : M World unit :=
  modify (fun w =>
    {| expenses := expenses w; incomes := incomes w; summary := summary w;
       editingExpense := editingExpense w; editingIncome := editingIncome w;
       isExpenseModalOpen := v;
       isIncomeModalOpen := isIncomeModalOpen w;
       server := server w; log := log w |}).

Definition setIncomeModalOpen (v : bool) : M World unit :=
  modify (fun w =>
    {| expenses := expenses w; incomes := incomes w; summary := summary w;
       editingExpense := editingExpense w; editingIncome := editingIncome w;
       isExpenseModalOpen := isExpenseModalOpen w;
       isIncomeModalOpen := v;
       server := server w; log := log w |}).

Definition get {A} (f : World -> A) : M World A :=
  fun w => (Return (f w), w).

Definition summaryRefresh : M World unit :=
  onSummary (useSummary.refresh summaryApi).

Definition closeExpenseModal : M World unit :=
  (setExpenseModalOpen false ;;; setEditingExpense None)%async.

Definition closeIncomeModal : M World unit :=
  (setIncomeModalOpen false ;;; setEditingIncome None)%async.

Definition handleExpenseCreate (values : ExpenseForm.ExpensePayload)
  : M World unit :=
  (onExpenses (useExpenses.create expenseApi values) ;;;
   summaryRefresh)%async.

Definition handleExpenseUpdate (id : jsstring)
  (values : ExpenseForm.ExpensePayload) : M World unit :=
  (onExpenses (useExpenses.update expenseApi id values) ;;;
   setEditingExpense None ;;;
   summaryRefresh)%async.

Definition handleIncomeCreate (values : IncomeForm.IncomePayload)
  : M World unit :=
  (onIncomes (useIncomes.create incomeApi values) ;;;
   summaryRefresh)%async.

Definition handleIncomeUpdate (id : jsstring)
  (values : IncomeForm.IncomePayload) : M World unit :=
  (onIncomes (useIncomes.update incomeApi id values) ;;;
   setEditingIncome None ;;;
   summaryRefresh)%async.

(** The [onDelete] given to the expense list. *)
Definition expenseOnDelete (id : jsstring) : M World unit :=
  (onExpenses (useExpenses.remove expenseApi id) ;;;
   editing <- get editingExpense ;;
   (match editing with
    | Some e =>
        if jsstring_eqb (Types.expense_id e) id
        then setEditingExpense None else ret tt
    | None => ret tt
    end) ;;;
   summaryRefresh)%async.

Definition incomeOnDelete (id : jsstring) : M World unit :=
  (onIncomes (useIncomes.remove incomeApi id) ;;;
   editing <- get editingIncome ;;
   (match editing with
    | Some e =>
        if jsstring_eqb (Types.income_id e) id
        then setEditingIncome None else ret tt
    | None => ret tt
    end) ;;;
   summaryRefresh)%async.

(** The [onSubmit] given to the expense form. *)
Definition expenseOnSubmit (payload : ExpenseForm.ExpensePayload)
  : M World unit :=
  (editing <- get editingExpense ;;
   (match editing with
    | Some e => handleExpenseUpdate (Types.expense_id e) payload
    | None => handleExpenseCreate payload
    end) ;;;
   closeExpenseModal)%async.

Definition incomeOnSubmit (payload : IncomeForm.IncomePayload)
  : M World unit :=
  (editing <- get editingIncome ;;
   (match editing with
    | Some e => handleIncomeUpdate (Types.income_id e) payload
    | None => handleIncomeCreate payload
    end) ;;;
   closeIncomeModal)%async.

End Handlers.

End App.

(* ------------------------------------------------------------------ *)
(** ** components/CategoryManager.tsx: the handlers *)

Module CategoryManager.

(** The [useState] cells of the component. *)
Record Local := {
  showManager : bool;
  newName : jsstring;
  editingId : option jsstring;
  editingName : jsstring
}.

Section Component.

Variable sortKey : jsstring -> list N.
Variable Server : Type.
Variable api : useCategories.Api Server.

(** The component with its hook and the [value] that its parent holds and
    that [onChange] replaces. *)
Record World := {
  local : Local;
  value : jsstring;
  hook : useCategories.World Server
}.

Definition onHook {A} (m : M (useCategories.World Server) A) : M World A :=
  fun w =>
    let (r, h) := m (hook w) in
    (r, {| local := local w; value := value w; hook := h |}).

Definition onChange (v : jsstring) : M World unit :=
  modify (fun w => {| local := local w; value := v; hook := hook w |}).

Definition setLocal (f : Local -> Local) : M World unit :=
  modify (fun w => {| local := f (local w); value := value w; hook := hook w |}).

Definition setShowManager (v : bool) : M World unit :=
  setLocal (fun l =>
    {| showManager := v; newName := newName l; editingId := editingId l;
       editingName := editingName l |}).
Definition setNewName (v : jsstring) : M World unit :=
  setLocal (fun l =>
    {| showManager := showManager l; newName := v; editingId := editingId l;
       editingName := editingName l |}).
Definition setEditingId (v : option jsstring) : M World unit :=
  setLocal (fun l =>
    {| showManager := showManager l; newName := newName l; editingId := v;
       editingName := editingName l |}).
Definition setEditingName (v : jsstring) : M World unit :=
  setLocal (fun l =>
    {| showManager := showManager l; newName := newName l;
       editingId := editingId l; editingName := v |}).

Definition get {A} (f : World -> A) : M World A :=
  fun w => (Return (f w), w).

Definition hasSelectedValue (w : World) : bool :=
  existsb (fun category => jsstring_eqb (Types.name category) (value w))
    (useCategories.items (useCategories.state (hook w))).

Definition toggleManager : M World unit :=
  (prev <- get (fun w => showManager (local w)) ;;
   let next := negb prev in
   (if negb next then (setEditingId None ;;; setEditingName [])
    else ret tt) ;;;
   setShowManager next)%async.

Definition beginEdit (category : Types.Category) : M World unit :=
  (setEditingId (Some (Types.id category)) ;;;
   setEditingName (Types.name category))%async.

Definition cancelEdit : M World unit :=
  (setEditingId None ;;; setEditingName [])%async.

(** A caught error is written to the console and dropped. *)
Definition handleAdd : M World unit :=
  (name <- get (fun w => newName (local w)) ;;
   let trimmed := trim name in
   if negb (truthy trimmed) then ret tt
   else
     tryCatch
       (created <- onHook
          (useCategories.create sortKey api
             {| useCategories.payload_name := trimmed |}) ;;
        onChange (Types.name created) ;;;
        setNewName [] ;;;
        setShowManager true)
       (fun _ => ret tt))%async.

Definition handleUpdate : M World unit :=
  (editing <- get (fun w => editingId (local w)) ;;
   match editing with
   | None => ret tt
   | Some i =>
       if negb (truthy i) then ret tt
       else
         name <- get (fun w => editingName (local w)) ;;
         let trimmed := trim name in
         if negb (truthy trimmed) then ret tt
         else
           tryCatch
             (updated <- onHook
                (useCategories.update sortKey api i
                   {| useCategories.payload_name := trimmed |}) ;;
              onChange (Types.name updated) ;;;
              cancelEdit)
             (fun _ => ret tt)
   end)%async.

Definition handleDelete (category : Types.Category) : M World unit :=
  tryCatch
    (onHook (useCategories.remove api (Types.id category)) ;;;
     selected <- get value ;;
     if jsstring_eqb selected (Types.name category)
     then onChange [] else ret tt)%async
    (fun _ => ret tt).

End Component.

End CategoryManager.

(* ------------------------------------------------------------------ *)
(** ** Vocabulary of the further statements *)

Module Shapes.

(** A text of the form [dddd-dd-dd], as a date input takes it. *)
Definition dateShaped (s : jsstring) : bool :=
  match s with
  | [y1; y2; y3; y4; m1; mo1; mo2; m2; d1; d2] =>
      isDigit y1 && isDigit y2 && isDigit y3 && isDigit y4
      && (m1 =? chr_minus)%N && isDigit mo1 && isDigit mo2
      && (m2 =? chr_minus)%N && isDigit d1 && isDigit d2
  | _ => false
  end.

(** A text of the form [dd:dd], as a time input takes it. *)
Definition timeShaped (s : jsstring) : bool :=
  match s with
  | [h1; h2; c; mi1; mi2] =>
      isDigit h1 && isDigit h2 && (c =? chr_colon)%N
      && isDigit mi1 && isDigit mi2
  | _ => false
  end.

End Shapes.

Module HookOutcomes.

Section ListHooks.

Variables Item Server : Type.
Variable path : jsstring.

(** How a mutation that sent [m] from [w] may have ended in [res]:
    normally, after the list request, with no error; or by throwing the
    error of the mutation, with that error shown, nothing else changed
    and no list request sent. In both cases [submitting] is off. *)
Definition settled (w : ListHook.World Item Server) (m : Request)
  (res : outcome unit * ListHook.World Item Server) : Prop :=
  let w' := snd res in
  ListHook.submitting (ListHook.state w') = false
  /\ ((fst res = Return tt
       /\ ListHook.error (ListHook.state w') = None
       /\ ListHook.loading (ListHook.state w') = false
       /\ ListHook.log w'
          = ListHook.log w ++ [m; {| method := GET; url := path |}])
      \/ (exists e,
            fst res = Throw e
            /\ ListHook.state w'
               = {| ListHook.items := ListHook.items (ListHook.state w);
                    ListHook.total := ListHook.total (ListHook.state w);
                    ListHook.loading := ListHook.loading (ListHook.state w);
                    ListHook.submitting := false;
                    ListHook.error := Some (Errors.getApiErrorMessage e) |}
            /\ ListHook.log w' = ListHook.log w ++ [m])).

End ListHooks.

Section CategoryHook.

Variable Server : Type.

(** A category call that sent [m] from [w] and was refused with [e]
    threw [e], shows it, and holds the categories it held. *)
Definition categoryKept {A : Type} (w : useCategories.World Server)
  (m : Request) (e : JSError) (sv : Server)
  (res : outcome A * useCategories.World Server) : Prop :=
  let w' := snd res in
  fst res = Throw e
  /\ useCategories.state w'
     = {| useCategories.items := useCategories.items (useCategories.state w);
          useCategories.loading :=
            useCategories.loading (useCategories.state w);
          useCategories.submitting := false;
          useCategories.error := Some (Errors.getApiErrorMessage e) |}
  /\ useCategories.server w' = sv
  /\ useCategories.log w' = useCategories.log w ++ [m].

(** The categories held are sorted and no flag is left on. *)
Definition steady (sortKey : jsstring -> list N)
  (w : useCategories.World Server) : Prop :=
  StronglySorted (nameOrdered sortKey)
    (useCategories.items (useCategories.state w))
  /\ useCategories.loading (useCategories.state w) = false
  /\ useCategories.submitting (useCategories.state w) = false.

End CategoryHook.

Section AppHandlers.

Variable Server : Type.

(** A handler that sent the mutation [m] from [w] got it accepted: it
    returned after sending the list request on [listPath] and then the
    summary request. *)
Definition synced (w : App.World Server) (m : Request) (listPath : jsstring)
  (res : outcome unit * App.World Server) : Prop :=
  fst res = Return tt
  /\ App.log (snd res)
     = App.log w ++ [m; {| method := GET; url := listPath |};
                     {| method := GET; url := js "/summary" |}].

(** A handler that sent the mutation [m] from [w] got it refused with
    [e]: it threw [e] having sent nothing else, and the summary, the
    record being edited and the open dialogs are as they were. *)
Definition aborted (w : App.World Server) (m : Request) (e : JSError)
  (res : outcome unit * App.World Server) : Prop :=
  let w' := snd res in
  fst res = Throw e
  /\ App.log w' = App.log w ++ [m]
  /\ App.summary w' = App.summary w
  /\ App.editingExpense w' = App.editingExpense w
  /\ App.editingIncome w' = App.editingIncome w
  /\ App.isExpenseModalOpen w' = App.isExpenseModalOpen w
  /\ App.isIncomeModalOpen w' = App.isIncomeModalOpen w.

Variable expenseApi
  : ListHook.Api Types.Expense ExpenseForm.ExpensePayload
      ExpenseForm.ExpensePayload Server.
Variable incomeApi
  : ListHook.Api Types.Income IncomeForm.IncomePayload
      IncomeForm.IncomePayload Server.

(** The request that submitting the expense form sends first: an update
    of the expense being edited, or a creation when none is. *)
Definition expenseSubmitRequest (w : App.World Server) : Request :=
  match App.editingExpense w with
  | Some e => {| method := PUT;
                 url := js "/expenses" ++ js "/" ++ Types.expense_id e |}
  | None => {| method := POST; url := js "/expenses" |}
  end.

(** The server's answer to that request. *)
Definition expenseSubmitAnswer (payload : ExpenseForm.ExpensePayload)
  (w : App.World Server) : JSError + Types.Expense :=
  fst (match App.editingExpense w with
       | Some e =>
           ListHook.api_put expenseApi (Types.expense_id e) payload
             (App.server w)
       | None => ListHook.api_post expenseApi payload (App.server w)
       end).

Definition incomeSubmitRequest (w : App.World Server) : Request :=
  match App.editingIncome w with
  | Some i => {| method := PUT;
                 url := js "/incomes" ++ js "/" ++ Types.income_id i |}
  | None => {| method := POST; url := js "/incomes" |}
  end.

Definition incomeSubmitAnswer (payload : IncomeForm.IncomePayload)
  (w : App.World Server) : JSError + Types.Income :=
  fst (match App.editingIncome w with
       | Some i =>
           ListHook.api_put incomeApi (Types.income_id i) payload
             (App.server w)
       | None => ListHook.api_post incomeApi payload (App.server w)
       end).

End AppHandlers.

End HookOutcomes.

(* ================================================================== *)
(** * Properties *)

(** ** Strings *)

Lemma truthy_false_nil (s : jsstring) : truthy s = false <-> s = [].
Proof. destruct s; simpl; split; congruence. Qed.

Lemma truthy_true_cons (s : jsstring) : truthy s = true <-> s <> [].
Proof. destruct s; simpl; split; congruence. Qed.

Lemma whitespace_not_allowed (c : codeunit) :
  isWhiteSpace c = true -> allowedChar c = false.
Proof.
  intros W. destruct (allowedChar c) eqn:A; [exfalso | reflexivity].
  unfold isWhiteSpace in W. unfold allowedChar, isDigit, chr_dot in A.
  repeat match goal with
         | H : (_ || _)%bool = true |- _ => apply orb_prop in H; destruct H
         | H : (_ && _)%bool = true |- _ => apply andb_prop in H; destruct H
         | H : (_ <=? _)%N = true |- _ => apply N.leb_le in H
         | H : (_ =? _)%N = true |- _ => apply N.eqb_eq in H
         end; unfold codeunit in *; lia.
Qed.

Lemma filter_allowed_trimStart (s : jsstring) :
  filter allowedChar (trimStart s) = filter allowedChar s.
Proof.
  induction s as [| c t IH]; simpl; [reflexivity |].
  destruct (isWhiteSpace c) eqn:W; [| reflexivity].
  rewrite (whitespace_not_allowed _ W). exact IH.
Qed.

Lemma filter_allowed_trimEnd (s : jsstring) :
  filter allowedChar (trimEnd s) = filter allowedChar s.
Proof.
  induction s as [| c t IH]; [reflexivity |].
  cbn [trimEnd]. destruct (trimEnd t) as [| r0 r] eqn:E.
  - cbn [filter] in *. rewrite <- IH.
    destruct (isWhiteSpace c) eqn:W.
    + now rewrite (whitespace_not_allowed _ W).
    + cbn [filter]. reflexivity.
  - change (filter allowedChar (c :: r0 :: r))
      with (if allowedChar c then c :: filter allowedChar (r0 :: r)
            else filter allowedChar (r0 :: r)).
    rewrite IH. reflexivity.
Qed.

Lemma filter_allowed_trim (s : jsstring) :
  filter allowedChar (trim s) = filter allowedChar s.
Proof.
  unfold trim. rewrite filter_allowed_trimEnd. apply filter_allowed_trimStart.
Qed.

Lemma split_nonempty (sep : codeunit) (s : jsstring) : split sep s <> [].
Proof.
  induction s as [| c t IH]; simpl; [discriminate |].
  destruct (c =? sep)%N; [discriminate |].
  destruct (split sep t); [contradiction | discriminate].
Qed.

Lemma split_hd (s : jsstring) : hd [] (split chr_dot s) = wholePart s.
Proof.
  induction s as [| c t IH]; simpl; [reflexivity |].
  destruct (c =? chr_dot)%N; [reflexivity |].
  destruct (split chr_dot t) as [| seg segs] eqn:E.
  - exfalso. exact (split_nonempty _ _ E).
  - simpl in *. now rewrite IH.
Qed.

Lemma join_nil_concat (parts : list jsstring) : join [] parts = List.concat parts.
Proof.
  induction parts as [| p ps IH]; [reflexivity |].
  destruct ps as [| q qs].
  - simpl. now rewrite app_nil_r.
  - change (join [] (p :: q :: qs)) with (p ++ [] ++ join [] (q :: qs)).
    rewrite IH. reflexivity.
Qed.

Lemma concat_split (s : jsstring) :
  List.concat (split chr_dot s) = filter notDot s.
Proof.
  induction s as [| c t IH]; simpl; [reflexivity |]. unfold notDot at 1.
  destruct (c =? chr_dot)%N; simpl; [exact IH |].
  destruct (split chr_dot t) as [| seg segs] eqn:E.
  - exfalso. exact (split_nonempty _ _ E).
  - simpl in *. now rewrite IH.
Qed.

Lemma split_tl (s : jsstring) :
  join [] (tl (split chr_dot s)) = filter notDot (fractionPart s).
Proof.
  rewrite join_nil_concat.
  induction s as [| c t IH]; simpl; [reflexivity |].
  destruct (c =? chr_dot)%N; simpl; [apply concat_split |].
  destruct (split chr_dot t) as [| seg segs] eqn:E.
  - exfalso. exact (split_nonempty _ _ E).
  - simpl in *. exact IH.
Qed.

Lemma allowed_cases (c : codeunit) :
  allowedChar c = isDigit c || (c =? chr_dot)%N.
Proof. reflexivity. Qed.

Lemma digit_not_dot (c : codeunit) : isDigit c = true -> (c =? chr_dot)%N = false.
Proof.
  unfold isDigit, chr_dot. intros H. apply andb_prop in H. destruct H as [H _].
  apply N.leb_le in H. apply N.eqb_neq. unfold codeunit in *. lia.
Qed.

Lemma wholePart_filter_allowed (s : jsstring) :
  wholePart (filter allowedChar s) = digits (wholePart s).
Proof.
  unfold digits. induction s as [| c t IH]; [reflexivity |].
  cbn [filter wholePart]. rewrite allowed_cases.
  destruct (c =? chr_dot)%N eqn:D.
  - rewrite orb_true_r. cbn [wholePart]. now rewrite D.
  - rewrite orb_false_r. cbn [filter].
    destruct (isDigit c); [cbn [wholePart]; rewrite D; now f_equal | exact IH].
Qed.

Lemma fractionPart_filter_allowed (s : jsstring) :
  fractionPart (filter allowedChar s) = filter allowedChar (fractionPart s).
Proof.
  induction s as [| c t IH]; [reflexivity |].
  cbn [filter fractionPart]. rewrite allowed_cases.
  destruct (c =? chr_dot)%N eqn:D.
  - rewrite orb_true_r. cbn [fractionPart]. now rewrite D.
  - rewrite orb_false_r.
    destruct (isDigit c); [cbn [fractionPart]; now rewrite D | exact IH].
Qed.

Lemma filter_notDot_allowed (s : jsstring) :
  filter notDot (filter allowedChar s) = digits s.
Proof.
  unfold digits. induction s as [| c t IH]; [reflexivity |].
  cbn [filter]. rewrite allowed_cases.
  destruct (isDigit c) eqn:G.
  - cbn [orb filter]. unfold notDot at 1. rewrite (digit_not_dot _ G).
    cbn [negb]. now f_equal.
  - cbn [orb]. destruct (c =? chr_dot)%N eqn:D; [| exact IH].
    cbn [filter]. unfold notDot at 1. rewrite D. exact IH.
Qed.

Lemma digits_all (s : jsstring) : Forall (fun c => isDigit c = true) (digits s).
Proof.
  unfold digits. apply Forall_forall. intros c H.
  now apply filter_In in H.
Qed.

Lemma digits_id (s : jsstring) :
  Forall (fun c => isDigit c = true) s -> digits s = s.
Proof.
  unfold digits. induction 1 as [| c t Hc _ IH]; [reflexivity |].
  cbn [filter]. rewrite Hc. now f_equal.
Qed.

Lemma wholePart_digits (s : jsstring) :
  Forall (fun c => isDigit c = true) s -> wholePart s = s.
Proof.
  induction 1 as [| c t Hc _ IH]; [reflexivity |].
  cbn [wholePart]. rewrite (digit_not_dot _ Hc). now f_equal.
Qed.

Lemma fractionPart_digits (s : jsstring) :
  Forall (fun c => isDigit c = true) s -> fractionPart s = [].
Proof.
  induction 1 as [| c t Hc _ IH]; [reflexivity |].
  cbn [fractionPart]. now rewrite (digit_not_dot _ Hc).
Qed.

Lemma wholePart_app_dot (w d : jsstring) :
  Forall (fun c => isDigit c = true) w ->
  wholePart (w ++ chr_dot :: d) = w.
Proof.
  induction 1 as [| c t Hc _ IH]; [reflexivity |].
  cbn [app wholePart]. rewrite (digit_not_dot _ Hc). now f_equal.
Qed.

Lemma fractionPart_app_dot (w d : jsstring) :
  Forall (fun c => isDigit c = true) w ->
  fractionPart (w ++ chr_dot :: d) = d.
Proof.
  induction 1 as [| c t Hc _ IH]; [reflexivity |].
  cbn [app fractionPart]. now rewrite (digit_not_dot _ Hc).
Qed.

(** *** Leading zeros *)

Lemma stripLeadingZeros_nil (s : jsstring) :
  stripLeadingZeros s = [] -> s = [].
Proof.
  induction s as [| c t IH]; [reflexivity |].
  cbn [stripLeadingZeros]. destruct t as [| d t']; [discriminate |].
  destruct ((c =? chr_zero)%N && isDigit d); [| discriminate].
  intros H. apply IH in H. discriminate.
Qed.

Lemma stripLeadingZeros_digits (s : jsstring) :
  Forall (fun c => isDigit c = true) s ->
  Forall (fun c => isDigit c = true) (stripLeadingZeros s).
Proof.
  induction 1 as [| c t Hc Ht IH]; [constructor |].
  cbn [stripLeadingZeros]. destruct t as [| d t']; [now constructor |].
  destruct ((c =? chr_zero)%N && isDigit d); [exact IH | now constructor].
Qed.

Lemma stripLeadingZeros_idem (s : jsstring) :
  stripLeadingZeros (stripLeadingZeros s) = stripLeadingZeros s.
Proof.
  induction s as [| c t IH]; [reflexivity |].
  cbn [stripLeadingZeros]. destruct t as [| d t']; [reflexivity |].
  destruct ((c =? chr_zero)%N && isDigit d) eqn:E; [exact IH |].
  cbn [stripLeadingZeros]. now rewrite E.
Qed.

(** *** What [sanitizeAmountInput] returns, in one equation *)

Lemma sanitizeAmountInput_eq (raw : jsstring) :
  sanitizeAmountInput raw =
    let w := stripLeadingZeros (digits (wholePart raw)) in
    let d := firstn 2 (digits (fractionPart raw)) in
    if truthy d
    then (if truthy w then w else [chr_zero]) ++ chr_dot :: d
    else w.
Proof.
  unfold sanitizeAmountInput, sanitizeDecimal.
  destruct raw as [| c0 raw0]; [reflexivity |].
  set (raw := c0 :: raw0). cbn [truthy negb andb].
  rewrite filter_allowed_trim, split_hd, split_tl.
  rewrite wholePart_filter_allowed, fractionPart_filter_allowed,
    filter_notDot_allowed.
  set (w0 := digits (wholePart raw)).
  set (d := firstn 2 (digits (fractionPart raw))).
  cbn zeta.
  destruct (filter allowedChar raw) as [| a0 al] eqn:A.
  - assert (W : w0 = []).
    { unfold w0. rewrite <- wholePart_filter_allowed, A. reflexivity. }
    assert (D : d = []).
    { unfold d. rewrite <- filter_notDot_allowed,
        <- fractionPart_filter_allowed, A. reflexivity. }
    rewrite W, D. reflexivity.
  - cbn [truthy negb].
    destruct (truthy d) eqn:Td.
    + destruct (truthy (stripLeadingZeros w0)) eqn:Tw.
      * destruct (stripLeadingZeros w0); [discriminate | reflexivity].
      * reflexivity.
    + destruct (truthy (stripLeadingZeros w0)) eqn:Tw.
      * destruct (stripLeadingZeros w0); [discriminate | reflexivity].
      * apply truthy_false_nil in Tw. rewrite Tw.
        apply stripLeadingZeros_nil in Tw. rewrite Tw. reflexivity.
Qed.

Lemma firstn_digits (n : nat) (s : jsstring) :
  Forall (fun c => isDigit c = true) s ->
  Forall (fun c => isDigit c = true) (firstn n s).
Proof.
  intros H. revert n. induction H as [| c t Hc _ IH]; intros [| n];
    cbn [firstn]; constructor; auto.
Qed.

Lemma digit_allowed (s : jsstring) :
  Forall (fun c => isDigit c = true) s ->
  Forall (fun c => allowedChar c = true) s.
Proof.
  apply Forall_impl. intros c H. unfold allowedChar. now rewrite H.
Qed.

Section SanitizedShape.

Variable raw : jsstring.
Let w := stripLeadingZeros (digits (wholePart raw)).
Let d := firstn 2 (digits (fractionPart raw)).
Let w' := if truthy w then w else [chr_zero].

Lemma sanitized_whole_digits : Forall (fun c => isDigit c = true) w.
Proof. apply stripLeadingZeros_digits, digits_all. Qed.

Lemma sanitized_decimals_digits : Forall (fun c => isDigit c = true) d.
Proof. apply firstn_digits, digits_all. Qed.

Lemma sanitized_safeWhole_digits : Forall (fun c => isDigit c = true) w'.
Proof.
  unfold w'. destruct (truthy w); [apply sanitized_whole_digits |].
  constructor; [reflexivity | constructor].
Qed.

Lemma sanitized_safeWhole_strip : stripLeadingZeros w' = w'.
Proof.
  unfold w'. destruct (truthy w); [apply stripLeadingZeros_idem | reflexivity].
Qed.

End SanitizedShape.

(** ** Amount normalisation *)

(** C1. For every input string the sanitized amount holds only digits and
    at most one decimal point; its whole part is the digits that precede
    the first point of the input (leading zeros dropped, a lone [0] put
    before a bare fraction), and its fractional part is exactly the first
    two digits that follow the first point of the input: further digits
    are cut off, none is rounded. *)
Theorem sanitizeAmountInput_truncates (raw : jsstring) :
  let out := sanitizeAmountInput raw in
  Forall (fun c => allowedChar c = true) out
  /\ Forall (fun c => isDigit c = true) (wholePart out)
  /\ Forall (fun c => isDigit c = true) (fractionPart out)
  /\ wholePart out =
       (let w := stripLeadingZeros (digits (wholePart raw)) in
        if truthy w then w
        else if truthy (fractionPart out) then [chr_zero] else [])
  /\ fractionPart out = firstn 2 (digits (fractionPart raw))
  /\ List.length (fractionPart out) <= 2.
Proof.
  cbn zeta. rewrite sanitizeAmountInput_eq. cbn zeta.
  pose proof (sanitized_whole_digits raw) as Hw.
  pose proof (sanitized_decimals_digits raw) as Hd.
  pose proof (sanitized_safeWhole_digits raw) as Hw'.
  set (w := stripLeadingZeros (digits (wholePart raw))) in *.
  set (d := firstn 2 (digits (fractionPart raw))) in *.
  assert (Hlen : List.length d <= 2) by apply firstn_le_length.
  destruct (truthy d) eqn:Td.
  - rewrite (wholePart_app_dot _ Hw'), (fractionPart_app_dot _ Hw'), Td.
    repeat split; auto.
    apply Forall_app. split; [now apply digit_allowed |].
    constructor; [reflexivity | now apply digit_allowed].
  - apply truthy_false_nil in Td.
    rewrite (wholePart_digits Hw), (fractionPart_digits Hw), Td.
    repeat split; auto.
    + now apply digit_allowed.
    + cbn [truthy]. destruct (truthy w) eqn:Tw; [reflexivity |].
      now apply truthy_false_nil in Tw.
Qed.

Example sanitize_thousands :
  sanitizeAmountInput (js "1,234.567") = js "1234.56".
Proof. reflexivity. Qed.

Example sanitize_no_rounding :
  sanitizeAmountInput (js " $ 0012.999 ") = js "12.99".
Proof. reflexivity. Qed.

Example sanitize_leading_dot : sanitizeAmountInput (js ".5") = js "0.5".
Proof. reflexivity. Qed.

Example sanitize_many_dots : sanitizeAmountInput (js "1.2.3.4") = js "1.23".
Proof. reflexivity. Qed.

Example sanitize_minus : sanitizeAmountInput (js "-5.00") = js "5.00".
Proof. reflexivity. Qed.

Example sanitize_lone_dot : sanitizeAmountInput (js ".") = [].
Proof. reflexivity. Qed.

(** C9. Sanitizing an already sanitized amount changes nothing. *)
Theorem sanitizeAmountInput_idempotent (s : jsstring) :
  sanitizeAmountInput (sanitizeAmountInput s) = sanitizeAmountInput s.
Proof.
  rewrite (sanitizeAmountInput_eq (sanitizeAmountInput s)).
  rewrite (sanitizeAmountInput_eq s). cbn zeta.
  pose proof (sanitized_whole_digits s) as Hw.
  pose proof (sanitized_decimals_digits s) as Hd.
  pose proof (sanitized_safeWhole_digits s) as Hw'.
  pose proof (sanitized_safeWhole_strip s) as Hs.
  set (w := stripLeadingZeros (digits (wholePart s))) in *.
  set (d := firstn 2 (digits (fractionPart s))) in *.
  assert (Hdd : firstn 2 (digits d) = d).
  { rewrite (digits_id Hd). unfold d. rewrite firstn_firstn. reflexivity. }
  destruct (truthy d) eqn:Td.
  - rewrite (wholePart_app_dot _ Hw'), (fractionPart_app_dot _ Hw').
    rewrite (digits_id Hw'), Hdd, Td, Hs.
    destruct (truthy w) eqn:Tw; [now rewrite Tw | reflexivity].
  - rewrite (wholePart_digits Hw), (fractionPart_digits Hw).
    cbn [digits filter firstn truthy].
    rewrite (digits_id Hw). apply stripLeadingZeros_idem.
Qed.

(** ** Trimming and splitting *)

Lemma trimEnd_cons (c : codeunit) (t : jsstring) :
  trimEnd (c :: t) =
    match trimEnd t with
    | [] => if isWhiteSpace c then [] else [c]
    | r => c :: r
    end.
Proof. reflexivity. Qed.

Lemma trimEnd_idem (s : jsstring) : trimEnd (trimEnd s) = trimEnd s.
Proof.
  induction s as [| c t IH]; [reflexivity |].
  rewrite trimEnd_cons. destruct (trimEnd t) as [| r0 r] eqn:E.
  - destruct (isWhiteSpace c) eqn:W; [reflexivity |].
    rewrite trimEnd_cons. cbn [trimEnd]. now rewrite W.
  - rewrite trimEnd_cons, IH. reflexivity.
Qed.

Lemma trimStart_head (s : jsstring) :
  match trimStart s with
  | [] => True
  | c :: _ => isWhiteSpace c = false
  end.
Proof.
  induction s as [| c t IH]; [exact I |].
  cbn [trimStart]. destruct (isWhiteSpace c) eqn:W; [exact IH | exact W].
Qed.

Lemma trimStart_trimEnd_fixed (c : codeunit) (t : jsstring) :
  isWhiteSpace c = false -> trimStart (trimEnd (c :: t)) = trimEnd (c :: t).
Proof.
  intros W. cbn [trimEnd]. destruct (trimEnd t); rewrite ?W;
    cbn [trimStart]; now rewrite W.
Qed.

Lemma trim_idem (s : jsstring) : trim (trim s) = trim s.
Proof.
  unfold trim. pose proof (trimStart_head s) as H.
  destruct (trimStart s) as [| c t]; [reflexivity |].
  rewrite (@trimStart_trimEnd_fixed c t H). apply trimEnd_idem.
Qed.

Lemma trimStart_In (x : codeunit) (s : jsstring) :
  In x (trimStart s) -> In x s.
Proof.
  induction s as [| c t IH]; [trivial |].
  cbn [trimStart]. destruct (isWhiteSpace c); [right; auto | trivial].
Qed.

Lemma trimEnd_In (x : codeunit) (s : jsstring) : In x (trimEnd s) -> In x s.
Proof.
  induction s as [| c t IH]; [trivial |].
  cbn [trimEnd]. destruct (trimEnd t) as [| r0 r].
  - destruct (isWhiteSpace c); [contradiction |].
    intros [H | []]. now left.
  - intros [H | H]; [now left | right; auto].
Qed.

Lemma trim_In (x : codeunit) (s : jsstring) : In x (trim s) -> In x s.
Proof. intros H. now apply trimStart_In, trimEnd_In. Qed.

Lemma join_split (sep : codeunit) (s : jsstring) :
  join [sep] (split sep s) = s.
Proof.
  induction s as [| c t IH]; [reflexivity |].
  cbn [split]. destruct (c =? sep)%N eqn:E.
  - apply N.eqb_eq in E. subst c.
    pose proof (@split_nonempty sep t) as NE.
    destruct (split sep t) as [| seg segs]; [contradiction |].
    change (join [sep] ([] :: seg :: segs))
      with ([] ++ [sep] ++ join [sep] (seg :: segs)).
    now rewrite IH.
  - pose proof (@split_nonempty sep t) as NE.
    destruct (split sep t) as [| seg segs]; [contradiction |].
    destruct segs as [| seg' segs'].
    + cbn [join] in *. now rewrite IH.
    + change (join [sep] ((c :: seg) :: seg' :: segs'))
        with (c :: (seg ++ [sep] ++ join [sep] (seg' :: segs'))).
      change (join [sep] (seg :: seg' :: segs'))
        with (seg ++ [sep] ++ join [sep] (seg' :: segs')) in IH.
      now rewrite IH.
Qed.

Lemma split_no_separator (sep : codeunit) (s : jsstring) :
  Forall (fun seg => ~ In sep seg) (split sep s).
Proof.
  induction s as [| c t IH]; [repeat constructor; auto |].
  cbn [split]. destruct (c =? sep)%N eqn:E.
  - constructor; [auto | exact IH].
  - pose proof (@split_nonempty sep t) as NE.
    destruct (split sep t) as [| seg segs]; [contradiction |].
    inversion IH as [| ? ? Hseg Hsegs]; subst.
    constructor; [| exact Hsegs].
    intros [H | H]; [| now apply Hseg].
    subst c. now rewrite N.eqb_refl in E.
Qed.

Lemma count_occ_filter_truthy (l : list jsstring) (t : jsstring) :
  count_occ (list_eq_dec N.eq_dec) (filter truthy l) t
  = if truthy t then count_occ (list_eq_dec N.eq_dec) l t else 0.
Proof.
  induction l as [| x l IH]; [now destruct (truthy t) |].
  cbn [filter]. destruct (truthy x) eqn:Tx.
  - cbn [count_occ]. destruct (list_eq_dec N.eq_dec x t) as [-> | Hn].
    + rewrite IH, Tx. reflexivity.
    + rewrite IH. reflexivity.
  - rewrite IH. cbn [count_occ].
    destruct (list_eq_dec N.eq_dec x t) as [-> | Hn]; [| reflexivity].
    now rewrite Tx.
Qed.

(** ** Form validation *)

Lemma expense_errors_fieldwise (now : DateTime.Date)
  (st : ExpenseForm.ExpenseFormState) :
  let e := ExpenseForm.errors (ExpenseForm.validateExpense now st) in
  present (ExpenseForm.err_amount e) = amountRejected (ExpenseForm.amount st)
  /\ present (ExpenseForm.err_category e) = blank (ExpenseForm.category st)
  /\ present (ExpenseForm.err_payment_method e)
     = blank (ExpenseForm.payment_method st)
  /\ present (ExpenseForm.err_incurred_date e)
     = dateRejected now (ExpenseForm.incurred_date st).
Proof.
  unfold ExpenseForm.validateExpense, amountRejected, blank, dateRejected.
  cbn zeta.
  destruct (negb (truthy (ExpenseForm.incurred_date st))) eqn:D;
    [| destruct (DateTime.isFutureDate now
                   (Some (ExpenseForm.incurred_date st)))];
    cbn [ExpenseForm.errors ExpenseForm.err_amount ExpenseForm.err_category
         ExpenseForm.err_payment_method ExpenseForm.err_incurred_date];
    repeat split;
    try (destruct (negb (truthy (trim (ExpenseForm.amount st))));
         destruct (JSNumber.isNaN (JSNumber.Number (ExpenseForm.amount st)));
         destruct (JSNumber.leZero (JSNumber.Number (ExpenseForm.amount st)));
         reflexivity);
    try (destruct (negb (truthy (trim (ExpenseForm.category st)))); reflexivity);
    try (destruct (negb (truthy (trim (ExpenseForm.payment_method st)))); reflexivity).
Qed.

Lemma income_errors_fieldwise (now : DateTime.Date)
  (st : IncomeForm.IncomeFormState) :
  let e := IncomeForm.errors (IncomeForm.validateIncome now st) in
  present (IncomeForm.err_amount e) = amountRejected (IncomeForm.amount st)
  /\ present (IncomeForm.err_source e) = blank (IncomeForm.source st)
  /\ present (IncomeForm.err_received_method e)
     = blank (IncomeForm.received_method st)
  /\ present (IncomeForm.err_received_date e)
     = dateRejected now (IncomeForm.received_date st).
Proof.
  unfold IncomeForm.validateIncome, amountRejected, blank, dateRejected.
  cbn zeta.
  destruct (negb (truthy (IncomeForm.received_date st))) eqn:D;
    [| destruct (DateTime.isFutureDate now
                   (Some (IncomeForm.received_date st)))];
    cbn [IncomeForm.errors IncomeForm.err_amount IncomeForm.err_source
         IncomeForm.err_received_method IncomeForm.err_received_date];
    repeat split;
    try (destruct (negb (truthy (trim (IncomeForm.amount st))));
         destruct (JSNumber.isNaN (JSNumber.Number (IncomeForm.amount st)));
         destruct (JSNumber.leZero (JSNumber.Number (IncomeForm.amount st)));
         reflexivity);
    try (destruct (negb (truthy (trim (IncomeForm.source st)))); reflexivity);
    try (destruct (negb (truthy (trim (IncomeForm.received_method st)))); reflexivity).
Qed.

Lemma accepted_amount_positive (a : jsstring) :
  amountRejected a = false -> JSNumber.positive (JSNumber.Number a).
Proof.
  unfold amountRejected. intros H.
  apply orb_false_iff in H. destruct H as [H Hle].
  apply orb_false_iff in H. destruct H as [_ Hnan].
  destruct (JSNumber.Number a) as [| neg | neg m e]; cbn in *.
  - discriminate.
  - exact Hle.
  - apply orb_false_iff in Hle. destruct Hle as [Hle _].
    apply orb_false_iff in Hle. destruct Hle as [Hneg Hm].
    split; [exact Hneg |]. apply N.eqb_neq in Hm. lia.
Qed.

Lemma expense_rejected_not_submitted
  (now : DateTime.Date) (parse : jsstring -> DateTime.DateObject)
  (formatISO : DateTime.Date -> jsstring) (toUpperCase : jsstring -> jsstring)
  (st : ExpenseForm.ExpenseFormState) :
  present (ExpenseForm.err_amount
             (ExpenseForm.errors (ExpenseForm.validateExpense now st))) = true ->
  ExpenseForm.handleSubmit now parse formatISO toUpperCase st = Return None.
Proof.
  intros H. unfold ExpenseForm.handleSubmit, ExpenseForm.isFormValid.
  destruct (ExpenseForm.err_amount
              (ExpenseForm.errors (ExpenseForm.validateExpense now st)));
    [reflexivity | discriminate].
Qed.

Lemma income_rejected_not_submitted
  (now : DateTime.Date) (parse : jsstring -> DateTime.DateObject)
  (formatISO : DateTime.Date -> jsstring) (toUpperCase : jsstring -> jsstring)
  (st : IncomeForm.IncomeFormState) :
  present (IncomeForm.err_amount
             (IncomeForm.errors (IncomeForm.validateIncome now st))) = true ->
  IncomeForm.handleSubmit now parse formatISO toUpperCase st = Return None.
Proof.
  intros H. unfold IncomeForm.handleSubmit, IncomeForm.isFormValid.
  destruct (IncomeForm.err_amount
              (IncomeForm.errors (IncomeForm.validateIncome now st)));
    [reflexivity | discriminate].
Qed.

(** *** [Number] on a sanitized amount *)

Lemma allowed_not_whitespace (c : codeunit) :
  allowedChar c = true -> isWhiteSpace c = false.
Proof.
  intros A. destruct (isWhiteSpace c) eqn:W; [| reflexivity].
  rewrite (whitespace_not_allowed _ W) in A. discriminate.
Qed.

Lemma trimEnd_allowed (s : jsstring) :
  Forall (fun c => allowedChar c = true) s -> trimEnd s = s.
Proof.
  induction 1 as [| c t Hc _ IH]; [reflexivity |].
  rewrite trimEnd_cons, IH, (allowed_not_whitespace _ Hc).
  now destruct t.
Qed.

Lemma trim_allowed (s : jsstring) :
  Forall (fun c => allowedChar c = true) s -> trim s = s.
Proof.
  intros H. unfold trim.
  assert (trimStart s = s) as ->.
  { destruct H as [| c t Hc _]; [reflexivity |].
    cbn [trimStart]. now rewrite (allowed_not_whitespace _ Hc). }
  now apply trimEnd_allowed.
Qed.

Lemma span_digits (w r : jsstring) :
  Forall (fun c => isDigit c = true) w ->
  match r with [] => True | c :: _ => isDigit c = false end ->
  JSNumber.span isDigit (w ++ r) = (w, r).
Proof.
  intros Hw Hr. induction Hw as [| c t Hc _ IH].
  - destruct r as [| c r']; [reflexivity |]. cbn [app JSNumber.span].
    now rewrite Hr.
  - cbn [app JSNumber.span]. now rewrite Hc, IH.
Qed.

Lemma forallb_digits (s : jsstring) :
  Forall (fun c => isDigit c = true) s -> forallb isDigit s = true.
Proof. intros H. apply forallb_forall. now apply Forall_forall. Qed.

Lemma dot_not_digit : isDigit chr_dot = false.
Proof. reflexivity. Qed.

Lemma parseUnsignedDecimal_whole (w : jsstring) :
  w <> [] -> Forall (fun c => isDigit c = true) w ->
  JSNumber.parseUnsignedDecimal w = Some (JSNumber.digitsValue 10 w, 0%Z).
Proof.
  intros Hne Hw. unfold JSNumber.parseUnsignedDecimal.
  rewrite <- (app_nil_r w) at 1. rewrite (span_digits [] Hw I).
  apply truthy_true_cons in Hne. rewrite Hne. cbn [JSNumber.parseExponent].
  now rewrite app_nil_r.
Qed.

Lemma parseUnsignedDecimal_fraction (w d : jsstring) :
  Forall (fun c => isDigit c = true) w ->
  Forall (fun c => isDigit c = true) d -> d <> [] ->
  JSNumber.parseUnsignedDecimal (w ++ chr_dot :: d)
  = Some (JSNumber.digitsValue 10 (w ++ d), (- Z.of_nat (List.length d))%Z).
Proof.
  intros Hw Hd Hne. unfold JSNumber.parseUnsignedDecimal.
  rewrite (span_digits (chr_dot :: d) Hw dot_not_digit).
  rewrite N.eqb_refl.
  rewrite <- (app_nil_r d) at 1. rewrite (span_digits [] Hd I).
  apply truthy_true_cons in Hne. rewrite Hne, orb_true_r.
  cbn [JSNumber.parseExponent]. reflexivity.
Qed.

Lemma Number_numeral (c : codeunit) (t : jsstring) :
  isDigit c = true -> Forall (fun x => allowedChar x = true) t ->
  JSNumber.Number (c :: t)
  = match JSNumber.parseUnsignedDecimal (c :: t) with
    | Some (m, e) => JSNumber.Finite false m e
    | None => JSNumber.NaN
    end.
Proof.
  intros Hc Ht. unfold JSNumber.Number.
  rewrite trim_allowed
    by (constructor; [unfold allowedChar; now rewrite Hc | exact Ht]).
  assert (Hrange : (48 <= c <= 57)%N).
  { unfold isDigit in Hc. apply andb_prop in Hc. destruct Hc as [A B].
    apply N.leb_le in A, B. unfold codeunit in *. lia. }
  assert ((c =? chr_plus)%N = false) as -> by (apply N.eqb_neq; unfold chr_plus; lia).
  assert ((c =? chr_minus)%N = false) as -> by (apply N.eqb_neq; unfold chr_minus; lia).
  assert (JSNumber.parseUnsigned false (c :: t)
          = match JSNumber.parseUnsignedDecimal (c :: t) with
            | Some (m, e) => JSNumber.Finite false m e
            | None => JSNumber.NaN
            end) as Hp.
  { unfold JSNumber.parseUnsigned, jsstring_eqb.
    destruct (list_eq_dec N.eq_dec (c :: t) (js "Infinity")) as [E | _];
      [| reflexivity].
    exfalso. injection E as E _. unfold codeunit in *. lia. }
  destruct t as [| p ds]; [exact Hp |].
  inversion Ht as [| ? ? Hp' _]; subst.
  assert (Hprange : (46 <= p <= 57)%N).
  { unfold allowedChar, isDigit, chr_dot in Hp'.
    apply orb_prop in Hp'. destruct Hp' as [A | A].
    - apply andb_prop in A. destruct A as [A B].
      apply N.leb_le in A, B. unfold codeunit in *. lia.
    - apply N.eqb_eq in A. unfold codeunit in *. lia. }
  assert ((p =? 120)%N = false) as -> by (apply N.eqb_neq; lia).
  assert ((p =? 88)%N = false) as -> by (apply N.eqb_neq; lia).
  assert ((p =? 111)%N = false) as -> by (apply N.eqb_neq; lia).
  assert ((p =? 79)%N = false) as -> by (apply N.eqb_neq; lia).
  assert ((p =? 98)%N = false) as -> by (apply N.eqb_neq; lia).
  assert ((p =? 66)%N = false) as -> by (apply N.eqb_neq; lia).
  cbn [orb]. rewrite !andb_false_r. exact Hp.
Qed.

Lemma digitValue_digit (c : codeunit) :
  isDigit c = true -> JSNumber.digitValue c = (c - 48)%N.
Proof. intros H. unfold JSNumber.digitValue. now rewrite H. Qed.

Lemma digit_range (c : codeunit) : isDigit c = true -> (48 <= c <= 57)%N.
Proof.
  unfold isDigit. intros H. apply andb_prop in H. destruct H as [A B].
  apply N.leb_le in A, B. unfold codeunit in *. lia.
Qed.

Lemma fold_digits_zero (ds : jsstring) (acc : N) :
  Forall (fun c => isDigit c = true) ds ->
  (fold_left (fun a c => a * 10 + JSNumber.digitValue c)%N ds acc =? 0)%N
  = (acc =? 0)%N && forallb (fun c => (c =? chr_zero)%N) ds.
Proof.
  intros H. revert acc. induction H as [| c t Hc _ IH]; intros acc.
  - cbn [fold_left forallb]. now rewrite andb_true_r.
  - cbn [fold_left forallb]. rewrite IH, (digitValue_digit _ Hc).
    pose proof (digit_range _ Hc) as R. unfold chr_zero.
    rewrite andb_assoc. f_equal.
    destruct (N.eqb_spec acc 0), (N.eqb_spec c 48); cbn [andb];
      apply N.eqb_eq || apply N.eqb_neq; unfold codeunit in *; lia.
Qed.

Lemma digitsValue_zero (ds : jsstring) :
  Forall (fun c => isDigit c = true) ds ->
  (JSNumber.digitsValue 10 ds =? 0)%N
  = forallb (fun c => (c =? chr_zero)%N) ds.
Proof.
  intros H. unfold JSNumber.digitsValue. now rewrite (fold_digits_zero 0 H).
Qed.

Lemma nonzero_digits (ds : jsstring) :
  Forall (fun c => isDigit c = true) ds ->
  existsb nonzeroDigit ds = negb (forallb (fun c => (c =? chr_zero)%N) ds).
Proof.
  induction 1 as [| c t Hc _ IH]; [reflexivity |].
  cbn [existsb forallb]. rewrite IH, negb_andb. f_equal.
  pose proof (digit_range _ Hc) as R. unfold nonzeroDigit, chr_zero.
  destruct (N.eqb_spec c 48) as [-> | Hn]; [reflexivity |].
  cbn [negb]. apply andb_true_iff. split; apply N.leb_le;
    unfold codeunit in *; lia.
Qed.

Lemma no_underflow (m : N) (d : jsstring) :
  (m =? 0)%N = false -> List.length d <= 2 ->
  JSNumber.roundsToZero m (- Z.of_nat (List.length d)) = false.
Proof.
  intros Hm Hd. apply N.eqb_neq in Hm. unfold JSNumber.roundsToZero.
  apply andb_false_iff. right. apply Z.leb_gt.
  rewrite Z.opp_involutive.
  assert (100 < 2 ^ 1075)%Z as Hbig by (vm_compute; reflexivity).
  set (big := (2 ^ 1075)%Z) in *.
  assert (10 ^ Z.of_nat (List.length d) <= 100)%Z as Hpow.
  { destruct d as [| d1 [| d2 [| d3 d']]]; cbn [List.length] in *;
      [vm_compute; discriminate | vm_compute; discriminate
      | vm_compute; discriminate | lia]. }
  assert (1 <= Z.of_N m)%Z by lia. nia.
Qed.

Lemma whole_amount_rejected (w : jsstring) :
  Forall (fun c => isDigit c = true) w ->
  amountRejected w = negb (existsb nonzeroDigit w).
Proof.
  intros Hw. unfold amountRejected, blank.
  destruct w as [| c t]; [reflexivity |].
  pose proof (Forall_inv Hw) as Hc. pose proof (Forall_inv_tail Hw) as Ht.
  cbv beta in Hc.
  rewrite (trim_allowed (digit_allowed Hw)).
  rewrite (Number_numeral _ Hc (digit_allowed Ht)).
  rewrite (@parseUnsignedDecimal_whole (c :: t)) by (discriminate || exact Hw).
  cbn [truthy negb orb JSNumber.isNaN JSNumber.leZero].
  rewrite (nonzero_digits Hw), negb_involutive, <- (digitsValue_zero Hw).
  unfold JSNumber.roundsToZero. cbn [Z.ltb Z.compare andb].
  now rewrite orb_false_r.
Qed.

Lemma existsb_skip_dot (w d : jsstring) :
  existsb nonzeroDigit (w ++ chr_dot :: d) = existsb nonzeroDigit (w ++ d).
Proof. rewrite !existsb_app. reflexivity. Qed.

Lemma fraction_amount_rejected (w d : jsstring) :
  Forall (fun c => isDigit c = true) w -> w <> [] ->
  Forall (fun c => isDigit c = true) d -> d <> [] -> List.length d <= 2 ->
  amountRejected (w ++ chr_dot :: d)
  = negb (existsb nonzeroDigit (w ++ chr_dot :: d)).
Proof.
  intros Hw Hne Hd Hdne Hlen. unfold amountRejected, blank.
  destruct w as [| c t]; [contradiction |].
  pose proof (Forall_inv Hw) as Hc. pose proof (Forall_inv_tail Hw) as Ht.
  cbv beta in Hc.
  assert (Hall : Forall (fun x => allowedChar x = true) (t ++ chr_dot :: d)).
  { apply Forall_app. split; [now apply digit_allowed |].
    constructor; [reflexivity | now apply digit_allowed]. }
  assert (Hall' : Forall (fun x => allowedChar x = true)
                    ((c :: t) ++ chr_dot :: d)).
  { constructor; [unfold allowedChar; now rewrite Hc | exact Hall]. }
  assert (Hwd : Forall (fun x => isDigit x = true) ((c :: t) ++ d))
    by (apply Forall_app; now split).
  rewrite existsb_skip_dot, (nonzero_digits Hwd), negb_involutive.
  rewrite <- (digitsValue_zero Hwd).
  rewrite (trim_allowed Hall').
  change ((c :: t) ++ chr_dot :: d) with (c :: (t ++ chr_dot :: d)) at 2 3.
  rewrite (Number_numeral _ Hc Hall).
  change (c :: (t ++ chr_dot :: d)) with ((c :: t) ++ chr_dot :: d).
  rewrite (parseUnsignedDecimal_fraction Hw Hd Hdne).
  cbn [app truthy negb orb JSNumber.isNaN JSNumber.leZero].
  change (c :: t ++ d) with ((c :: t) ++ d).
  destruct (JSNumber.digitsValue 10 ((c :: t) ++ d) =? 0)%N eqn:Em;
    [reflexivity |].
  cbn [orb]. now apply no_underflow.
Qed.

(** On what the amount field can hold, the sanitized text of any input,
    validation rejects exactly the texts without a digit from 1 to 9. *)
Lemma sanitized_amount_rejected (raw : jsstring) :
  amountRejected (sanitizeAmountInput raw)
  = negb (existsb nonzeroDigit (sanitizeAmountInput raw)).
Proof.
  rewrite sanitizeAmountInput_eq. cbn zeta.
  pose proof (sanitized_whole_digits raw) as Hw.
  pose proof (sanitized_decimals_digits raw) as Hd.
  pose proof (sanitized_safeWhole_digits raw) as Hw'.
  assert (Hlen : List.length (firstn 2 (digits (fractionPart raw))) <= 2)
    by apply firstn_le_length.
  destruct (truthy (firstn 2 (digits (fractionPart raw)))) eqn:Td.
  - apply truthy_true_cons in Td.
    apply fraction_amount_rejected; auto.
    destruct (stripLeadingZeros (digits (wholePart raw)));
      cbn [truthy]; discriminate.
  - now apply whole_amount_rejected.
Qed.

(** C2. An amount that is empty, is not a number, or is not above zero
    gets an amount error from both validators and the submit handler then
    returns without calling [onSubmit]; an amount that gets no error has a
    strictly positive value. In particular [0] and [-5.00] are rejected.
    On the sanitized text that the amount field holds, the rejected
    amounts are exactly those without a digit from 1 to 9. *)
Theorem nonpositive_amount_rejected
  (now : DateTime.Date) (parse : jsstring -> DateTime.DateObject)
  (formatISO : DateTime.Date -> jsstring) (toUpperCase : jsstring -> jsstring)
  (es : ExpenseForm.ExpenseFormState) (ic : IncomeForm.IncomeFormState) :
  let ee := ExpenseForm.errors (ExpenseForm.validateExpense now es) in
  let ie := IncomeForm.errors (IncomeForm.validateIncome now ic) in
  (amountRejected (ExpenseForm.amount es) = true ->
     present (ExpenseForm.err_amount ee) = true
     /\ ExpenseForm.handleSubmit now parse formatISO toUpperCase es
        = Return None)
  /\ (amountRejected (IncomeForm.amount ic) = true ->
     present (IncomeForm.err_amount ie) = true
     /\ IncomeForm.handleSubmit now parse formatISO toUpperCase ic
        = Return None)
  /\ (present (ExpenseForm.err_amount ee) = false ->
     JSNumber.positive (JSNumber.Number (ExpenseForm.amount es)))
  /\ (present (IncomeForm.err_amount ie) = false ->
     JSNumber.positive (JSNumber.Number (IncomeForm.amount ic)))
  /\ amountRejected (js "0") = true
  /\ amountRejected (js "-5.00") = true
  /\ (forall raw : jsstring,
        amountRejected (sanitizeAmountInput raw)
        = negb (existsb nonzeroDigit (sanitizeAmountInput raw))).
Proof.
  cbn zeta.
  destruct (expense_errors_fieldwise now es) as [Ea _].
  destruct (income_errors_fieldwise now ic) as [Ia _].
  cbn zeta in Ea, Ia.
  split.
  { intros H. split; [now rewrite Ea |].
    apply expense_rejected_not_submitted. now rewrite Ea. }
  split.
  { intros H. split; [now rewrite Ia |].
    apply income_rejected_not_submitted. now rewrite Ia. }
  split; [intros H; rewrite Ea in H; now apply accepted_amount_positive |].
  split; [intros H; rewrite Ia in H; now apply accepted_amount_positive |].
  split; [reflexivity |]. split; [reflexivity |].
  exact sanitized_amount_rejected.
Qed.

Lemma nonpositive_amount_rejected_witness :
  amountRejected (ExpenseForm.amount Fixtures.refundDraft) = true
  /\ present (ExpenseForm.err_amount
       (ExpenseForm.errors
          (ExpenseForm.validateExpense Fixtures.clock Fixtures.refundDraft)))
     = true
  /\ ExpenseForm.handleSubmit Fixtures.clock Fixtures.parseLocal
       Fixtures.printISO Fixtures.upperASCII Fixtures.refundDraft
     = Return None.
Proof.
  split; [vm_compute; reflexivity |].
  apply (proj1 (nonpositive_amount_rejected Fixtures.clock Fixtures.parseLocal
                  Fixtures.printISO Fixtures.upperASCII
                  Fixtures.refundDraft Fixtures.zeroDraft)).
  vm_compute. reflexivity.
Defined.

(** C7. Each of the four checked fields gets its error exactly when its
    own rule is violated, whatever the other fields hold, so the number of
    errors reported is the number of violated fields. *)
Theorem validation_collects_all_violations (now : DateTime.Date)
  (es : ExpenseForm.ExpenseFormState) (ic : IncomeForm.IncomeFormState) :
  let ee := ExpenseForm.errors (ExpenseForm.validateExpense now es) in
  let ie := IncomeForm.errors (IncomeForm.validateIncome now ic) in
  (present (ExpenseForm.err_amount ee) = amountRejected (ExpenseForm.amount es)
   /\ present (ExpenseForm.err_category ee) = blank (ExpenseForm.category es)
   /\ present (ExpenseForm.err_payment_method ee)
      = blank (ExpenseForm.payment_method es)
   /\ present (ExpenseForm.err_incurred_date ee)
      = dateRejected now (ExpenseForm.incurred_date es))
  /\ expenseErrorCount ee
     = indicator (amountRejected (ExpenseForm.amount es))
       + indicator (blank (ExpenseForm.category es))
       + indicator (blank (ExpenseForm.payment_method es))
       + indicator (dateRejected now (ExpenseForm.incurred_date es))
  /\ (present (IncomeForm.err_amount ie) = amountRejected (IncomeForm.amount ic)
   /\ present (IncomeForm.err_source ie) = blank (IncomeForm.source ic)
   /\ present (IncomeForm.err_received_method ie)
      = blank (IncomeForm.received_method ic)
   /\ present (IncomeForm.err_received_date ie)
      = dateRejected now (IncomeForm.received_date ic))
  /\ incomeErrorCount ie
     = indicator (amountRejected (IncomeForm.amount ic))
       + indicator (blank (IncomeForm.source ic))
       + indicator (blank (IncomeForm.received_method ic))
       + indicator (dateRejected now (IncomeForm.received_date ic)).
Proof.
  cbn zeta.
  pose proof (expense_errors_fieldwise now es) as E.
  pose proof (income_errors_fieldwise now ic) as I.
  cbn zeta in E, I. unfold expenseErrorCount, incomeErrorCount.
  destruct E as [E1 [E2 [E3 E4]]]. destruct I as [I1 [I2 [I3 I4]]].
  rewrite E1, E2, E3, E4, I1, I2, I3, I4. repeat split.
Qed.

Example three_violations_three_errors :
  let e := ExpenseForm.errors
             (ExpenseForm.validateExpense Fixtures.clock
                (Fixtures.expenseDraft (js "0") [] [] [])) in
  e = {| ExpenseForm.err_amount := Some (js "Enter a positive amount.");
         ExpenseForm.err_category := Some (js "Select or create a category.");
         ExpenseForm.err_payment_method := None;
         ExpenseForm.err_incurred_date := Some (js "Date is required.") |}.
Proof. vm_compute. reflexivity. Qed.

(** ** Tags *)

Lemma submittedTags_same (tags : jsstring) :
  IncomeForm.submittedTags tags = ExpenseForm.submittedTags tags.
Proof. reflexivity. Qed.

(** C6, as amended. The tags sent on submit are the comma-separated
    entries of the field, each trimmed, the empty ones dropped, in the
    order of the field; an entry that occurs several times is sent as many
    times (the forms do not de-duplicate). An empty field sends no [tags]
    member at all. *)
Theorem submittedTags_trimmed_nonempty_in_order
  (tags : jsstring) (l : list jsstring)
  (H : ExpenseForm.submittedTags tags = Some l) :
  let entries := split chr_comma tags in
  IncomeForm.submittedTags tags = Some l
  /\ tags <> []
  /\ join [chr_comma] entries = tags
  /\ Forall (fun e => ~ In chr_comma e) entries
  /\ l = filter truthy (List.map trim entries)
  /\ Forall (fun t => t <> [] /\ trim t = t /\ ~ In chr_comma t) l
  /\ (forall t,
        count_occ (list_eq_dec N.eq_dec) l t
        = if truthy t
          then count_occ (list_eq_dec N.eq_dec) (List.map trim entries) t
          else 0).
Proof.
  cbn zeta. rewrite submittedTags_same.
  unfold ExpenseForm.submittedTags in H.
  destruct (truthy tags) eqn:T; [| discriminate].
  injection H as <-.
  split; [unfold ExpenseForm.submittedTags; now rewrite T |].
  split; [now apply truthy_true_cons |].
  split; [apply join_split |].
  split; [apply split_no_separator |].
  split; [reflexivity |].
  split; [| intros t; apply count_occ_filter_truthy].
  apply Forall_forall. intros t Ht.
  apply filter_In in Ht. destruct Ht as [Ht Tt].
  apply in_map_iff in Ht. destruct Ht as [e [<- He]].
  split; [now apply truthy_true_cons |].
  split; [apply trim_idem |].
  intros Hc. apply trim_In in Hc.
  pose proof (split_no_separator chr_comma tags) as NS.
  rewrite Forall_forall in NS. exact (NS e He Hc).
Qed.

Lemma submittedTags_trimmed_nonempty_in_order_witness :
  ExpenseForm.submittedTags (js " rent, home ,, rent ")
  = Some [js "rent"; js "home"; js "rent"]
  /\ IncomeForm.submittedTags (js " rent, home ,, rent ")
     = Some [js "rent"; js "home"; js "rent"].
Proof.
  split; [reflexivity |].
  apply (@submittedTags_trimmed_nonempty_in_order
           (js " rent, home ,, rent ") [js "rent"; js "home"; js "rent"]).
  reflexivity.
Defined.

(** C6, as stated, fails: a tag entered twice is submitted twice. *)
Lemma submittedTags_keeps_duplicates :
  ExpenseForm.submittedTags (js "food, food") = Some [js "food"; js "food"]
  /\ IncomeForm.submittedTags (js "food, food") = Some [js "food"; js "food"]
  /\ ~ (forall tags l, ExpenseForm.submittedTags tags = Some l -> NoDup l)
  /\ ~ (forall tags l, IncomeForm.submittedTags tags = Some l -> NoDup l).
Proof.
  split; [reflexivity |]. split; [reflexivity |].
  split; intros H;
    specialize (H (js "food, food") [js "food"; js "food"] eq_refl);
    inversion H as [| x l Hin _]; subst; apply Hin; left; reflexivity.
Qed.

Example submittedTags_empty : ExpenseForm.submittedTags [] = None.
Proof. reflexivity. Qed.

Example submittedTags_only_commas : ExpenseForm.submittedTags (js " , ") = Some [].
Proof. reflexivity. Qed.

(** ** Sorting *)

Section InsertionSort.

Variable A : Type.
Variable cmp : A -> A -> Z.
Hypothesis cmp_total : forall x y, (cmp x y <= 0 \/ cmp y x <= 0)%Z.
Hypothesis cmp_trans :
  forall x y z, (cmp x y <= 0 -> cmp y z <= 0 -> cmp x z <= 0)%Z.

Let le (x y : A) : Prop := (cmp x y <= 0)%Z.

Lemma insert_perm (x : A) (l : list A) :
  Permutation (x :: l) (JSArray.insert cmp x l).
Proof.
  induction l as [| y t IH]; cbn [JSArray.insert]; [reflexivity |].
  destruct (cmp x y <=? 0)%Z; [reflexivity |].
  rewrite perm_swap. now constructor.
Qed.

Lemma sort_perm (l : list A) : Permutation l (JSArray.sort cmp l).
Proof.
  induction l as [| x t IH]; cbn [JSArray.sort]; [constructor |].
  rewrite <- insert_perm. now constructor.
Qed.

Lemma insert_sorted (x : A) (l : list A) :
  StronglySorted le l -> StronglySorted le (JSArray.insert cmp x l).
Proof.
  induction 1 as [| y t Ht IH Hy]; cbn [JSArray.insert].
  - repeat constructor.
  - destruct (cmp x y <=? 0)%Z eqn:E.
    + apply Z.leb_le in E. constructor; [now constructor |].
      constructor; [exact E |].
      eapply Forall_impl; [| exact Hy]. intros z Hz.
      exact (cmp_trans E Hz).
    + apply Z.leb_gt in E. constructor; [exact IH |].
      assert (Hyx : le y x).
      { destruct (cmp_total x y) as [C | C]; [unfold le in *; lia | exact C]. }
      eapply Permutation_Forall; [apply insert_perm |].
      now constructor.
Qed.

Lemma sort_sorted (l : list A) : StronglySorted le (JSArray.sort cmp l).
Proof.
  induction l as [| x t IH]; cbn [JSArray.sort]; [constructor |].
  now apply insert_sorted.
Qed.

(** Stability, for a class [p] of elements that compare equal to each
    other: the members of the class keep their relative order. *)
Variable p : A -> bool.
Hypothesis p_class : forall x y, p x = true -> p y = true -> (cmp x y <= 0)%Z.

Lemma insert_filter (x : A) (l : list A) :
  filter p (JSArray.insert cmp x l) = filter p (x :: l).
Proof.
  induction l as [| y t IH]; cbn [JSArray.insert]; [reflexivity |].
  destruct (cmp x y <=? 0)%Z eqn:E; [reflexivity |].
  apply Z.leb_gt in E.
  change (filter p (y :: JSArray.insert cmp x t))
    with (if p y then y :: filter p (JSArray.insert cmp x t)
          else filter p (JSArray.insert cmp x t)).
  rewrite IH. cbn [filter].
  destruct (p x) eqn:Px; [| reflexivity].
  destruct (p y) eqn:Py; [| reflexivity].
  pose proof (p_class Px Py). lia.
Qed.

Lemma sort_filter (l : list A) :
  filter p (JSArray.sort cmp l) = filter p l.
Proof.
  induction l as [| x t IH]; cbn [JSArray.sort]; [reflexivity |].
  rewrite insert_filter. cbn [filter]. now rewrite IH.
Qed.

End InsertionSort.

(** *** The order of strings *)

Lemma compare_refl (a : jsstring) : JS.compare a a = Eq.
Proof.
  induction a as [| x a IH]; [reflexivity |].
  cbn [JS.compare]. now rewrite N.compare_refl.
Qed.

Lemma compare_eq (a b : jsstring) : JS.compare a b = Eq -> a = b.
Proof.
  revert b. induction a as [| x a IH]; intros [| y b]; cbn [JS.compare];
    try discriminate; [reflexivity |].
  destruct (x ?= y)%N eqn:E; try discriminate.
  apply N.compare_eq in E. intros H. f_equal; auto.
Qed.

Lemma compare_antisym (a b : jsstring) :
  JS.compare b a = CompOpp (JS.compare a b).
Proof.
  revert b. induction a as [| x a IH]; intros [| y b]; cbn [JS.compare];
    try reflexivity.
  rewrite (N.compare_antisym x y).
  destruct (x ?= y)%N; cbn [CompOpp]; auto.
Qed.

Lemma compare_lt_trans (a b c : jsstring) :
  JS.compare a b = Lt -> JS.compare b c = Lt -> JS.compare a c = Lt.
Proof.
  revert b c. induction a as [| x a IH]; intros [| y b] [| z c];
    cbn [JS.compare]; try discriminate; try reflexivity.
  destruct (x ?= y)%N eqn:Exy; try discriminate;
    destruct (y ?= z)%N eqn:Eyz; try discriminate.
  - apply N.compare_eq in Exy, Eyz. subst. rewrite N.compare_refl. apply IH.
  - apply N.compare_eq in Exy. subst. now rewrite Eyz.
  - apply N.compare_eq in Eyz. subst. now rewrite Exy.
  - rewrite N.compare_lt_iff in Exy, Eyz.
    assert (x < z)%N as H by lia. apply N.compare_lt_iff in H. now rewrite H.
Qed.

(** *** The comparator of [sortCategories] *)

Section Collation.

Variable sortKey : jsstring -> list N.

Let cmp (a b : Types.Category) : Z :=
  Intl.localeCompare sortKey (Types.name a) (Types.name b).

Lemma localeCompare_le (a b : jsstring) :
  (Intl.localeCompare sortKey a b <= 0)%Z
  <-> JS.compare (sortKey a) (sortKey b) <> Gt.
Proof.
  unfold Intl.localeCompare.
  destruct (JS.compare (sortKey a) (sortKey b)); split;
    intros H; try lia; try discriminate; congruence.
Qed.

Lemma localeCompare_zero (a b : jsstring) :
  Intl.localeCompare sortKey a b = 0%Z <-> sortKey a = sortKey b.
Proof.
  unfold Intl.localeCompare. split.
  - destruct (JS.compare (sortKey a) (sortKey b)) eqn:E; try discriminate.
    intros _. now apply compare_eq.
  - intros ->. now rewrite compare_refl.
Qed.

Lemma category_cmp_total (x y : Types.Category) :
  (cmp x y <= 0 \/ cmp y x <= 0)%Z.
Proof.
  unfold cmp. rewrite !localeCompare_le.
  rewrite (compare_antisym (sortKey (Types.name x)) (sortKey (Types.name y))).
  destruct (JS.compare (sortKey (Types.name x)) (sortKey (Types.name y)));
    cbn [CompOpp]; [left | left | right]; discriminate.
Qed.

Lemma category_cmp_trans (x y z : Types.Category) :
  (cmp x y <= 0 -> cmp y z <= 0 -> cmp x z <= 0)%Z.
Proof.
  unfold cmp. rewrite !localeCompare_le.
  destruct (JS.compare (sortKey (Types.name x)) (sortKey (Types.name y)))
    eqn:Exy; [| | congruence];
  destruct (JS.compare (sortKey (Types.name y)) (sortKey (Types.name z)))
    eqn:Eyz; try congruence; intros _ _.
  - apply compare_eq in Exy, Eyz. rewrite Exy, Eyz, compare_refl. discriminate.
  - apply compare_eq in Exy. rewrite Exy, Eyz. discriminate.
  - apply compare_eq in Eyz. rewrite <- Eyz, Exy. discriminate.
  - rewrite (compare_lt_trans _ _ _ Exy Eyz). discriminate.
Qed.

Lemma category_class (n : jsstring) (x y : Types.Category) :
  sameBaseName sortKey n x = true -> sameBaseName sortKey n y = true ->
  (cmp x y <= 0)%Z.
Proof.
  unfold sameBaseName, cmp. intros Hx Hy.
  apply Z.eqb_eq in Hx, Hy. apply localeCompare_zero in Hx, Hy.
  assert (Intl.localeCompare sortKey (Types.name x) (Types.name y) = 0%Z) as H.
  { apply localeCompare_zero. congruence. }
  lia.
Qed.

End Collation.

(** C8, as amended. The sorted categories are the given ones, ordered by
    name under the base-sensitivity collation (case is ignored); categories
    whose names are equal under that collation keep the relative order
    they had in the input. The identifier is not looked at. *)
Theorem sortCategories_ordered_and_stable
  (sortKey : jsstring -> list N) (items : list Types.Category) :
  let sorted := useCategories.sortCategories sortKey items in
  Permutation items sorted
  /\ StronglySorted (nameOrdered sortKey) sorted
  /\ (forall n : jsstring,
        filter (sameBaseName sortKey n) sorted
        = filter (sameBaseName sortKey n) items).
Proof.
  cbn zeta. unfold useCategories.sortCategories. split; [| split].
  - apply sort_perm.
  - apply sort_sorted.
    + apply category_cmp_total.
    + apply category_cmp_trans.
  - intros n. apply sort_filter. apply category_class.
Qed.

(** C8, as stated, fails: two categories named [food] and [Food] stay in
    the order they came in, here with identifier [2] before [1]. *)
Lemma sortCategories_ties_not_by_identifier :
  useCategories.sortCategories Intl.asciiBaseKey Fixtures.tiedCategories
  = Fixtures.tiedCategories
  /\ ~ tiesByIdentifier Intl.asciiBaseKey
        (useCategories.sortCategories Intl.asciiBaseKey
           Fixtures.tiedCategories).
Proof.
  split; [reflexivity |].
  intros H.
  apply (H 0 1 {| Types.id := js "2"; Types.name := js "food" |}
               {| Types.id := js "1"; Types.name := js "Food" |});
    [lia | reflexivity | reflexivity | reflexivity | reflexivity].
Qed.

Example sortCategories_ignores_case :
  List.map Types.name
    (useCategories.sortCategories Intl.asciiBaseKey
       [ {| Types.id := js "1"; Types.name := js "travel" |};
         {| Types.id := js "2"; Types.name := js "Food" |};
         {| Types.id := js "3"; Types.name := js "bills" |} ])
  = [js "bills"; js "Food"; js "travel"].
Proof. reflexivity. Qed.

(** ** Dates *)

Lemma jsstring_eqb_eq (a b : jsstring) : jsstring_eqb a b = true -> a = b.
Proof.
  unfold jsstring_eqb. now destruct (list_eq_dec N.eq_dec a b).
Qed.

Lemma range_check (f : N -> bool) (lo len : N) :
  forallb f (List.map N.of_nat (seq (N.to_nat lo) (N.to_nat len))) = true ->
  forall n : N, (lo <= n < lo + len)%N -> f n = true.
Proof.
  intros H n Hn. rewrite forallb_forall in H. apply H.
  apply in_map_iff. exists (N.to_nat n). split; [apply N2Nat.id |].
  apply in_seq. lia.
Qed.

Lemma four_digits_checked :
  forallb fourDigitsOk
    (List.map N.of_nat (seq (N.to_nat 1000) (N.to_nat 9000))) = true.
Proof. vm_compute. reflexivity. Qed.

Lemma two_digits_checked :
  forallb twoDigitsOk
    (List.map N.of_nat (seq (N.to_nat 0) (N.to_nat 100))) = true.
Proof. vm_compute. reflexivity. Qed.

Lemma four_digits (y : N) :
  (1000 <= y <= 9999)%N ->
  exists a b c d : N,
    (a < 10 /\ b < 10 /\ c < 10 /\ d < 10
     /\ y = 1000 * a + 100 * b + 10 * c + d)%N
    /\ DateTime.toString y = [48 + a; 48 + b; 48 + c; 48 + d]%N.
Proof.
  intros Hy.
  assert (fourDigitsOk y = true) as H.
  { apply (@range_check fourDigitsOk 1000%N 9000%N four_digits_checked). lia. }
  unfold fourDigitsOk in H. cbn zeta in H.
  apply andb_prop in H. destruct H as [H Hs].
  repeat match goal with
         | H : (_ && _)%bool = true |- _ => apply andb_prop in H; destruct H
         end.
  exists (y / 1000)%N, ((y / 100) mod 10)%N, ((y / 10) mod 10)%N, (y mod 10)%N.
  repeat match goal with
         | H : (_ <? _)%N = true |- _ => apply N.ltb_lt in H
         | H : (_ =? _)%N = true |- _ => apply N.eqb_eq in H
         end.
  split; [repeat split; assumption | now apply jsstring_eqb_eq].
Qed.

Lemma two_digits (n : N) :
  (n <= 99)%N ->
  exists a b : N,
    (a < 10 /\ b < 10 /\ n = 10 * a + b)%N
    /\ DateTime.pad n = [48 + a; 48 + b]%N.
Proof.
  intros Hn.
  assert (twoDigitsOk n = true) as H.
  { apply (@range_check twoDigitsOk 0%N 100%N two_digits_checked). lia. }
  unfold twoDigitsOk in H. cbn zeta in H.
  apply andb_prop in H. destruct H as [H Hs].
  repeat match goal with
         | H : (_ && _)%bool = true |- _ => apply andb_prop in H; destruct H
         end.
  exists (n / 10)%N, (n mod 10)%N.
  repeat match goal with
         | H : (_ <? _)%N = true |- _ => apply N.ltb_lt in H
         | H : (_ =? _)%N = true |- _ => apply N.eqb_eq in H
         end.
  split; [repeat split; assumption | now apply jsstring_eqb_eq].
Qed.

Lemma getTodayIsoDate_eq (now : DateTime.Date) :
  DateTime.getTodayIsoDate now = DateTime.localDateString now.
Proof. reflexivity. Qed.

Ltac compare_digit :=
  match goal with
  | |- context [(?x ?= ?y)%N] =>
      destruct (N.compare_spec x y)
  end.

Lemma date_string_order (t now : DateTime.Date) :
  validLocal t -> validLocal now ->
  (JS.compare (DateTime.localDateString t) (DateTime.localDateString now) = Gt
   <-> dayAfter t now).
Proof.
  unfold validLocal, dayAfter, DateTime.localDateString.
  destruct t as [ty tm td th tmi ts], now as [ny nm nd nh nmi ns].
  cbn [DateTime.getFullYear DateTime.getMonth DateTime.getDate
       DateTime.getHours DateTime.getMinutes DateTime.getSeconds].
  intros Ht Hn.
  destruct (@four_digits ty) as (a3 & a2 & a1 & a0 & Ha & ->); [lia |].
  destruct (@four_digits ny) as (b3 & b2 & b1 & b0 & Hb & ->); [lia |].
  destruct (@two_digits (tm + 1)%N) as (c1 & c0 & Hc & ->); [lia |].
  destruct (@two_digits (nm + 1)%N) as (e1 & e0 & He & ->); [lia |].
  destruct (@two_digits td) as (f1 & f0 & Hf & ->); [lia |].
  destruct (@two_digits nd) as (g1 & g0 & Hg & ->); [lia |].
  change (js "-") with [45%N].
  cbn [app JS.compare]. rewrite !N.compare_refl.
  repeat compare_digit; (split; [intros C; try discriminate C; lia | intros C; try reflexivity; exfalso; lia]).
Qed.

Lemma localDateString_truthy (t : DateTime.Date) :
  validLocal t -> truthy (DateTime.localDateString t) = true.
Proof.
  unfold validLocal, DateTime.localDateString. intros Ht.
  destruct (@four_digits (DateTime.getFullYear t)) as (a & b & c & d & _ & ->);
    [lia | reflexivity].
Qed.

Lemma isFutureDate_localDateString (now t : DateTime.Date) :
  validLocal now -> validLocal t ->
  (DateTime.isFutureDate now (Some (DateTime.localDateString t)) = true
   <-> dayAfter t now).
Proof.
  intros Hn Ht. unfold DateTime.isFutureDate.
  rewrite (localDateString_truthy Ht). cbn [negb].
  change (DateTime.getTodayIsoDate now) with (DateTime.localDateString now).
  etransitivity; [| apply (date_string_order Ht Hn)].
  unfold gtb.
  destruct (JS.compare (DateTime.localDateString t)
              (DateTime.localDateString now));
    split; intros H; congruence.
Qed.

Lemma expense_hasFutureDateError (now : DateTime.Date)
  (st : ExpenseForm.ExpenseFormState) :
  ExpenseForm.hasFutureDateError (ExpenseForm.validateExpense now st)
  = DateTime.isFutureDate now (Some (ExpenseForm.incurred_date st)).
Proof.
  unfold ExpenseForm.validateExpense. cbn zeta.
  unfold DateTime.isFutureDate.
  destruct (negb (truthy (ExpenseForm.incurred_date st))); [reflexivity |].
  destruct (gtb (ExpenseForm.incurred_date st) (DateTime.getTodayIsoDate now));
    reflexivity.
Qed.

Lemma income_hasFutureDateError (now : DateTime.Date)
  (st : IncomeForm.IncomeFormState) :
  IncomeForm.hasFutureDateError (IncomeForm.validateIncome now st)
  = DateTime.isFutureDate now (Some (IncomeForm.received_date st)).
Proof.
  unfold IncomeForm.validateIncome. cbn zeta.
  unfold DateTime.isFutureDate.
  destruct (negb (truthy (IncomeForm.received_date st))); [reflexivity |].
  destruct (gtb (IncomeForm.received_date st) (DateTime.getTodayIsoDate now));
    reflexivity.
Qed.

(** C3, as amended. The future-date check compares calendar days, not
    instants: a date is reported as future exactly when its calendar day is
    after today's. Hence every date it reports is a future instant, and no
    instant at or before now is reported; an instant later on the current
    day is not reported. The validators raise their future-date flag by
    this check alone. *)
Theorem isFutureDate_by_calendar_day (now t : DateTime.Date)
  (Hn : validLocal now) (Ht : validLocal t) :
  let reported :=
    DateTime.isFutureDate now (Some (DateTime.localDateString t)) in
  (reported = true <-> dayAfter t now)
  /\ (reported = true -> instantAfter t now)
  /\ (~ instantAfter t now -> reported = false)
  /\ (sameDay t now -> reported = false)
  /\ (forall es : ExpenseForm.ExpenseFormState,
        ExpenseForm.hasFutureDateError (ExpenseForm.validateExpense now es)
        = DateTime.isFutureDate now (Some (ExpenseForm.incurred_date es)))
  /\ (forall ic : IncomeForm.IncomeFormState,
        IncomeForm.hasFutureDateError (IncomeForm.validateIncome now ic)
        = DateTime.isFutureDate now (Some (IncomeForm.received_date ic))).
Proof.
  cbn zeta. pose proof (isFutureDate_localDateString Hn Ht) as E.
  split; [exact E |].
  split; [intros H; left; now apply E |].
  split.
  { intros H.
    destruct (DateTime.isFutureDate now (Some (DateTime.localDateString t)));
      [| reflexivity].
    exfalso. apply H. left. now apply E. }
  split.
  { intros S.
    destruct (DateTime.isFutureDate now (Some (DateTime.localDateString t)));
      [| reflexivity].
    exfalso. assert (dayAfter t now) as D by now apply E.
    unfold sameDay, dayAfter in *. lia. }
  split; [apply expense_hasFutureDateError | apply income_hasFutureDateError].
Qed.

Lemma isFutureDate_by_calendar_day_witness :
  validLocal Fixtures.clock /\ validLocal Fixtures.tomorrow
  /\ DateTime.isFutureDate Fixtures.clock
       (Some (DateTime.localDateString Fixtures.tomorrow)) = true.
Proof.
  assert (validLocal Fixtures.clock) as Hn
    by (unfold validLocal; cbn; lia).
  assert (validLocal Fixtures.tomorrow) as Ht
    by (unfold validLocal; cbn; lia).
  split; [exact Hn |]. split; [exact Ht |].
  apply (proj1 (isFutureDate_by_calendar_day Hn Ht)).
  unfold dayAfter; cbn; lia.
Defined.

(** C3, as stated, fails: 18:00 on the current day is after a clock that
    reads 10:00, and the check does not report it. *)
Lemma isFutureDate_ignores_time_of_day :
  validLocal Fixtures.clock /\ validLocal Fixtures.laterToday
  /\ instantAfter Fixtures.laterToday Fixtures.clock
  /\ DateTime.isFutureDate Fixtures.clock
       (Some (DateTime.localDateString Fixtures.laterToday)) = false
  /\ ~ (forall now t : DateTime.Date,
          validLocal now -> validLocal t ->
          (DateTime.isFutureDate now (Some (DateTime.localDateString t)) = true
           <-> instantAfter t now)).
Proof.
  assert (validLocal Fixtures.clock) as Hn
    by (unfold validLocal; cbn; lia).
  assert (validLocal Fixtures.laterToday) as Ht
    by (unfold validLocal; cbn; lia).
  assert (instantAfter Fixtures.laterToday Fixtures.clock) as Ha
    by (right; unfold sameDay, secondOfDay; cbn; repeat split; lia).
  split; [exact Hn |]. split; [exact Ht |]. split; [exact Ha |].
  split; [vm_compute; reflexivity |].
  intros H. specialize (H Fixtures.clock Fixtures.laterToday Hn Ht).
  apply H in Ha. vm_compute in Ha. discriminate.
Qed.

Example one_second_ago_accepted :
  DateTime.isFutureDate Fixtures.clock
    (Some (DateTime.localDateString Fixtures.aSecondAgo)) = false.
Proof. vm_compute. reflexivity. Qed.

Example later_today_submitted :
  match ExpenseForm.handleSubmit Fixtures.clock Fixtures.parseLocal
          Fixtures.printISO Fixtures.upperASCII
          {| ExpenseForm.amount := js "12.50";
             ExpenseForm.currency := js "USD";
             ExpenseForm.category := js "Food";
             ExpenseForm.payment_method := js "cash";
             ExpenseForm.incurred_date := js "2026-11-02";
             ExpenseForm.incurred_time := js "18:00";
             ExpenseForm.description := [];
             ExpenseForm.merchant := [];
             ExpenseForm.tags := [];
             ExpenseForm.receipt_image_path := [] |} with
  | Return (Some p) => ExpenseForm.p_incurred_at p = js "2026-11-02T18:00:00.000Z"
  | _ => False
  end.
Proof. vm_compute. reflexivity. Qed.

Lemma trim_truthy (t : jsstring) : truthy (trim t) = true -> truthy t = true.
Proof. destruct t; [discriminate | reflexivity]. Qed.

Lemma safeTime_eq (time : option jsstring) :
  match time with
  | Some t => if truthy t && truthy (trim t) then t else js "00:00"
  | None => js "00:00"
  end = timeOrMidnight time.
Proof.
  destruct time as [t |]; [| reflexivity].
  unfold timeOrMidnight, blank.
  destruct (truthy (trim t)) eqn:E.
  - now rewrite (trim_truthy _ E).
  - now rewrite andb_false_r.
Qed.

(** C10. [combineDateAndTime] and [toIsoString] always return, and what
    they return is the ISO text of a valid instant: the instant that
    [date T time] parses to (the time being [00:00] when missing or
    blank), or the current instant when the date is empty or the text does
    not parse. Neither call reaches [toISOString] on an invalid date, so
    neither throws. *)
Theorem combineDateAndTime_total
  (now : DateTime.Date) (parse : jsstring -> DateTime.DateObject)
  (formatISO : DateTime.Date -> jsstring)
  (date : jsstring) (time localValue : option jsstring) :
  DateTime.combineDateAndTime now parse formatISO date time
  = Return (formatISO
      (if truthy date
       then parsedOrNow now parse (date ++ js "T" ++ timeOrMidnight time)
       else now))
  /\ DateTime.toIsoString now parse formatISO localValue
     = Return (formatISO
         (match localValue with
          | Some v => if truthy v then parsedOrNow now parse v else now
          | None => now
          end)).
Proof.
  split.
  - unfold DateTime.combineDateAndTime. cbn zeta. rewrite safeTime_eq.
    unfold parsedOrNow.
    destruct (truthy date); cbn [negb]; [| reflexivity].
    destruct (parse (date ++ js "T" ++ timeOrMidnight time)); reflexivity.
  - unfold DateTime.toIsoString, DateTime.toDate, parsedOrNow. cbn zeta.
    destruct localValue as [v |]; [| reflexivity].
    destruct (truthy v); cbn [negb]; [| reflexivity].
    destruct (parse v); reflexivity.
Qed.

Example combine_blank_time :
  DateTime.combineDateAndTime Fixtures.clock Fixtures.parseLocal
    Fixtures.printISO (js "2026-10-31") (Some (js "  "))
  = Return (js "2026-10-31T00:00:00.000Z").
Proof. vm_compute. reflexivity. Qed.

Example combine_unparseable :
  DateTime.combineDateAndTime Fixtures.clock Fixtures.parseLocal
    Fixtures.printISO (js "31/10/2026") (Some (js "09:30"))
  = Return (js "2026-11-02T10:00:00.000Z").
Proof. vm_compute. reflexivity. Qed.

Example combine_empty_date :
  DateTime.combineDateAndTime Fixtures.clock Fixtures.parseLocal
    Fixtures.printISO [] (Some (js "09:30"))
  = Return (js "2026-11-02T10:00:00.000Z").
Proof. vm_compute. reflexivity. Qed.

(** ** The expense and income hooks *)

Section ListHookFacts.

Variables Item Payload PartialPayload Server : Type.
Variable path : jsstring.
Variable api : ListHook.Api Item Payload PartialPayload Server.

Let World := ListHook.World Item Server.

Lemma refresh_run (w : World) :
  ListHook.refresh path api w =
    let (r, sv) := ListHook.api_get api (ListHook.server w) in
    let lg := ListHook.log w ++ [{| method := GET; url := path |}] in
    let st := ListHook.state w in
    match r with
    | inr data =>
        (Return tt,
         {| ListHook.state :=
              {| ListHook.items := ListHook.resp_items data;
                 ListHook.total := ListHook.resp_total data;
                 ListHook.loading := false;
                 ListHook.submitting := ListHook.submitting st;
                 ListHook.error := None |};
            ListHook.server := sv; ListHook.log := lg |})
    | inl e =>
        (Return tt,
         {| ListHook.state :=
              {| ListHook.items := ListHook.items st;
                 ListHook.total := ListHook.total st;
                 ListHook.loading := false;
                 ListHook.submitting := ListHook.submitting st;
                 ListHook.error := Some (Errors.getApiErrorMessage e) |};
            ListHook.server := sv; ListHook.log := lg |})
    end.
Proof.
  unfold ListHook.refresh, finally, tryCatch, bind, ListHook.request,
    ListHook.setLoading, ListHook.setItems, ListHook.setTotal,
    ListHook.setError, ListHook.setState, modify.
  cbn. destruct (ListHook.api_get api (ListHook.server w)) as [[e | data] sv];
    reflexivity.
Qed.

Ltac run_list_hook H :=
  unfold keptOnFailure, refetched,
    ListHook.create, ListHook.update, ListHook.remove;
  unfold finally, tryCatch, bind, throw,
    ListHook.setSubmitting, ListHook.setError, ListHook.setState, modify;
  unfold ListHook.request;
  cbn -[ListHook.refresh]; rewrite H; cbn -[ListHook.refresh].

Ltac finish_refetch sv :=
  rewrite refresh_run; cbn;
  destruct (ListHook.api_get api sv) as [[e' | data] sv'];
  cbn; rewrite <- app_assoc; repeat split; reflexivity.

Lemma create_failure (w : World) (payload : Payload) (e : JSError)
  (sv : Server) :
  ListHook.api_post api payload (ListHook.server w) = (inl e, sv) ->
  keptOnFailure w {| method := POST; url := path |} e sv
    (ListHook.create path api payload w).
Proof. intros H. run_list_hook H. repeat split; reflexivity. Qed.

Lemma update_failure (w : World) (i : jsstring) (payload : PartialPayload)
  (e : JSError) (sv : Server) :
  ListHook.api_put api i payload (ListHook.server w) = (inl e, sv) ->
  keptOnFailure w {| method := PUT; url := ListHook.itemUrl path i |} e sv
    (ListHook.update path api i payload w).
Proof. intros H. run_list_hook H. repeat split; reflexivity. Qed.

Lemma remove_failure (w : World) (i : jsstring) (e : JSError) (sv : Server) :
  ListHook.api_delete api i (ListHook.server w) = (inl e, sv) ->
  keptOnFailure w {| method := DELETE; url := ListHook.itemUrl path i |} e sv
    (ListHook.remove path api i w).
Proof. intros H. run_list_hook H. repeat split; reflexivity. Qed.

Lemma create_success (w : World) (payload : Payload) (created : Item)
  (sv : Server) :
  ListHook.api_post api payload (ListHook.server w) = (inr created, sv) ->
  refetched path api w {| method := POST; url := path |} sv
    (ListHook.create path api payload w).
Proof. intros H. run_list_hook H. finish_refetch sv. Qed.

Lemma update_success (w : World) (i : jsstring) (payload : PartialPayload)
  (updated : Item) (sv : Server) :
  ListHook.api_put api i payload (ListHook.server w) = (inr updated, sv) ->
  refetched path api w {| method := PUT; url := ListHook.itemUrl path i |} sv
    (ListHook.update path api i payload w).
Proof. intros H. run_list_hook H. finish_refetch sv. Qed.

Lemma remove_success (w : World) (i : jsstring) (sv : Server) :
  ListHook.api_delete api i (ListHook.server w) = (inr tt, sv) ->
  refetched path api w
    {| method := DELETE; url := ListHook.itemUrl path i |} sv
    (ListHook.remove path api i w).
Proof. intros H. run_list_hook H. finish_refetch sv. Qed.

End ListHookFacts.

(** C5. When the request of a create, update or remove of the expense or
    income hook fails, the call throws the error it got, the held items
    and total (and the loading flag) are what they were before the call,
    the error message is set from the failure, and no other request is
    sent. *)
Theorem failed_mutation_keeps_state
  (PartialExpense PartialIncome ExpenseServer IncomeServer : Type)
  (eapi : ListHook.Api Types.Expense ExpenseForm.ExpensePayload
            PartialExpense ExpenseServer)
  (iapi : ListHook.Api Types.Income IncomeForm.IncomePayload
            PartialIncome IncomeServer)
  (ew : ListHook.World Types.Expense ExpenseServer)
  (iw : ListHook.World Types.Income IncomeServer)
  (e : JSError) :
  (forall payload sv,
     ListHook.api_post eapi payload (ListHook.server ew) = (inl e, sv) ->
     keptOnFailure ew {| method := POST; url := js "/expenses" |} e sv
       (useExpenses.create eapi payload ew))
  /\ (forall i payload sv,
     ListHook.api_put eapi i payload (ListHook.server ew) = (inl e, sv) ->
     keptOnFailure ew {| method := PUT; url := js "/expenses/" ++ i |} e sv
       (useExpenses.update eapi i payload ew))
  /\ (forall i sv,
     ListHook.api_delete eapi i (ListHook.server ew) = (inl e, sv) ->
     keptOnFailure ew {| method := DELETE; url := js "/expenses/" ++ i |} e sv
       (useExpenses.remove eapi i ew))
  /\ (forall payload sv,
     ListHook.api_post iapi payload (ListHook.server iw) = (inl e, sv) ->
     keptOnFailure iw {| method := POST; url := js "/incomes" |} e sv
       (useIncomes.create iapi payload iw))
  /\ (forall i payload sv,
     ListHook.api_put iapi i payload (ListHook.server iw) = (inl e, sv) ->
     keptOnFailure iw {| method := PUT; url := js "/incomes/" ++ i |} e sv
       (useIncomes.update iapi i payload iw))
  /\ (forall i sv,
     ListHook.api_delete iapi i (ListHook.server iw) = (inl e, sv) ->
     keptOnFailure iw {| method := DELETE; url := js "/incomes/" ++ i |} e sv
       (useIncomes.remove iapi i iw)).
Proof.
  unfold useExpenses.create, useExpenses.update, useExpenses.remove,
    useIncomes.create, useIncomes.update, useIncomes.remove.
  split; [intros; now apply (@create_failure _ _ _ _ useExpenses.path) |].
  split; [intros; now apply (@update_failure _ _ _ _ useExpenses.path) |].
  split; [intros; now apply (@remove_failure _ _ _ _ useExpenses.path) |].
  split; [intros; now apply (@create_failure _ _ _ _ useIncomes.path) |].
  split; [intros; now apply (@update_failure _ _ _ _ useIncomes.path) |].
  intros; now apply (@remove_failure _ _ _ _ useIncomes.path).
Qed.

Lemma failed_mutation_keeps_state_witness :
  ListHook.api_post Fixtures.expenseServerDown Fixtures.coffee
    (ListHook.server Fixtures.holdingLunch) = (inl Fixtures.networkError, tt)
  /\ keptOnFailure Fixtures.holdingLunch
       {| method := POST; url := js "/expenses" |} Fixtures.networkError tt
       (useExpenses.create Fixtures.expenseServerDown Fixtures.coffee
          Fixtures.holdingLunch).
Proof.
  split; [reflexivity |].
  apply (proj1 (failed_mutation_keeps_state Fixtures.expenseServerDown
                  Fixtures.incomeServerEmpty Fixtures.holdingLunch
                  Fixtures.noIncomes Fixtures.networkError)).
  reflexivity.
Defined.

Example failed_create_state :
  useExpenses.create Fixtures.expenseServerDown Fixtures.coffee
    Fixtures.holdingLunch
  = (Throw Fixtures.networkError,
     {| ListHook.state :=
          {| ListHook.items := [Fixtures.lunch]; ListHook.total := js "12.50";
             ListHook.loading := false; ListHook.submitting := false;
             ListHook.error := Some (js "Network Error") |};
        ListHook.server := tt;
        ListHook.log := [{| method := POST; url := js "/expenses" |}] |}).
Proof. vm_compute. reflexivity. Qed.

(** ** The category hook *)

Section CategoryHookFacts.

Variable sortKey : jsstring -> list N.
Variable Server : Type.
Variable api : useCategories.Api Server.

Ltac run_category_hook H :=
  unfold mergedLocally,
    useCategories.create, useCategories.update, useCategories.remove;
  unfold finally, tryCatch, bind, throw, ret, useCategories.request,
    useCategories.setSubmitting, useCategories.setError,
    useCategories.setItems, useCategories.setState, modify;
  cbn -[useCategories.sortCategories]; rewrite H;
  cbn -[useCategories.sortCategories]; repeat split; reflexivity.

Lemma category_create_merges (w : useCategories.World Server)
  (payload : useCategories.CategoryPayload) (data : Types.Category)
  (sv : Server) :
  useCategories.api_post api payload (useCategories.server w)
  = (inr data, sv) ->
  mergedLocally w {| method := POST; url := useCategories.path |} sv data
    (useCategories.sortCategories sortKey
       (useCategories.items (useCategories.state w) ++ [data]))
    (useCategories.create sortKey api payload w).
Proof. intros H. run_category_hook H. Qed.

Lemma category_update_merges (w : useCategories.World Server)
  (i : jsstring) (payload : useCategories.CategoryPayload)
  (data : Types.Category) (sv : Server) :
  useCategories.api_put api i payload (useCategories.server w)
  = (inr data, sv) ->
  mergedLocally w {| method := PUT; url := useCategories.itemUrl i |} sv data
    (useCategories.sortCategories sortKey
       (List.map
          (fun item => if jsstring_eqb (Types.id item) i then data else item)
          (useCategories.items (useCategories.state w))))
    (useCategories.update sortKey api i payload w).
Proof. intros H. run_category_hook H. Qed.

Lemma category_remove_merges (w : useCategories.World Server)
  (i : jsstring) (sv : Server) :
  useCategories.api_delete api i (useCategories.server w) = (inr tt, sv) ->
  mergedLocally w {| method := DELETE; url := useCategories.itemUrl i |} sv tt
    (filter (fun item => negb (jsstring_eqb (Types.id item) i))
       (useCategories.items (useCategories.state w)))
    (useCategories.remove api i w).
Proof. intros H. run_category_hook H. Qed.

End CategoryHookFacts.

(** ** Synchronisation *)

(** C4, as amended. After a successful create, update or remove the
    expense and income hooks send the full list request and hold what it
    returns (or what they held, if that request fails); the response of
    the mutation is not used. The category hook does not send the list
    request: it merges the response of the mutation into the items it
    holds (create appends and sorts, update replaces by identifier and
    sorts, remove filters by identifier). *)
Theorem refetch_after_mutation
  (PartialExpense PartialIncome ExpenseServer IncomeServer CategoryServer : Type)
  (sortKey : jsstring -> list N)
  (eapi : ListHook.Api Types.Expense ExpenseForm.ExpensePayload
            PartialExpense ExpenseServer)
  (iapi : ListHook.Api Types.Income IncomeForm.IncomePayload
            PartialIncome IncomeServer)
  (capi : useCategories.Api CategoryServer)
  (ew : ListHook.World Types.Expense ExpenseServer)
  (iw : ListHook.World Types.Income IncomeServer)
  (cw : useCategories.World CategoryServer) :
  (forall payload created sv,
     ListHook.api_post eapi payload (ListHook.server ew) = (inr created, sv) ->
     refetched (js "/expenses") eapi ew
       {| method := POST; url := js "/expenses" |} sv
       (useExpenses.create eapi payload ew))
  /\ (forall i payload updated sv,
     ListHook.api_put eapi i payload (ListHook.server ew) = (inr updated, sv) ->
     refetched (js "/expenses") eapi ew
       {| method := PUT; url := js "/expenses/" ++ i |} sv
       (useExpenses.update eapi i payload ew))
  /\ (forall i sv,
     ListHook.api_delete eapi i (ListHook.server ew) = (inr tt, sv) ->
     refetched (js "/expenses") eapi ew
       {| method := DELETE; url := js "/expenses/" ++ i |} sv
       (useExpenses.remove eapi i ew))
  /\ (forall payload created sv,
     ListHook.api_post iapi payload (ListHook.server iw) = (inr created, sv) ->
     refetched (js "/incomes") iapi iw
       {| method := POST; url := js "/incomes" |} sv
       (useIncomes.create iapi payload iw))
  /\ (forall i payload updated sv,
     ListHook.api_put iapi i payload (ListHook.server iw) = (inr updated, sv) ->
     refetched (js "/incomes") iapi iw
       {| method := PUT; url := js "/incomes/" ++ i |} sv
       (useIncomes.update iapi i payload iw))
  /\ (forall i sv,
     ListHook.api_delete iapi i (ListHook.server iw) = (inr tt, sv) ->
     refetched (js "/incomes") iapi iw
       {| method := DELETE; url := js "/incomes/" ++ i |} sv
       (useIncomes.remove iapi i iw))
  /\ (forall payload data sv,
     useCategories.api_post capi payload (useCategories.server cw)
     = (inr data, sv) ->
     mergedLocally cw {| method := POST; url := js "/categories" |} sv data
       (useCategories.sortCategories sortKey
          (useCategories.items (useCategories.state cw) ++ [data]))
       (useCategories.create sortKey capi payload cw))
  /\ (forall i payload data sv,
     useCategories.api_put capi i payload (useCategories.server cw)
     = (inr data, sv) ->
     mergedLocally cw {| method := PUT; url := js "/categories/" ++ i |} sv data
       (useCategories.sortCategories sortKey
          (List.map
             (fun item => if jsstring_eqb (Types.id item) i then data else item)
             (useCategories.items (useCategories.state cw))))
       (useCategories.update sortKey capi i payload cw))
  /\ (forall i sv,
     useCategories.api_delete capi i (useCategories.server cw)
     = (inr tt, sv) ->
     mergedLocally cw {| method := DELETE; url := js "/categories/" ++ i |}
       sv tt
       (filter (fun item => negb (jsstring_eqb (Types.id item) i))
          (useCategories.items (useCategories.state cw)))
       (useCategories.remove capi i cw)).
Proof.
  unfold useExpenses.create, useExpenses.update, useExpenses.remove,
    useIncomes.create, useIncomes.update, useIncomes.remove.
  split; [intros; eapply (@create_success _ _ _ _ useExpenses.path); eassumption |].
  split; [intros; eapply (@update_success _ _ _ _ useExpenses.path); eassumption |].
  split; [intros; now apply (@remove_success _ _ _ _ useExpenses.path) |].
  split; [intros; eapply (@create_success _ _ _ _ useIncomes.path); eassumption |].
  split; [intros; eapply (@update_success _ _ _ _ useIncomes.path); eassumption |].
  split; [intros; now apply (@remove_success _ _ _ _ useIncomes.path) |].
  split; [intros; now apply category_create_merges |].
  split; [intros; now apply category_update_merges |].
  intros; now apply category_remove_merges.
Qed.

Lemma refetch_after_mutation_witness :
  ListHook.api_delete Fixtures.incomeServerEmpty (js "7")
    (ListHook.server Fixtures.noIncomes) = (inr tt, tt)
  /\ refetched (js "/incomes") Fixtures.incomeServerEmpty Fixtures.noIncomes
       {| method := DELETE; url := js "/incomes/" ++ js "7" |} tt
       (useIncomes.remove Fixtures.incomeServerEmpty (js "7")
          Fixtures.noIncomes).
Proof.
  split; [reflexivity |].
  pose proof (@refetch_after_mutation _ _ _ _ _ Intl.asciiBaseKey
    Fixtures.expenseServerDown Fixtures.incomeServerEmpty
    Fixtures.categoryServer Fixtures.holdingLunch Fixtures.noIncomes
    Fixtures.staleCategories) as (_ & _ & _ & _ & _ & H & _).
  apply H. reflexivity.
Defined.

(** C4, as stated, fails for categories: the client that held no category
    creates [Food] on a server that already holds [Rent]; it sends the
    POST and nothing else, and holds [Food] alone, where the list request
    would have returned both. *)
Lemma category_create_does_not_refetch :
  fst Fixtures.createFood = Return Fixtures.food
  /\ useCategories.log (snd Fixtures.createFood)
     = [{| method := POST; url := js "/categories" |}]
  /\ ~ endsWithListRequest (snd Fixtures.createFood)
  /\ useCategories.items (useCategories.state (snd Fixtures.createFood))
     = [Fixtures.food]
  /\ fst (useCategories.api_get Fixtures.categoryServer
            (useCategories.server (snd Fixtures.createFood)))
     = inr {| useCategories.resp_items := [Fixtures.rent; Fixtures.food] |}.
Proof.
  split; [reflexivity |]. split; [reflexivity |].
  split; [| split; reflexivity].
  intros [before H].
  change (useCategories.log (snd Fixtures.createFood))
    with ([] ++ [{| method := POST; url := js "/categories" |}]) in H.
  apply app_inj_tail in H. destruct H as [_ H]. discriminate H.
Qed.

(* ================================================================== *)
(** * Further properties *)

(** ** Signed amounts *)

Lemma sanitized_fixed (s : jsstring) :
  sanitizeAmountInput (sanitizeAmountInput s) = sanitizeAmountInput s.
Proof.
  rewrite (sanitizeAmountInput_eq (sanitizeAmountInput s)).
  rewrite (sanitizeAmountInput_eq s). cbn zeta.
  pose proof (sanitized_whole_digits s) as Hw.
  pose proof (sanitized_decimals_digits s) as Hd.
  pose proof (sanitized_safeWhole_digits s) as Hw'.
  pose proof (sanitized_safeWhole_strip s) as Hs.
  set (w := stripLeadingZeros (digits (wholePart s))) in *.
  set (d := firstn 2 (digits (fractionPart s))) in *.
  assert (Hdd : firstn 2 (digits d) = d).
  { rewrite (digits_id Hd). unfold d. rewrite firstn_firstn. reflexivity. }
  destruct (truthy d) eqn:Td.
  - rewrite (wholePart_app_dot _ Hw'), (fractionPart_app_dot _ Hw').
    rewrite (digits_id Hw'), Hdd, Td, Hs.
    destruct (truthy w) eqn:Tw; [now rewrite Tw | reflexivity].
  - rewrite (wholePart_digits Hw), (fractionPart_digits Hw).
    cbn [digits filter firstn truthy].
    rewrite (digits_id Hw). apply stripLeadingZeros_idem.
Qed.

Lemma sanitized_allowed (s : jsstring) :
  Forall (fun c => allowedChar c = true) (sanitizeAmountInput s).
Proof.
  rewrite sanitizeAmountInput_eq. cbn zeta.
  pose proof (sanitized_whole_digits s) as Hw.
  pose proof (sanitized_decimals_digits s) as Hd.
  pose proof (sanitized_safeWhole_digits s) as Hw'.
  destruct (truthy (firstn 2 (digits (fractionPart s)))).
  - apply Forall_app. split; [now apply digit_allowed |].
    constructor; [reflexivity | now apply digit_allowed].
  - now apply digit_allowed.
Qed.

(** The first character of a sanitized amount, if any, is a digit. *)
Lemma sanitized_head_digit (s : jsstring) :
  match sanitizeAmountInput s with
  | [] => True
  | c :: _ => isDigit c = true
  end.
Proof.
  rewrite sanitizeAmountInput_eq. cbn zeta.
  pose proof (sanitized_whole_digits s) as Hw.
  pose proof (sanitized_safeWhole_digits s) as Hw'.
  destruct (truthy (firstn 2 (digits (fractionPart s)))).
  - destruct (stripLeadingZeros (digits (wholePart s))) as [| c t];
      cbn [truthy app] in *; [reflexivity | exact (Forall_inv Hw')].
  - destruct (stripLeadingZeros (digits (wholePart s))) as [| c t];
      [exact I | exact (Forall_inv Hw)].
Qed.

Lemma sanitizeDecimal_allowNegative_eq (s : jsstring) :
  sanitizeDecimal s true =
    if startsWith (trim s) chr_minus && truthy (sanitizeAmountInput s)
    then chr_minus :: sanitizeAmountInput s
    else sanitizeAmountInput s.
Proof.
  unfold sanitizeAmountInput, sanitizeDecimal.
  destruct s as [| c0 s0]; [reflexivity |].
  cbn [truthy negb andb].
  destruct (startsWith (trim (c0 :: s0)) chr_minus) eqn:Sw;
    [| reflexivity].
  assert (filter allowedChar (tl (trim (c0 :: s0)))
          = filter allowedChar (trim (c0 :: s0))) as ->.
  { destruct (trim (c0 :: s0)) as [| d t']; [discriminate |].
    cbn [startsWith] in Sw. apply N.eqb_eq in Sw. subst d. reflexivity. }
  destruct (negb (truthy (filter allowedChar (trim (c0 :: s0)))));
    [reflexivity |].
  cbv zeta.
  match goal with
  | |- context [negb (truthy ?x)] => destruct x; reflexivity
  end.
Qed.

Lemma trimEnd_no_whitespace (s : jsstring) :
  Forall (fun c => isWhiteSpace c = false) s -> trimEnd s = s.
Proof.
  induction 1 as [| c t Hc _ IH]; [reflexivity |].
  rewrite trimEnd_cons, IH, Hc. now destruct t.
Qed.

Lemma trim_no_whitespace (s : jsstring) :
  Forall (fun c => isWhiteSpace c = false) s -> trim s = s.
Proof.
  intros H. unfold trim.
  assert (trimStart s = s) as ->.
  { destruct H as [| c t Hc _]; [reflexivity |].
    cbn [trimStart]. now rewrite Hc. }
  now apply trimEnd_no_whitespace.
Qed.

Lemma allowed_no_whitespace (s : jsstring) :
  Forall (fun c => allowedChar c = true) s ->
  Forall (fun c => isWhiteSpace c = false) s.
Proof. apply Forall_impl. intros c. apply allowed_not_whitespace. Qed.

Lemma parseUnsigned_numeral (negative : bool) (c : codeunit) (t : jsstring) :
  isDigit c = true ->
  JSNumber.parseUnsigned negative (c :: t)
  = match JSNumber.parseUnsignedDecimal (c :: t) with
    | Some (m, e) => JSNumber.Finite negative m e
    | None => JSNumber.NaN
    end.
Proof.
  intros Hc. pose proof (digit_range _ Hc) as R.
  unfold JSNumber.parseUnsigned, jsstring_eqb.
  destruct (list_eq_dec N.eq_dec (c :: t) (js "Infinity")) as [E | _];
    [| reflexivity].
  exfalso. injection E as E _. unfold codeunit in *. lia.
Qed.

(** *** The value of a digit string *)

Lemma fold_digits_leading_zero (s : jsstring) :
  fold_left (fun a c => a * 10 + JSNumber.digitValue c)%N s
    (0 * 10 + JSNumber.digitValue chr_zero)%N
  = fold_left (fun a c => a * 10 + JSNumber.digitValue c)%N s 0%N.
Proof. reflexivity. Qed.

Lemma digitsValue_leading_zero (s : jsstring) :
  JSNumber.digitsValue 10 (chr_zero :: s) = JSNumber.digitsValue 10 s.
Proof. reflexivity. Qed.

Lemma digitsValue_strip (x d : jsstring) :
  JSNumber.digitsValue 10 (stripLeadingZeros x ++ d)
  = JSNumber.digitsValue 10 (x ++ d).
Proof.
  induction x as [| c t IH]; [reflexivity |].
  cbn [stripLeadingZeros]. destruct t as [| c' t']; [reflexivity |].
  destruct (c =? chr_zero)%N eqn:E; cbn [andb]; [| reflexivity].
  destruct (isDigit c'); [| reflexivity].
  apply N.eqb_eq in E. subst c. rewrite IH.
  change ((chr_zero :: c' :: t') ++ d) with (chr_zero :: ((c' :: t') ++ d)).
  now rewrite digitsValue_leading_zero.
Qed.

(** The number that a text of digits, with at most one point followed by
    digits, denotes under [Number], given its sign. *)
Lemma numeral_value (negative : bool) (w d : jsstring) :
  Forall (fun c => isDigit c = true) w -> w <> [] ->
  Forall (fun c => isDigit c = true) d ->
  JSNumber.parseUnsigned negative
    (if truthy d then w ++ chr_dot :: d else w)
  = JSNumber.Finite negative (JSNumber.digitsValue 10 (w ++ d))
      (- Z.of_nat (List.length d)).
Proof.
  intros Hw Hne Hd.
  destruct w as [| c t]; [contradiction |].
  pose proof (Forall_inv Hw) as Hc. cbv beta in Hc.
  destruct (truthy d) eqn:Td.
  - change ((c :: t) ++ chr_dot :: d) with (c :: (t ++ chr_dot :: d)).
    rewrite (@parseUnsigned_numeral _ _ _ Hc).
    change (c :: (t ++ chr_dot :: d)) with ((c :: t) ++ chr_dot :: d).
    apply truthy_true_cons in Td.
    now rewrite (parseUnsignedDecimal_fraction Hw Hd Td).
  - apply truthy_false_nil in Td. subst d.
    rewrite (@parseUnsigned_numeral _ _ _ Hc).
    rewrite (@parseUnsignedDecimal_whole (c :: t)) by (discriminate || exact Hw).
    now rewrite app_nil_r.
Qed.

Lemma Number_unsigned (c : codeunit) (t : jsstring) :
  isDigit c = true -> Forall (fun x => allowedChar x = true) t ->
  JSNumber.Number (c :: t) = JSNumber.parseUnsigned false (c :: t).
Proof.
  intros Hc Ht. rewrite (Number_numeral _ Hc Ht).
  now rewrite (@parseUnsigned_numeral false _ _ Hc).
Qed.

Lemma Number_negative (s : jsstring) :
  Forall (fun x => allowedChar x = true) s ->
  JSNumber.Number (chr_minus :: s) = JSNumber.parseUnsigned true s.
Proof.
  intros Hs. unfold JSNumber.Number.
  rewrite trim_no_whitespace
    by (constructor; [reflexivity | now apply allowed_no_whitespace]).
  reflexivity.
Qed.

(** The closed form of [sanitizeAmountInput], with the safe whole part
    named. *)
Lemma sanitized_shape (raw : jsstring) :
  exists w : jsstring,
    Forall (fun c => isDigit c = true) w
    /\ (w = [] -> sanitizeAmountInput raw = [])
    /\ sanitizeAmountInput raw
       = (if truthy (firstn 2 (digits (fractionPart raw)))
          then w ++ chr_dot :: firstn 2 (digits (fractionPart raw))
          else w)
    /\ JSNumber.digitsValue 10 (w ++ firstn 2 (digits (fractionPart raw)))
       = JSNumber.digitsValue 10
           (digits (wholePart raw) ++ firstn 2 (digits (fractionPart raw))).
Proof.
  rewrite sanitizeAmountInput_eq. cbn zeta.
  pose proof (sanitized_whole_digits raw) as Hw.
  pose proof (sanitized_safeWhole_digits raw) as Hw'.
  pose proof (digitsValue_strip (digits (wholePart raw))
                (firstn 2 (digits (fractionPart raw)))) as Hv.
  destruct (truthy (firstn 2 (digits (fractionPart raw)))) eqn:Td.
  - exists (if truthy (stripLeadingZeros (digits (wholePart raw)))
            then stripLeadingZeros (digits (wholePart raw))
            else [chr_zero]).
    split; [exact Hw' |]. split.
    + destruct (stripLeadingZeros (digits (wholePart raw)));
        cbn [truthy]; discriminate.
    + split; [reflexivity |].
      destruct (stripLeadingZeros (digits (wholePart raw))) as [| c t] eqn:E.
      * cbn [truthy]. rewrite <- Hv.
        change ([chr_zero] ++ firstn 2 (digits (fractionPart raw)))
          with (chr_zero :: firstn 2 (digits (fractionPart raw))).
        now rewrite digitsValue_leading_zero.
      * cbn [truthy]. exact Hv.
  - exists (stripLeadingZeros (digits (wholePart raw))).
    split; [exact Hw |]. split; [trivial |]. split; [reflexivity | exact Hv].
Qed.

Lemma sanitize_skip_minus (x : jsstring) :
  sanitizeAmountInput (chr_minus :: x) = sanitizeAmountInput x.
Proof. rewrite !sanitizeAmountInput_eq. reflexivity. Qed.

Lemma sanitized_not_negative (s : jsstring) :
  startsWith (trim (sanitizeAmountInput s)) chr_minus = false.
Proof.
  rewrite (trim_allowed (sanitized_allowed s)).
  pose proof (sanitized_head_digit s) as H.
  destruct (sanitizeAmountInput s) as [| c t]; [reflexivity |].
  pose proof (digit_range _ H) as R. cbn [startsWith].
  apply N.eqb_neq. unfold chr_minus, codeunit in *. lia.
Qed.

(** X1. With [allowNegative] the sanitized text is the text that
    [sanitizeAmountInput] gives, preceded by a minus sign exactly when the
    trimmed input starts with one and some digit is left; a minus sign
    anywhere else is dropped. *)
Theorem sanitizeDecimal_keeps_only_leading_sign (s : jsstring) :
  sanitizeDecimal s true
  = (if startsWith (trim s) chr_minus && truthy (sanitizeAmountInput s)
     then chr_minus :: sanitizeAmountInput s
     else sanitizeAmountInput s)
  /\ filter (fun c => negb (c =? chr_minus)%N) (sanitizeDecimal s true)
     = sanitizeAmountInput s.
Proof.
  assert (Hf : filter (fun c => negb (c =? chr_minus)%N) (sanitizeAmountInput s)
               = sanitizeAmountInput s).
  { pose proof (sanitized_allowed s) as H.
    induction H as [| c t Hc _ IH]; [reflexivity |].
    cbn [filter]. rewrite IH.
    assert ((c =? chr_minus)%N = false) as ->; [| reflexivity].
    unfold allowedChar, isDigit, chr_dot in Hc. apply N.eqb_neq.
    apply orb_prop in Hc. destruct Hc as [A | A].
    - apply andb_prop in A. destruct A as [A _]. apply N.leb_le in A.
      unfold chr_minus, codeunit in *. lia.
    - apply N.eqb_eq in A. unfold chr_minus, codeunit in *. lia. }
  rewrite sanitizeDecimal_allowNegative_eq. split; [reflexivity |].
  destruct (startsWith (trim s) chr_minus && truthy (sanitizeAmountInput s));
    [| exact Hf].
  cbn [filter]. rewrite N.eqb_refl. exact Hf.
Qed.

(** X2. Sanitizing with [allowNegative] is idempotent. *)
Theorem sanitizeDecimal_allowNegative_idempotent (s : jsstring) :
  sanitizeDecimal (sanitizeDecimal s true) true = sanitizeDecimal s true.
Proof.
  rewrite (sanitizeDecimal_allowNegative_eq s).
  destruct (startsWith (trim s) chr_minus && truthy (sanitizeAmountInput s))
    eqn:Neg.
  - apply andb_prop in Neg. destruct Neg as [_ T].
    rewrite sanitizeDecimal_allowNegative_eq.
    rewrite sanitize_skip_minus, sanitized_fixed, T.
    rewrite trim_no_whitespace
      by (constructor;
          [reflexivity | apply allowed_no_whitespace, sanitized_allowed]).
    reflexivity.
  - rewrite sanitizeDecimal_allowNegative_eq.
    now rewrite sanitized_not_negative, sanitized_fixed.
Qed.

Lemma sanitized_number (raw : jsstring) (negative : bool) :
  sanitizeAmountInput raw <> [] ->
  JSNumber.parseUnsigned negative (sanitizeAmountInput raw)
  = JSNumber.Finite negative
      (JSNumber.digitsValue 10
         (digits (wholePart raw) ++ firstn 2 (digits (fractionPart raw))))
      (- Z.of_nat (List.length (firstn 2 (digits (fractionPart raw))))).
Proof.
  intros Hne.
  destruct (sanitized_shape raw) as (w & Hw & Hnil & Hout & Hv).
  rewrite Hout, <- Hv.
  apply numeral_value; [exact Hw | | apply sanitized_decimals_digits].
  intros E. now apply Hne, Hnil.
Qed.

Lemma sanitizeDecimal_Number (raw : jsstring) (allowNegative : bool) :
  JSNumber.Number (sanitizeDecimal raw allowNegative)
  = JSNumber.Finite
      (allowNegative && startsWith (trim raw) chr_minus
       && truthy (sanitizeAmountInput raw))
      (JSNumber.digitsValue 10
         (digits (wholePart raw) ++ firstn 2 (digits (fractionPart raw))))
      (- Z.of_nat (List.length (firstn 2 (digits (fractionPart raw))))).
Proof.
  cbn zeta.
  assert (Hempty : sanitizeAmountInput raw = [] ->
            JSNumber.Finite false 0 0
            = JSNumber.Finite false
                (JSNumber.digitsValue 10
                   (digits (wholePart raw)
                    ++ firstn 2 (digits (fractionPart raw))))
                (- Z.of_nat (List.length (firstn 2 (digits (fractionPart raw)))))).
  { intros E. rewrite sanitizeAmountInput_eq in E. cbn zeta in E.
    destruct (firstn 2 (digits (fractionPart raw))) as [| d0 d'].
    - cbn [truthy] in E. apply stripLeadingZeros_nil in E. now rewrite E.
    - cbn [truthy] in E. apply app_eq_nil in E. destruct E as [_ E].
      discriminate E. }
  assert (Hpos : JSNumber.Number (sanitizeAmountInput raw)
            = JSNumber.Finite false
                (JSNumber.digitsValue 10
                   (digits (wholePart raw)
                    ++ firstn 2 (digits (fractionPart raw))))
                (- Z.of_nat (List.length (firstn 2 (digits (fractionPart raw)))))).
  { pose proof (sanitized_allowed raw) as Ha.
    pose proof (sanitized_head_digit raw) as Hh.
    destruct (sanitizeAmountInput raw) as [| c t] eqn:E.
    - now apply Hempty.
    - rewrite (@Number_unsigned c t Hh (Forall_inv_tail Ha)), <- E.
      apply sanitized_number. rewrite E. discriminate. }
  destruct allowNegative; [| exact Hpos].
  rewrite sanitizeDecimal_allowNegative_eq. cbn [andb].
  destruct (startsWith (trim raw) chr_minus); cbn [andb]; [| exact Hpos].
  destruct (truthy (sanitizeAmountInput raw)) eqn:T; [| exact Hpos].
  rewrite (Number_negative (sanitized_allowed raw)).
  apply sanitized_number. now apply truthy_true_cons.
Qed.


(** ** Displayed amounts *)

Lemma split_without_dot (a : jsstring) :
  Forall (fun c => (c =? chr_dot)%N = false) a -> split chr_dot a = [a].
Proof.
  induction 1 as [| c t Hc _ IH]; [reflexivity |].
  cbn [split]. now rewrite Hc, IH.
Qed.

Lemma split_at_dot (a b : jsstring) :
  Forall (fun c => (c =? chr_dot)%N = false) a ->
  split chr_dot (a ++ chr_dot :: b) = a :: split chr_dot b.
Proof.
  induction 1 as [| c t Hc _ IH].
  - cbn [app split]. now rewrite N.eqb_refl.
  - cbn [app split]. now rewrite Hc, IH.
Qed.

Lemma digits_without_dot (w : jsstring) :
  Forall (fun c => isDigit c = true) w ->
  Forall (fun c => (c =? chr_dot)%N = false) w.
Proof. apply Forall_impl. intros c. apply digit_not_dot. Qed.

(** The second piece of a sanitized text, split at the point. *)
Lemma sanitized_decimalPart (raw : jsstring) (sign : jsstring) :
  Forall (fun c => (c =? chr_dot)%N = false) sign ->
  nth_error (split chr_dot (sign ++ sanitizeAmountInput raw)) 1
  = if truthy (firstn 2 (digits (fractionPart raw)))
    then Some (firstn 2 (digits (fractionPart raw)))
    else None.
Proof.
  intros Hs.
  destruct (sanitized_shape raw) as (w & Hw & _ & Hout & _).
  pose proof (sanitized_decimals_digits raw) as Hd.
  rewrite Hout.
  assert (Hsw : Forall (fun c => (c =? chr_dot)%N = false) (sign ++ w))
    by (apply Forall_app; split; [exact Hs | now apply digits_without_dot]).
  destruct (truthy (firstn 2 (digits (fractionPart raw)))).
  - rewrite app_assoc, (split_at_dot _ Hsw).
    now rewrite (split_without_dot (digits_without_dot Hd)).
  - now rewrite (split_without_dot Hsw).
Qed.

Lemma formatAmount_string_eq
  (format : JSNumber.number -> jsstring)
  (trunc : JSNumber.number -> JSNumber.number) (s : jsstring) :
  let sanitized := sanitizeDecimal s true in
  let d := firstn 2 (digits (fractionPart s)) in
  NumberFormat.formatAmount format trunc (NumberFormat.AmountString s)
  = if truthy sanitized
    then format (trunc (JSNumber.Number sanitized))
           ++ (if truthy d then chr_dot :: d else [])
    else [].
Proof.
  cbn zeta. unfold NumberFormat.formatAmount.
  destruct (truthy (sanitizeDecimal s true)) eqn:T; cbn [negb];
    [| reflexivity].
  rewrite sanitizeDecimal_Number. cbn [JSNumber.isNaN].
  rewrite sanitizeDecimal_allowNegative_eq.
  destruct (startsWith (trim s) chr_minus && truthy (sanitizeAmountInput s)).
  - change (chr_minus :: sanitizeAmountInput s)
      with ([chr_minus] ++ sanitizeAmountInput s).
    rewrite sanitized_decimalPart by (constructor; [reflexivity | constructor]).
    destruct (truthy (firstn 2 (digits (fractionPart s))));
      [reflexivity | now rewrite app_nil_r].
  - change (sanitizeAmountInput s) with ([] ++ sanitizeAmountInput s) at 1.
    rewrite sanitized_decimalPart by constructor.
    destruct (truthy (firstn 2 (digits (fractionPart s))));
      [reflexivity | now rewrite app_nil_r].
Qed.

(** X4. What [formatAmount] shows for a text: nothing when no digit is
    left after sanitizing; otherwise the formatted whole part followed,
    when the text has fractional digits, by a point and the first two of
    them as typed, neither rounded nor padded. The [NaN] guard never
    fires. *)
Theorem formatAmount_keeps_typed_decimals
  (format : JSNumber.number -> jsstring)
  (trunc : JSNumber.number -> JSNumber.number) (s : jsstring) :
  let sanitized := sanitizeDecimal s true in
  let d := firstn 2 (digits (fractionPart s)) in
  NumberFormat.formatAmount format trunc (NumberFormat.AmountString s)
  = if truthy sanitized
    then format (trunc (JSNumber.Number sanitized))
           ++ (if truthy d then chr_dot :: d else [])
    else [].
Proof. apply formatAmount_string_eq. Qed.

Lemma wholePart_without_dot (f t : jsstring) :
  forallb notDot f = true -> wholePart (f ++ t) = f ++ wholePart t.
Proof.
  induction f as [| c f IH]; [reflexivity |]. cbn [forallb app wholePart].
  intros H. apply andb_prop in H. destruct H as [Hc Hf].
  unfold notDot in Hc. apply negb_true_iff in Hc. rewrite Hc.
  now rewrite IH.
Qed.

Lemma fractionPart_without_dot (f t : jsstring) :
  forallb notDot f = true -> fractionPart (f ++ t) = fractionPart t.
Proof.
  induction f as [| c f IH]; [reflexivity |]. cbn [forallb app fractionPart].
  intros H. apply andb_prop in H. destruct H as [Hc Hf].
  unfold notDot in Hc. apply negb_true_iff in Hc. rewrite Hc.
  now apply IH.
Qed.

Lemma sanitizeDecimal_of_sanitized (raw : jsstring) :
  sanitizeDecimal (sanitizeAmountInput raw) true = sanitizeAmountInput raw.
Proof.
  rewrite sanitizeDecimal_allowNegative_eq.
  now rewrite sanitized_not_negative, sanitized_fixed.
Qed.

Lemma sanitized_parts (raw : jsstring) :
  Forall (fun c => isDigit c = true) (wholePart (sanitizeAmountInput raw))
  /\ fractionPart (sanitizeAmountInput raw)
     = firstn 2 (digits (fractionPart raw)).
Proof.
  destruct (sanitized_shape raw) as (w & Hw & _ & Hout & _).
  pose proof (sanitized_decimals_digits raw) as Hd.
  rewrite Hout.
  destruct (truthy (firstn 2 (digits (fractionPart raw)))) eqn:T.
  - now rewrite (wholePart_app_dot _ Hw), (fractionPart_app_dot _ Hw).
  - apply truthy_false_nil in T.
    now rewrite (wholePart_digits Hw), (fractionPart_digits Hw), T.
Qed.

(** X5. The amount field shows [formatAmount(state.amount)] and stores
    [sanitizeAmountInput] of what it shows. Whenever the formatter prints
    the whole part with its own digits and without a point (grouping
    separators are allowed), showing a stored amount and reading it back
    gives the stored amount again. *)
Theorem formatAmount_round_trip
  (format : JSNumber.number -> jsstring)
  (trunc : JSNumber.number -> JSNumber.number) (raw : jsstring)
  (Hdigits :
     digits (format (trunc (JSNumber.Number (sanitizeAmountInput raw))))
     = wholePart (sanitizeAmountInput raw))
  (Hpoint :
     forallb notDot
       (format (trunc (JSNumber.Number (sanitizeAmountInput raw)))) = true) :
  sanitizeAmountInput
    (NumberFormat.formatAmount format trunc
       (NumberFormat.AmountString (sanitizeAmountInput raw)))
  = sanitizeAmountInput raw.
Proof.
  rewrite formatAmount_string_eq. cbn zeta.
  rewrite sanitizeDecimal_of_sanitized.
  destruct (sanitized_parts raw) as [Hw Hf].
  pose proof (sanitized_decimals_digits raw) as Hd.
  set (a := sanitizeAmountInput raw) in *.
  set (F := format (trunc (JSNumber.Number a))) in *.
  destruct (truthy a) eqn:Ta;
    [| apply truthy_false_nil in Ta; now rewrite Ta].
  transitivity (sanitizeAmountInput a); [| apply sanitized_fixed].
  rewrite (sanitizeAmountInput_eq a). rewrite sanitizeAmountInput_eq.
  cbn zeta.
  assert (Hd2 : firstn 2 (digits (fractionPart a)) = fractionPart a).
  { rewrite Hf, (digits_id Hd). apply firstn_firstn. }
  rewrite Hd2.
  assert (E1 : digits (wholePart
                 (F ++ (if truthy (fractionPart a)
                        then chr_dot :: fractionPart a else [])))
               = digits (wholePart a)).
  { rewrite (@wholePart_without_dot F _ Hpoint).
    destruct (truthy (fractionPart a)); cbn [wholePart];
      rewrite ?N.eqb_refl, app_nil_r, Hdigits; symmetry;
      now apply digits_id. }
  assert (E2 : firstn 2 (digits (fractionPart
                 (F ++ (if truthy (fractionPart a)
                        then chr_dot :: fractionPart a else []))))
               = fractionPart a).
  { rewrite (@fractionPart_without_dot F _ Hpoint).
    destruct (truthy (fractionPart a)) eqn:T.
    - cbn [fractionPart]. rewrite N.eqb_refl. exact Hd2.
    - apply truthy_false_nil in T. now rewrite T. }
  now rewrite E1, E2.
Qed.

Lemma formatAmount_round_trip_witness :
  digits (FormatFixtures.formatWhole (FormatFixtures.truncExact
            (JSNumber.Number (sanitizeAmountInput (js "1234567.5")))))
  = wholePart (sanitizeAmountInput (js "1234567.5"))
  /\ sanitizeAmountInput
       (NumberFormat.formatAmount FormatFixtures.formatWhole
          FormatFixtures.truncExact
          (NumberFormat.AmountString (sanitizeAmountInput (js "1234567.5"))))
     = sanitizeAmountInput (js "1234567.5").
Proof.
  split; [vm_compute; reflexivity |].
  apply (@formatAmount_round_trip FormatFixtures.formatWhole
           FormatFixtures.truncExact (js "1234567.5"));
    vm_compute; reflexivity.
Defined.

Example formatAmount_grouped :
  NumberFormat.formatAmount FormatFixtures.formatWhole
    FormatFixtures.truncExact (NumberFormat.AmountString (js "1234567.5"))
  = js "1,234,567.5".
Proof. vm_compute. reflexivity. Qed.

(** ** The expense form as a component *)

Lemma combineDateAndTime_returns
  (now : DateTime.Date) (parse : jsstring -> DateTime.DateObject)
  (formatISO : DateTime.Date -> jsstring)
  (date : jsstring) (time : option jsstring) :
  exists d : DateTime.Date,
    DateTime.combineDateAndTime now parse formatISO date time
    = Return (formatISO d).
Proof.
  unfold DateTime.combineDateAndTime. cbn zeta.
  destruct (negb (truthy date)); [now exists now |].
  match goal with
  | |- context [parse ?x] => destruct (parse x) as [d |]
  end; cbn [DateTime.isInvalid DateTime.toISOString]; eauto.
Qed.

Lemma toIsoString_returns
  (now : DateTime.Date) (parse : jsstring -> DateTime.DateObject)
  (formatISO : DateTime.Date -> jsstring) (localValue : option jsstring) :
  exists d : DateTime.Date,
    DateTime.toIsoString now parse formatISO localValue
    = Return (formatISO d).
Proof.
  unfold DateTime.toIsoString, DateTime.toDate. cbn zeta.
  destruct localValue as [v |]; [| now exists now].
  destruct (negb (truthy v)); [now exists now |].
  destruct (parse v) as [d |]; cbn [DateTime.isInvalid DateTime.toISOString];
    eauto.
Qed.

Section ExpenseFormFacts.

Variable now : DateTime.Date.
Variable parse : jsstring -> DateTime.DateObject.
Variable formatISO : DateTime.Date -> jsstring.
Variable toUpperCase : jsstring -> jsstring.

(** The payload that a valid form submits. *)
Lemma handleSubmit_valid (st : ExpenseForm.ExpenseFormState) :
  ExpenseForm.isFormValid now st = true ->
  exists d : DateTime.Date,
    ExpenseForm.handleSubmit now parse formatISO toUpperCase st
    = Return (Some
        {| ExpenseForm.p_amount := ExpenseForm.amount st;
           ExpenseForm.p_currency := toUpperCase (ExpenseForm.currency st);
           ExpenseForm.p_category := ExpenseForm.category st;
           ExpenseForm.p_payment_method := ExpenseForm.payment_method st;
           ExpenseForm.p_incurred_at := formatISO d;
           ExpenseForm.p_description :=
             ExpenseForm.orUndefined (ExpenseForm.description st);
           ExpenseForm.p_merchant :=
             ExpenseForm.orUndefined (ExpenseForm.merchant st);
           ExpenseForm.p_tags := ExpenseForm.submittedTags (ExpenseForm.tags st);
           ExpenseForm.p_receipt_image_path :=
             ExpenseForm.orUndefined (ExpenseForm.receipt_image_path st) |}).
Proof.
  intros V. unfold ExpenseForm.handleSubmit. rewrite V. cbn [negb].
  destruct (combineDateAndTime_returns now parse formatISO
              (ExpenseForm.incurred_date st)
              (Some (ExpenseForm.incurred_time st))) as [d1 ->].
  destruct (toIsoString_returns now parse formatISO (Some (formatISO d1)))
    as [d2 ->].
  now exists d2.
Qed.

Lemma handleSubmit_invalid (st : ExpenseForm.ExpenseFormState) :
  ExpenseForm.isFormValid now st = false ->
  ExpenseForm.handleSubmit now parse formatISO toUpperCase st = Return None.
Proof. intros V. unfold ExpenseForm.handleSubmit. now rewrite V. Qed.

Lemma isFormValid_fields (st : ExpenseForm.ExpenseFormState) :
  ExpenseForm.isFormValid now st
  = negb (amountRejected (ExpenseForm.amount st))
    && negb (blank (ExpenseForm.category st))
    && negb (blank (ExpenseForm.payment_method st))
    && negb (dateRejected now (ExpenseForm.incurred_date st)).
Proof.
  destruct (expense_errors_fieldwise now st) as (E1 & E2 & E3 & E4).
  cbn zeta in *. unfold ExpenseForm.isFormValid. cbn zeta.
  rewrite <- E1, <- E2, <- E3, <- E4.
  destruct (ExpenseForm.err_amount _), (ExpenseForm.err_category _),
    (ExpenseForm.err_payment_method _), (ExpenseForm.err_incurred_date _);
    reflexivity.
Qed.

End ExpenseFormFacts.

(** X6. Whatever the user types, loads or submits, the amount held by the
    expense form is a sanitized text: it is its own sanitization, it holds
    digits and at most one point, at most two digits follow the point, and
    [Number] reads it as a number. *)
Theorem reachable_amount_sanitized
  (parse : jsstring -> DateTime.DateObject)
  (formatISO : DateTime.Date -> jsstring)
  (toUpperCase : jsstring -> jsstring) (c : ExpenseFormUI.Component)
  (H : ExpenseFormUI.Reachable parse formatISO toUpperCase c) :
  let a := ExpenseForm.amount (ExpenseFormUI.state c) in
  sanitizeAmountInput a = a
  /\ Forall (fun x => allowedChar x = true) a
  /\ Forall (fun x => isDigit x = true) (wholePart a)
  /\ Forall (fun x => isDigit x = true) (fractionPart a)
  /\ List.length (fractionPart a) <= 2
  /\ JSNumber.isNaN (JSNumber.Number a) = false.
Proof.
  cbn zeta.
  assert (Hraw : exists raw,
            ExpenseForm.amount (ExpenseFormUI.state c)
            = sanitizeAmountInput raw).
  { induction H as [iv | now ev c c' Hc IH Hstep].
    - destruct iv as [iv |].
      + now exists (Types.expense_amount iv).
      + now exists [].
    - destruct ev as [field value | next | | isEdit onSubmit | iv];
        cbn [ExpenseFormUI.step] in Hstep.
      + injection Hstep as <-. destruct field; try exact IH.
        now exists value.
      + injection Hstep as <-. exact IH.
      + injection Hstep as <-. exact IH.
      + unfold ExpenseFormUI.submit in Hstep.
        destruct (ExpenseForm.handleSubmit now parse formatISO toUpperCase
                    (ExpenseFormUI.state c)) as [[p |] | e];
          [| injection Hstep as <-; exact IH | discriminate].
        destruct (onSubmit p); injection Hstep as <-; [| exact IH].
        destruct isEdit; [exact IH | now exists []].
      + injection Hstep as <-. destruct iv as [iv |].
        * now exists (Types.expense_amount iv).
        * now exists []. }
  destruct Hraw as [raw ->].
  destruct (sanitized_parts raw) as [Hw Hf].
  split; [apply sanitized_fixed |].
  split; [apply sanitized_allowed |].
  split; [exact Hw |].
  split; [rewrite Hf; apply sanitized_decimals_digits |].
  split; [rewrite Hf; apply firstn_le_length |].
  change (sanitizeAmountInput raw) with (sanitizeDecimal raw false).
  now rewrite sanitizeDecimal_Number.
Qed.

Lemma reachable_amount_sanitized_witness :
  ExpenseFormUI.Reachable Fixtures.parseLocal Fixtures.printISO
    Fixtures.upperASCII
    (ExpenseFormUI.withState
       (ExpenseFormUI.updateField ExpenseFormUI.F_amount (js "1,234.567"))
       (ExpenseFormUI.loadInitialValues Fixtures.parseLocal None))
  /\ sanitizeAmountInput (js "1234.56") = js "1234.56".
Proof.
  assert (R : ExpenseFormUI.Reachable Fixtures.parseLocal Fixtures.printISO
                Fixtures.upperASCII
                (ExpenseFormUI.withState
                   (ExpenseFormUI.updateField ExpenseFormUI.F_amount
                      (js "1,234.567"))
                   (ExpenseFormUI.loadInitialValues Fixtures.parseLocal None))).
  { apply (@ExpenseFormUI.reach_step Fixtures.parseLocal Fixtures.printISO
             Fixtures.upperASCII Fixtures.clock
             (ExpenseFormUI.Change ExpenseFormUI.F_amount (js "1,234.567"))
             _ _
             (@ExpenseFormUI.reach_mount Fixtures.parseLocal
                Fixtures.printISO Fixtures.upperASCII None)).
    reflexivity. }
  split; [exact R |].
  exact (proj1 (reachable_amount_sanitized R)).
Defined.

(** X7. [handleSubmit] never throws, and a payload reaches [onSubmit] only
    from a valid form: its amount is the form's amount and is strictly
    positive, its category and payment method are not blank, its tags are
    the normalized tags, its instant is the ISO text of a valid date, and
    the date field it came from is present and not after today. *)
Theorem submitted_payload_well_formed
  (now : DateTime.Date) (parse : jsstring -> DateTime.DateObject)
  (formatISO : DateTime.Date -> jsstring) (toUpperCase : jsstring -> jsstring)
  (st : ExpenseForm.ExpenseFormState) :
  (exists r, ExpenseForm.handleSubmit now parse formatISO toUpperCase st
             = Return r)
  /\ forall p : ExpenseForm.ExpensePayload,
       ExpenseForm.handleSubmit now parse formatISO toUpperCase st
       = Return (Some p) ->
       ExpenseForm.p_amount p = ExpenseForm.amount st
       /\ JSNumber.positive (JSNumber.Number (ExpenseForm.p_amount p))
       /\ blank (ExpenseForm.p_category p) = false
       /\ blank (ExpenseForm.p_payment_method p) = false
       /\ ExpenseForm.p_tags p
          = ExpenseForm.submittedTags (ExpenseForm.tags st)
       /\ (exists d, ExpenseForm.p_incurred_at p = formatISO d)
       /\ truthy (ExpenseForm.incurred_date st) = true
       /\ DateTime.isFutureDate now (Some (ExpenseForm.incurred_date st))
          = false.
Proof.
  destruct (ExpenseForm.isFormValid now st) eqn:V.
  - destruct (@handleSubmit_valid now parse formatISO toUpperCase st V) as [d Hd].
    split; [eauto |]. intros p Hp. rewrite Hd in Hp.
    injection Hp as <-.
    cbn [ExpenseForm.p_amount ExpenseForm.p_category
         ExpenseForm.p_payment_method ExpenseForm.p_tags
         ExpenseForm.p_incurred_at].
    rewrite isFormValid_fields in V.
    repeat (apply andb_prop in V; destruct V as [V ?]).
    repeat match goal with
           | H : negb _ = true |- _ => apply negb_true_iff in H
           end.
    split; [reflexivity |].
    split; [now apply accepted_amount_positive |].
    split; [assumption |]. split; [assumption |].
    split; [reflexivity |]. split; [now exists d |].
    match goal with
    | H : dateRejected _ _ = false |- _ =>
        unfold dateRejected in H; apply orb_false_iff in H;
        destruct H as [Hdate1 Hdate2]
    end.
    split; [now apply negb_false_iff in Hdate1 | exact Hdate2].
  - rewrite (@handleSubmit_invalid now parse formatISO toUpperCase st V).
    split; [eauto | discriminate].
Qed.

Lemma submitted_payload_well_formed_witness :
  match ExpenseForm.handleSubmit Fixtures.clock Fixtures.parseLocal
          Fixtures.printISO Fixtures.upperASCII
          (Fixtures.expenseDraft (js "12.50") (js "Food") (js "2026-11-01")
             (js "lunch, team"))
  with
  | Return (Some p) =>
      ExpenseForm.p_amount p = js "12.50"
      /\ JSNumber.positive (JSNumber.Number (ExpenseForm.p_amount p))
  | _ => False
  end.
Proof.
  destruct (ExpenseForm.handleSubmit Fixtures.clock Fixtures.parseLocal
              Fixtures.printISO Fixtures.upperASCII
              (Fixtures.expenseDraft (js "12.50") (js "Food")
                 (js "2026-11-01") (js "lunch, team")))
    as [[p |] | e] eqn:E; [| vm_compute in E; discriminate E
                            | vm_compute in E; discriminate E].
  destruct (proj2 (submitted_payload_well_formed Fixtures.clock
                     Fixtures.parseLocal Fixtures.printISO Fixtures.upperASCII
                     (Fixtures.expenseDraft (js "12.50") (js "Food")
                        (js "2026-11-01") (js "lunch, team"))) p E)
    as (Ha & Hp & _).
  split; [exact Ha | exact Hp].
Defined.

(** X8. What the form shows under a field. Once a submit has been tried,
    every validation message is shown. Before that no [required] message
    is shown: nothing under the category and the payment method, under the
    amount only the request for a positive amount, under the date only the
    future-date message. A message shown is always the validation message
    of that field. *)
Theorem getFieldError_visibility (now : DateTime.Date)
  (st : ExpenseForm.ExpenseFormState) (err : option jsstring)
  (field : ExpenseFormUI.ErrorField) :
  let validation :=
    ExpenseFormUI.lookupError
      (ExpenseForm.errors (ExpenseForm.validateExpense now st)) in
  let after :=
    {| ExpenseFormUI.state := st; ExpenseFormUI.error := err;
       ExpenseFormUI.hasSubmitted := true |} in
  let before :=
    {| ExpenseFormUI.state := st; ExpenseFormUI.error := err;
       ExpenseFormUI.hasSubmitted := false |} in
  ExpenseFormUI.getFieldError now after field = validation field
  /\ ExpenseFormUI.getFieldError now before ExpenseFormUI.E_category = None
  /\ ExpenseFormUI.getFieldError now before ExpenseFormUI.E_payment_method
     = None
  /\ ExpenseFormUI.getFieldError now before ExpenseFormUI.E_amount
     = (if blank (ExpenseForm.amount st) then None
        else if amountRejected (ExpenseForm.amount st)
        then Some (js "Enter a positive amount.") else None)
  /\ ExpenseFormUI.getFieldError now before ExpenseFormUI.E_incurred_date
     = (if DateTime.isFutureDate now (Some (ExpenseForm.incurred_date st))
        then Some (js "Incurred date cannot be in the future.") else None)
  /\ match ExpenseFormUI.getFieldError now before field with
     | Some m => validation field = Some m
     | None => True
     end.
Proof.
  cbn zeta. unfold ExpenseFormUI.getFieldError, ExpenseForm.validateExpense,
    amountRejected, blank, DateTime.isFutureDate.
  cbn [ExpenseFormUI.state ExpenseFormUI.hasSubmitted].
  destruct (truthy (trim (ExpenseForm.amount st)));
    destruct (JSNumber.isNaN (JSNumber.Number (ExpenseForm.amount st)));
    destruct (JSNumber.leZero (JSNumber.Number (ExpenseForm.amount st)));
    destruct (truthy (trim (ExpenseForm.category st)));
    destruct (truthy (trim (ExpenseForm.payment_method st)));
    destruct (truthy (ExpenseForm.incurred_date st));
    destruct (gtb (ExpenseForm.incurred_date st)
                (DateTime.getTodayIsoDate now));
    destruct field; cbn; repeat split; reflexivity.
Qed.

(** X9. A submit never throws. The fields are cleared only by a create
    that succeeded: in every other case the state is what it was. The
    form ends without an error message exactly when the payload was
    accepted by [onSubmit]. *)
Theorem submit_clears_only_after_success
  (now : DateTime.Date) (parse : jsstring -> DateTime.DateObject)
  (formatISO : DateTime.Date -> jsstring) (toUpperCase : jsstring -> jsstring)
  (isEdit : bool)
  (onSubmit : ExpenseForm.ExpensePayload -> outcome unit)
  (c : ExpenseFormUI.Component) :
  let saved :=
    exists p, ExpenseForm.handleSubmit now parse formatISO toUpperCase
                (ExpenseFormUI.state c) = Return (Some p)
              /\ onSubmit p = Return tt in
  exists c' : ExpenseFormUI.Component,
    ExpenseFormUI.submit now parse formatISO toUpperCase isEdit onSubmit c
    = Return c'
    /\ (ExpenseFormUI.state c' = ExpenseFormUI.state c
        \/ (isEdit = false /\ saved
            /\ ExpenseFormUI.state c' = ExpenseFormUI.emptyState))
    /\ (ExpenseFormUI.error c' = None <-> saved)
    /\ (ExpenseFormUI.hasSubmitted c' = false <-> saved).
Proof.
  cbn zeta. unfold ExpenseFormUI.submit.
  destruct (ExpenseForm.isFormValid now (ExpenseFormUI.state c)) eqn:V.
  - destruct (@handleSubmit_valid now parse formatISO toUpperCase
                (ExpenseFormUI.state c) V) as [d ->].
    match goal with
    | |- context [onSubmit ?p] => set (payload := p)
    end.
    destruct (onSubmit payload) as [[] | e] eqn:O.
    + eexists. split; [reflexivity |].
      cbn [ExpenseFormUI.state ExpenseFormUI.error ExpenseFormUI.hasSubmitted].
      assert (S : exists p, Return (Some payload) = Return (Some p)
                            /\ onSubmit p = Return tt)
        by (exists payload; split; [reflexivity | exact O]).
      split; [| split; split; auto].
      destruct isEdit; cbn [negb]; [now left | right; auto].
    + eexists. split; [reflexivity |].
      cbn [ExpenseFormUI.state ExpenseFormUI.error ExpenseFormUI.hasSubmitted].
      split; [now left |].
      split; split; try discriminate;
        intros (p & Hp & Ho); injection Hp as <-; rewrite O in Ho;
        discriminate.
  - rewrite (@handleSubmit_invalid now parse formatISO toUpperCase
               (ExpenseFormUI.state c) V).
    eexists. split; [reflexivity |].
    cbn [ExpenseFormUI.state ExpenseFormUI.error ExpenseFormUI.hasSubmitted].
    split; [now left |].
    split; split; try discriminate; intros (p & Hp & _); discriminate.
Qed.

(** ** Date and time fields *)

Lemma date_string_equal (t now : DateTime.Date) :
  validLocal t -> validLocal now ->
  DateTime.localDateString t = DateTime.localDateString now -> sameDay t now.
Proof.
  intros Ht Hn E.
  pose proof (proj2 (date_string_order Ht Hn)) as A.
  pose proof (proj2 (date_string_order Hn Ht)) as B.
  rewrite E in A. rewrite E in B. rewrite compare_refl in A, B.
  assert (~ dayAfter t now) as NA by (intros D; now apply A in D).
  assert (~ dayAfter now t) as NB by (intros D; now apply B in D).
  unfold dayAfter, sameDay in *. lia.
Qed.

Lemma pad_shape (n : N) :
  (n <= 99)%N ->
  exists a b : codeunit,
    DateTime.pad n = [a; b] /\ isDigit a = true /\ isDigit b = true.
Proof.
  intros Hn. destruct (two_digits Hn) as (a & b & (Ha & Hb & _) & ->).
  exists (48 + a)%N, (48 + b)%N. split; [reflexivity |].
  unfold isDigit. split; apply andb_true_iff; split; apply N.leb_le; lia.
Qed.

(** X10. For a date that a calendar shows (four-digit year), the date and
    time fields of the forms are well formed, [dddd-dd-dd] and [dd:dd];
    the value for a date-time input is the two joined by [T] and the
    listing text the two joined by a space; and the date field determines
    the calendar day. *)
Theorem date_fields_well_formed
  (parse : jsstring -> DateTime.DateObject) (iso : jsstring)
  (d : DateTime.Date)
  (Hiso : truthy iso = true) (Hparse : parse iso = DateTime.ValidDate d)
  (Hvalid : validLocal d) :
  Shapes.dateShaped (DateTime.toLocalDateInput parse (Some iso)) = true
  /\ Shapes.timeShaped (DateTime.toLocalTimeInput parse (Some iso)) = true
  /\ DateTimeDisplay.toLocalInputValue parse (Some iso)
     = DateTime.toLocalDateInput parse (Some iso) ++ js "T"
       ++ DateTime.toLocalTimeInput parse (Some iso)
  /\ DateTimeDisplay.formatDateTime parse iso
     = DateTime.toLocalDateInput parse (Some iso) ++ js " "
       ++ DateTime.toLocalTimeInput parse (Some iso)
  /\ (forall iso' d',
        truthy iso' = true -> parse iso' = DateTime.ValidDate d' ->
        validLocal d' ->
        DateTime.toLocalDateInput parse (Some iso')
        = DateTime.toLocalDateInput parse (Some iso) ->
        sameDay d' d).
Proof.
  assert (Hdate : forall i x, truthy i = true ->
            parse i = DateTime.ValidDate x ->
            DateTime.toLocalDateInput parse (Some i)
            = DateTime.localDateString x).
  { intros i x Ti Pi. unfold DateTime.toLocalDateInput, DateTime.toDate.
    now rewrite Ti, Pi. }
  assert (Htime : DateTime.toLocalTimeInput parse (Some iso)
                  = DateTime.localTimeString d).
  { unfold DateTime.toLocalTimeInput, DateTime.toDate.
    now rewrite Hiso, Hparse. }
  rewrite (Hdate iso d Hiso Hparse), Htime.
  split; [| split; [| split; [| split]]].
  - unfold validLocal in Hvalid. unfold DateTime.localDateString.
    destruct (@four_digits (DateTime.getFullYear d))
      as (a3 & a2 & a1 & a0 & Ha & ->); [lia |].
    destruct (@pad_shape (DateTime.getMonth d + 1)) as (m1 & m0 & -> & M1 & M0);
      [lia |].
    destruct (@pad_shape (DateTime.getDate d)) as (e1 & e0 & -> & E1 & E0);
      [lia |].
    cbn [app js List.map list_ascii_of_string Shapes.dateShaped].
    rewrite M1, M0, E1, E0.
    assert (forall a, (a < 10)%N -> isDigit (48 + a)%N = true) as Dg.
    { intros a L. unfold isDigit. apply andb_true_iff.
      split; apply N.leb_le; lia. }
    rewrite !Dg by lia. reflexivity.
  - unfold validLocal in Hvalid. unfold DateTime.localTimeString.
    destruct (@pad_shape (DateTime.getHours d)) as (h1 & h0 & -> & H1 & H0);
      [lia |].
    destruct (@pad_shape (DateTime.getMinutes d)) as (n1 & n0 & -> & N1 & N0);
      [lia |].
    cbn [app js List.map list_ascii_of_string Shapes.timeShaped].
    now rewrite H1, H0, N1, N0.
  - unfold DateTimeDisplay.toLocalInputValue, DateTime.toDate,
      DateTime.localDateString, DateTime.localTimeString.
    rewrite Hiso, Hparse. cbn [negb DateTime.isInvalid].
    now rewrite <- !app_assoc.
  - unfold DateTimeDisplay.formatDateTime, DateTime.toDate,
      DateTime.localDateString, DateTime.localTimeString.
    rewrite Hiso, Hparse. cbn [negb DateTime.isInvalid].
    now rewrite <- !app_assoc.
  - intros iso' d' Ti Pi Vi E. rewrite (Hdate iso' d' Ti Pi) in E.
    now apply date_string_equal.
Qed.

Lemma date_fields_well_formed_witness :
  Fixtures.parseLocal (js "2026-11-02T18:00") = DateTime.ValidDate Fixtures.laterToday
  /\ Shapes.dateShaped
       (DateTime.toLocalDateInput Fixtures.parseLocal
          (Some (js "2026-11-02T18:00"))) = true.
Proof.
  split; [reflexivity |].
  apply (@date_fields_well_formed Fixtures.parseLocal (js "2026-11-02T18:00")
           Fixtures.laterToday).
  - reflexivity.
  - reflexivity.
  - unfold validLocal; cbn; lia.
Defined.

Example missing_date_fields :
  DateTime.toLocalDateInput Fixtures.parseLocal None = []
  /\ DateTime.toLocalDateInput Fixtures.parseLocal (Some (js "yesterday")) = []
  /\ DateTimeDisplay.formatDateTime Fixtures.parseLocal (js "yesterday")
     = js "yesterday".
Proof. repeat split; reflexivity. Qed.




(** ** The list hooks, whatever the server answers *)

(** ** The list hooks, whatever the server answers *)

Section ListHookAlways.

Variables Item Payload PartialPayload Server : Type.
Variable path : jsstring.
Variable api : ListHook.Api Item Payload PartialPayload Server.

Lemma list_failure_settled (w : ListHook.World Item Server) (m : Request)
  (e : JSError) (sv : Server)
  (res : outcome unit * ListHook.World Item Server) :
  keptOnFailure w m e sv res -> HookOutcomes.settled path w m res.
Proof.
  unfold keptOnFailure, HookOutcomes.settled. cbn zeta.
  intros (R & I & T & L & E & S & _ & G).
  split; [exact S |]. right. exists e. split; [exact R |]. split; [| exact G].
  destruct (ListHook.state (snd res)); cbn in *. congruence.
Qed.

Lemma list_success_settled (w : ListHook.World Item Server) (m : Request)
  (sv : Server) (res : outcome unit * ListHook.World Item Server) :
  ListHook.loading (ListHook.state (snd res)) = false ->
  refetched path api w m sv res -> HookOutcomes.settled path w m res.
Proof.
  unfold refetched, HookOutcomes.settled. cbn zeta.
  intros L (R & G & S & E & _).
  split; [exact S |]. left. auto.
Qed.

Lemma refresh_loading_off (w : ListHook.World Item Server) :
  ListHook.loading (ListHook.state (snd (ListHook.refresh path api w)))
  = false.
Proof.
  rewrite refresh_run.
  destruct (ListHook.api_get api (ListHook.server w)) as [[e | data] sv];
    reflexivity.
Qed.

Ltac run_mutation H :=
  unfold ListHook.create, ListHook.update, ListHook.remove;
  unfold finally, tryCatch, bind, throw,
    ListHook.setSubmitting, ListHook.setError, ListHook.setState, modify;
  unfold ListHook.request;
  cbn -[ListHook.refresh]; rewrite H; cbn -[ListHook.refresh];
  rewrite refresh_run; cbn;
  match goal with
  | |- context [ListHook.api_get api ?sv] =>
      destruct (ListHook.api_get api sv) as [[e' | data] sv']
  end; reflexivity.

Lemma create_loading_off (w : ListHook.World Item Server) (payload : Payload)
  (created : Item) (sv : Server) :
  ListHook.api_post api payload (ListHook.server w) = (inr created, sv) ->
  ListHook.loading
    (ListHook.state (snd (ListHook.create path api payload w))) = false.
Proof. intros H. run_mutation H. Qed.

Lemma update_loading_off (w : ListHook.World Item Server) (i : jsstring)
  (payload : PartialPayload) (updated : Item) (sv : Server) :
  ListHook.api_put api i payload (ListHook.server w) = (inr updated, sv) ->
  ListHook.loading
    (ListHook.state (snd (ListHook.update path api i payload w))) = false.
Proof. intros H. run_mutation H. Qed.

Lemma remove_loading_off (w : ListHook.World Item Server) (i : jsstring)
  (sv : Server) :
  ListHook.api_delete api i (ListHook.server w) = (inr tt, sv) ->
  ListHook.loading
    (ListHook.state (snd (ListHook.remove path api i w))) = false.
Proof. intros H. run_mutation H. Qed.

End ListHookAlways.

(** X12. A refresh of the expense or income hook never throws. It sends
    the list request and nothing else, ends with [loading] off and leaves
    [submitting] alone; if the request succeeds the hook holds the items
    and total of the response and no error, and if it fails the hook holds
    the items and total it held, now stale, and the message of the
    failure. *)
Theorem refresh_never_throws
  (Item Payload PartialPayload Server : Type) (path : jsstring)
  (api : ListHook.Api Item Payload PartialPayload Server)
  (w : ListHook.World Item Server) :
  let res := ListHook.refresh path api w in
  let s' := ListHook.state (snd res) in
  fst res = Return tt
  /\ ListHook.loading s' = false
  /\ ListHook.submitting s' = ListHook.submitting (ListHook.state w)
  /\ ListHook.log (snd res)
     = ListHook.log w ++ [{| method := GET; url := path |}]
  /\ ListHook.server (snd res)
     = snd (ListHook.api_get api (ListHook.server w))
  /\ match fst (ListHook.api_get api (ListHook.server w)) with
     | inr data =>
         ListHook.items s' = ListHook.resp_items data
         /\ ListHook.total s' = ListHook.resp_total data
         /\ ListHook.error s' = None
     | inl e =>
         ListHook.items s' = ListHook.items (ListHook.state w)
         /\ ListHook.total s' = ListHook.total (ListHook.state w)
         /\ ListHook.error s' = Some (Errors.getApiErrorMessage e)
     end.
Proof.
  cbn zeta. rewrite refresh_run.
  destruct (ListHook.api_get api (ListHook.server w)) as [[e | data] sv];
    cbn; repeat split; reflexivity.
Qed.

(** X13. Whatever the server answers, a create, update or remove of the
    expense or income hook ends with [submitting] off, and in one of two
    ways only: normally, with no error shown, [loading] off and the list
    request sent right after the mutation; or by throwing the error of
    the mutation, with its message shown, everything else as before and
    no list request sent. A failure of the list request is never thrown. *)
Theorem mutation_always_settles
  (Item Payload PartialPayload Server : Type) (path : jsstring)
  (api : ListHook.Api Item Payload PartialPayload Server)
  (w : ListHook.World Item Server) (i : jsstring)
  (payload : Payload) (partial : PartialPayload) :
  HookOutcomes.settled path w {| method := POST; url := path |}
    (ListHook.create path api payload w)
  /\ HookOutcomes.settled path w
       {| method := PUT; url := ListHook.itemUrl path i |}
       (ListHook.update path api i partial w)
  /\ HookOutcomes.settled path w
       {| method := DELETE; url := ListHook.itemUrl path i |}
       (ListHook.remove path api i w).
Proof.
  split; [| split].
  - destruct (ListHook.api_post api payload (ListHook.server w))
      as [[e | created] sv] eqn:E.
    + eapply list_failure_settled. eapply create_failure. exact E.
    + eapply list_success_settled;
        [eapply create_loading_off; eassumption
        | eapply create_success; eassumption].
  - destruct (ListHook.api_put api i partial (ListHook.server w))
      as [[e | updated] sv] eqn:E.
    + eapply list_failure_settled. eapply update_failure. exact E.
    + eapply list_success_settled;
        [eapply update_loading_off; eassumption
        | eapply update_success; eassumption].
  - destruct (ListHook.api_delete api i (ListHook.server w))
      as [[e | []] sv] eqn:E.
    + eapply list_failure_settled. eapply remove_failure. exact E.
    + eapply list_success_settled;
        [eapply remove_loading_off; eassumption
        | eapply remove_success; eassumption].
Qed.

(** ** The category hook, whatever the server answers *)

Lemma filter_strongly_sorted (A : Type) (R : A -> A -> Prop)
  (f : A -> bool) (l : list A) :
  StronglySorted R l -> StronglySorted R (filter f l).
Proof.
  induction 1 as [| a l Hl IH Ha]; [constructor |].
  cbn [filter]. destruct (f a); [| exact IH].
  constructor; [exact IH |].
  apply Forall_forall. intros x Hx. apply filter_In in Hx.
  rewrite Forall_forall in Ha. now apply Ha.
Qed.

Lemma sortCategories_sorted (sortKey : jsstring -> list N)
  (l : list Types.Category) :
  StronglySorted (nameOrdered sortKey) (useCategories.sortCategories sortKey l).
Proof.
  unfold useCategories.sortCategories. apply sort_sorted.
  - apply category_cmp_total.
  - apply category_cmp_trans.
Qed.

Lemma sortCategories_perm (sortKey : jsstring -> list N)
  (l : list Types.Category) :
  Permutation l (useCategories.sortCategories sortKey l).
Proof. unfold useCategories.sortCategories. apply sort_perm. Qed.

Section CategoryHookAlways.

Variable sortKey : jsstring -> list N.
Variable Server : Type.
Variable api : useCategories.Api Server.

Ltac run_category :=
  unfold HookOutcomes.categoryKept,
    useCategories.refresh, useCategories.create, useCategories.update,
    useCategories.remove;
  unfold finally, tryCatch, bind, throw, ret, useCategories.request,
    useCategories.setSubmitting, useCategories.setLoading,
    useCategories.setError, useCategories.setItems, useCategories.setState,
    modify;
  cbn -[useCategories.sortCategories].

Lemma category_refresh_run (w : useCategories.World Server) :
  useCategories.refresh sortKey api w =
    let (r, sv) := useCategories.api_get api (useCategories.server w) in
    let lg := useCategories.log w
                ++ [{| method := GET; url := useCategories.path |}] in
    let st := useCategories.state w in
    match r with
    | inr data =>
        (Return tt,
         {| useCategories.state :=
              {| useCategories.items :=
                   useCategories.sortCategories sortKey
                     (useCategories.resp_items data);
                 useCategories.loading := false;
                 useCategories.submitting := useCategories.submitting st;
                 useCategories.error := None |};
            useCategories.server := sv; useCategories.log := lg |})
    | inl e =>
        (Return tt,
         {| useCategories.state :=
              {| useCategories.items := useCategories.items st;
                 useCategories.loading := false;
                 useCategories.submitting := useCategories.submitting st;
                 useCategories.error := Some (Errors.getApiErrorMessage e) |};
            useCategories.server := sv; useCategories.log := lg |})
    end.
Proof.
  run_category.
  destruct (useCategories.api_get api (useCategories.server w))
    as [[e | data] sv]; reflexivity.
Qed.

Lemma category_create_fails (w : useCategories.World Server)
  (payload : useCategories.CategoryPayload) (e : JSError) (sv : Server) :
  useCategories.api_post api payload (useCategories.server w) = (inl e, sv) ->
  HookOutcomes.categoryKept w
    {| method := POST; url := useCategories.path |} e sv
    (useCategories.create sortKey api payload w).
Proof. intros H. run_category. rewrite H. cbn. repeat split; reflexivity. Qed.

Lemma category_update_fails (w : useCategories.World Server) (i : jsstring)
  (payload : useCategories.CategoryPayload) (e : JSError) (sv : Server) :
  useCategories.api_put api i payload (useCategories.server w) = (inl e, sv) ->
  HookOutcomes.categoryKept w
    {| method := PUT; url := useCategories.itemUrl i |} e sv
    (useCategories.update sortKey api i payload w).
Proof. intros H. run_category. rewrite H. cbn. repeat split; reflexivity. Qed.

Lemma category_remove_fails (w : useCategories.World Server) (i : jsstring)
  (e : JSError) (sv : Server) :
  useCategories.api_delete api i (useCategories.server w) = (inl e, sv) ->
  HookOutcomes.categoryKept w
    {| method := DELETE; url := useCategories.itemUrl i |} e sv
    (useCategories.remove api i w).
Proof. intros H. run_category. rewrite H. cbn. repeat split; reflexivity. Qed.

Lemma after_steady (call : CategoryHistory.Call)
  (w : useCategories.World Server) :
  HookOutcomes.steady sortKey w ->
  HookOutcomes.steady sortKey (CategoryHistory.after sortKey api call w)
  /\ List.length (useCategories.log (CategoryHistory.after sortKey api call w))
     = S (List.length (useCategories.log w)).
Proof.
  unfold HookOutcomes.steady. intros (S1 & S2 & S3).
  destruct call as [| payload | i payload | i]; unfold CategoryHistory.after.
  - rewrite category_refresh_run.
    destruct (useCategories.api_get api (useCategories.server w))
      as [[e | data] sv]; cbn -[useCategories.sortCategories];
      rewrite length_app; cbn [List.length];
      (split; [split; [| split]; auto using sortCategories_sorted | lia]).
  - run_category.
    destruct (useCategories.api_post api payload (useCategories.server w))
      as [[e | data] sv]; cbn -[useCategories.sortCategories];
      rewrite length_app; cbn [List.length];
      (split; [split; [| split]; auto using sortCategories_sorted | lia]).
  - run_category.
    destruct (useCategories.api_put api i payload (useCategories.server w))
      as [[e | data] sv]; cbn -[useCategories.sortCategories];
      rewrite length_app; cbn [List.length];
      (split; [split; [| split]; auto using sortCategories_sorted | lia]).
  - run_category.
    destruct (useCategories.api_delete api i (useCategories.server w))
      as [[e | []] sv]; cbn -[useCategories.sortCategories];
      rewrite length_app; cbn [List.length];
      (split; [split; [| split];
                 auto using sortCategories_sorted, filter_strongly_sorted
              | lia]).
Qed.

Lemma afterAll_steady (calls : list CategoryHistory.Call)
  (w : useCategories.World Server) :
  HookOutcomes.steady sortKey w ->
  HookOutcomes.steady sortKey (CategoryHistory.afterAll sortKey api calls w)
  /\ List.length
       (useCategories.log (CategoryHistory.afterAll sortKey api calls w))
     = List.length calls + List.length (useCategories.log w).
Proof.
  revert w. induction calls as [| call calls IH]; intros w Hw.
  - split; [exact Hw | reflexivity].
  - cbn [CategoryHistory.afterAll fold_left].
    destruct (after_steady call Hw) as [Hs Hl].
    destruct (IH _ Hs) as [Hs' Hl'].
    split; [exact Hs' |].
    unfold CategoryHistory.afterAll in Hl'. rewrite Hl', Hl.
    cbn [List.length]. lia.
Qed.

End CategoryHookAlways.

(** X14. Starting from the mounted hook, after any sequence of refresh,
    create, update and remove calls and whatever the server answered to
    each, the categories held are sorted by name, neither [loading] nor
    [submitting] is left on, and exactly one request was sent per call. *)
Theorem categories_always_sorted
  (sortKey : jsstring -> list N) (Server : Type)
  (api : useCategories.Api Server) (sv : Server)
  (calls : list CategoryHistory.Call) :
  let w := CategoryHistory.afterAll sortKey api calls
             (CategoryHistory.mounted sv) in
  StronglySorted (nameOrdered sortKey)
    (useCategories.items (useCategories.state w))
  /\ useCategories.loading (useCategories.state w) = false
  /\ useCategories.submitting (useCategories.state w) = false
  /\ List.length (useCategories.log w) = List.length calls.
Proof.
  cbn zeta.
  assert (H0 : HookOutcomes.steady sortKey (CategoryHistory.mounted sv))
    by (repeat split; constructor).
  destruct (afterAll_steady api calls H0) as [(S1 & S2 & S3) L].
  repeat split; try assumption.
  rewrite L. cbn. lia.
Qed.

(** X15. When the request of a category create, update or remove fails,
    the call throws the error it got, the categories held are those held
    before, the message of the failure is shown, [submitting] is off and
    nothing else was sent. *)
Theorem category_failure_keeps_items
  (sortKey : jsstring -> list N) (Server : Type)
  (api : useCategories.Api Server) (w : useCategories.World Server)
  (e : JSError) :
  (forall payload sv,
     useCategories.api_post api payload (useCategories.server w)
     = (inl e, sv) ->
     HookOutcomes.categoryKept w
       {| method := POST; url := js "/categories" |} e sv
       (useCategories.create sortKey api payload w))
  /\ (forall i payload sv,
     useCategories.api_put api i payload (useCategories.server w)
     = (inl e, sv) ->
     HookOutcomes.categoryKept w
       {| method := PUT; url := js "/categories/" ++ i |} e sv
       (useCategories.update sortKey api i payload w))
  /\ (forall i sv,
     useCategories.api_delete api i (useCategories.server w) = (inl e, sv) ->
     HookOutcomes.categoryKept w
       {| method := DELETE; url := js "/categories/" ++ i |} e sv
       (useCategories.remove api i w)).
Proof.
  split; [intros; now apply category_create_fails |].
  split; [intros; now apply category_update_fails |].
  intros; now apply category_remove_fails.
Qed.

Lemma category_failure_keeps_items_witness :
  useCategories.api_post ServerFixtures.categoryServerRefusing
    {| useCategories.payload_name := js "rent" |}
    (useCategories.server ServerFixtures.holdingRent)
  = (inl ServerFixtures.conflict, tt)
  /\ HookOutcomes.categoryKept ServerFixtures.holdingRent
       {| method := POST; url := js "/categories" |}
       ServerFixtures.conflict tt
       (useCategories.create Intl.asciiBaseKey
          ServerFixtures.categoryServerRefusing
          {| useCategories.payload_name := js "rent" |}
          ServerFixtures.holdingRent).
Proof.
  split; [reflexivity |].
  apply (proj1 (category_failure_keeps_items Intl.asciiBaseKey
                  ServerFixtures.categoryServerRefusing
                  ServerFixtures.holdingRent ServerFixtures.conflict)).
  reflexivity.
Defined.

Example refused_create_message :
  useCategories.error
    (useCategories.state
       (snd (useCategories.create Intl.asciiBaseKey
               ServerFixtures.categoryServerRefusing
               {| useCategories.payload_name := js "rent" |}
               ServerFixtures.holdingRent)))
  = Some (js "Duplicate category: Rent already exists").
Proof. vm_compute. reflexivity. Qed.

Lemma jsstring_eqb_true (a b : jsstring) : jsstring_eqb a b = true <-> a = b.
Proof.
  unfold jsstring_eqb. destruct (list_eq_dec N.eq_dec a b); split;
    congruence.
Qed.

Lemma jsstring_eqb_false (a b : jsstring) :
  jsstring_eqb a b = false <-> a <> b.
Proof.
  unfold jsstring_eqb. destruct (list_eq_dec N.eq_dec a b); split;
    congruence.
Qed.

Lemma replace_absent (i : jsstring) (data : Types.Category)
  (l : list Types.Category) :
  (forall c0, In c0 l -> Types.id c0 <> i) ->
  List.map (fun item => if jsstring_eqb (Types.id item) i then data else item) l
  = l.
Proof.
  induction l as [| c0 l IH]; intros Hnone; [reflexivity |].
  cbn [List.map]. rewrite IH by (intros x Hx; apply Hnone; now right).
  assert (Types.id c0 <> i) as Hn by (apply Hnone; now left).
  apply jsstring_eqb_false in Hn. now rewrite Hn.
Qed.

Lemma filter_shorter (A : Type) (f : A -> bool) (l : list A) :
  List.length (filter f l) <= List.length l.
Proof.
  induction l as [| a l IH]; [reflexivity |].
  cbn [filter]. destruct (f a); cbn [List.length]; lia.
Qed.

(** X16. What the client holds after a category mutation that the server
    accepted. After a create: the categories held before and the one the
    server returned, one more in all. After an update of [i]: the same
    number of categories, those with another identifier untouched and
    every one with identifier [i] replaced by what the server returned;
    if none was held with that identifier, nothing is added. After a
    remove of [i]: the categories held before with another identifier, in
    the order they were in, and none with identifier [i]. *)
Theorem category_mutation_membership
  (sortKey : jsstring -> list N) (Server : Type)
  (api : useCategories.Api Server) (w : useCategories.World Server)
  (i : jsstring) (payload : useCategories.CategoryPayload)
  (data : Types.Category) (sv : Server) :
  let held := useCategories.items (useCategories.state w) in
  (useCategories.api_post api payload (useCategories.server w)
   = (inr data, sv) ->
   let held' := useCategories.items (useCategories.state
                  (snd (useCategories.create sortKey api payload w))) in
   Permutation (held ++ [data]) held'
   /\ List.length held' = S (List.length held)
   /\ forall c, In c held' <-> In c held \/ c = data)
  /\ (useCategories.api_put api i payload (useCategories.server w)
      = (inr data, sv) ->
      let held' := useCategories.items (useCategories.state
                     (snd (useCategories.update sortKey api i payload w))) in
      List.length held' = List.length held
      /\ (forall c, In c held' <->
                    (In c held /\ Types.id c <> i)
                    \/ (c = data /\ exists c0, In c0 held /\ Types.id c0 = i))
      /\ ((forall c0, In c0 held -> Types.id c0 <> i) ->
          Permutation held held'))
  /\ (useCategories.api_delete api i (useCategories.server w)
      = (inr tt, sv) ->
      let held' := useCategories.items (useCategories.state
                     (snd (useCategories.remove api i w))) in
      held' = filter (fun c => negb (jsstring_eqb (Types.id c) i)) held
      /\ List.length held' <= List.length held
      /\ forall c, In c held' <-> In c held /\ Types.id c <> i).
Proof.
  cbn zeta. split; [| split].
  - intros H.
    destruct (category_create_merges sortKey api w payload H)
      as (_ & _ & _ & ->).
    pose proof (sortCategories_perm sortKey
                  (useCategories.items (useCategories.state w) ++ [data]))
      as P.
    split; [exact P |]. split.
    + rewrite <- (Permutation_length P), length_app. cbn [List.length]. lia.
    + intros c. split.
      * intros Hc. apply (Permutation_in _ (Permutation_sym P)) in Hc.
        apply in_app_or in Hc. destruct Hc as [Hc | [Hc | []]]; auto.
      * intros Hc. apply (Permutation_in _ P). apply in_or_app.
        destruct Hc as [Hc | ->]; [now left | right; now left].
  - intros H.
    destruct (category_update_merges sortKey api w i payload H)
      as (_ & _ & _ & ->).
    set (repl := fun item : Types.Category =>
                   if jsstring_eqb (Types.id item) i then data else item).
    pose proof (sortCategories_perm sortKey
                  (List.map repl
                     (useCategories.items (useCategories.state w)))) as P.
    split; [| split].
    + now rewrite <- (Permutation_length P), length_map.
    + intros c. split.
      * intros Hc. apply (Permutation_in _ (Permutation_sym P)) in Hc.
        apply in_map_iff in Hc. destruct Hc as (c0 & E & Hc0).
        unfold repl in E.
        destruct (jsstring_eqb (Types.id c0) i) eqn:B.
        -- right. split; [now symmetry |]. exists c0.
           split; [exact Hc0 | now apply jsstring_eqb_true].
        -- left. subst c0. split; [exact Hc0 | now apply jsstring_eqb_false].
      * intros Hc. apply (Permutation_in _ P). apply in_map_iff.
        destruct Hc as [[Hc Hn] | [-> (c0 & Hc0 & E)]].
        -- exists c. split; [| exact Hc]. unfold repl.
           apply jsstring_eqb_false in Hn. now rewrite Hn.
        -- exists c0. split; [| exact Hc0]. unfold repl.
           apply jsstring_eqb_true in E. now rewrite E.
    + intros Hnone. unfold repl.
      rewrite (replace_absent data _ Hnone). apply sortCategories_perm.
  - intros H.
    destruct (category_remove_merges api w i H) as (_ & _ & _ & ->).
    split; [reflexivity |]. split.
    + apply filter_shorter.
    + intros c. rewrite filter_In, negb_true_iff, jsstring_eqb_false.
      reflexivity.
Qed.

Lemma category_mutation_membership_witness :
  useCategories.api_delete Fixtures.categoryServer (js "1")
    (useCategories.server ServerFixtures.holdingTwo)
  = (inr tt, [Fixtures.food])
  /\ useCategories.items
       (useCategories.state
          (snd (useCategories.remove Fixtures.categoryServer (js "1")
                  ServerFixtures.holdingTwo)))
     = filter (fun c => negb (jsstring_eqb (Types.id c) (js "1")))
         [Fixtures.food; Fixtures.rent].
Proof.
  split; [reflexivity |].
  pose proof (@category_mutation_membership Intl.asciiBaseKey _
                Fixtures.categoryServer ServerFixtures.holdingTwo (js "1")
                {| useCategories.payload_name := js "Rent" |}
                Fixtures.rent [Fixtures.food]) as (_ & _ & H).
  exact (proj1 (H eq_refl)).
Defined.

(** X17. A refresh of the category hook never throws. If the list request
    succeeds the hook holds exactly the categories of the response,
    sorted by name, and no error; if it fails the hook holds what it held
    and the message of the failure. [loading] ends off either way. *)
Theorem category_refresh_never_throws
  (sortKey : jsstring -> list N) (Server : Type)
  (api : useCategories.Api Server) (w : useCategories.World Server) :
  let res := useCategories.refresh sortKey api w in
  let s' := useCategories.state (snd res) in
  fst res = Return tt
  /\ useCategories.loading s' = false
  /\ useCategories.log (snd res)
     = useCategories.log w ++ [{| method := GET; url := js "/categories" |}]
  /\ match fst (useCategories.api_get api (useCategories.server w)) with
     | inr data =>
         Permutation (useCategories.resp_items data) (useCategories.items s')
         /\ StronglySorted (nameOrdered sortKey) (useCategories.items s')
         /\ useCategories.error s' = None
     | inl e =>
         useCategories.items s' = useCategories.items (useCategories.state w)
         /\ useCategories.error s' = Some (Errors.getApiErrorMessage e)
     end.
Proof.
  cbn zeta. rewrite category_refresh_run.
  destruct (useCategories.api_get api (useCategories.server w))
    as [[e | data] sv]; cbn -[useCategories.sortCategories].
  - repeat split; reflexivity.
  - split; [reflexivity |]. split; [reflexivity |]. split; [reflexivity |].
    split; [apply sortCategories_perm |].
    split; [apply sortCategories_sorted | reflexivity].
Qed.

(** ** App: list and summary *)

Section AppFacts.

Variable Server : Type.
Variable expenseApi
  : ListHook.Api Types.Expense ExpenseForm.ExpensePayload
      ExpenseForm.ExpensePayload Server.
Variable incomeApi
  : ListHook.Api Types.Income IncomeForm.IncomePayload
      IncomeForm.IncomePayload Server.
Variable summaryApi
  : Server -> (JSError + useSummary.SummaryResponse) * Server.

Ltac run_app :=
  unfold HookOutcomes.synced, HookOutcomes.aborted,
    App.expenseOnSubmit, App.incomeOnSubmit,
    App.expenseOnDelete, App.incomeOnDelete,
    App.handleExpenseCreate, App.handleExpenseUpdate,
    App.handleIncomeCreate, App.handleIncomeUpdate,
    App.closeExpenseModal, App.closeIncomeModal, App.summaryRefresh,
    App.onExpenses, App.onIncomes, App.onSummary,
    App.setEditingExpense, App.setEditingIncome,
    App.setExpenseModalOpen, App.setIncomeModalOpen, App.get,
    useExpenses.create, useExpenses.update, useExpenses.remove,
    useIncomes.create, useIncomes.update, useIncomes.remove,
    ListHook.create, ListHook.update, ListHook.remove,
    useSummary.refresh, useSummary.request, useSummary.setLoading,
    useSummary.setBalance, useSummary.setError, useSummary.setState;
  unfold finally, tryCatch, bind, throw, ret,
    ListHook.setSubmitting, ListHook.setError, ListHook.setState, modify;
  unfold ListHook.request;
  cbn -[ListHook.refresh].

Ltac finish_app :=
  cbn -[ListHook.refresh];
  try (rewrite refresh_run; cbn;
       match goal with
       | |- context [ListHook.api_get ?a ?sv] =>
           destruct (ListHook.api_get a sv) as [[? | ?] ?]
       end; cbn;
       match goal with
       | |- context [summaryApi ?sv] =>
           destruct (summaryApi sv) as [[? | ?] ?]
       end; cbn);
  rewrite <- ?app_assoc; repeat split; reflexivity.

Lemma summary_refresh_run (w : useSummary.World Server) :
  useSummary.refresh summaryApi w =
    let (r, sv) := summaryApi (useSummary.server w) in
    let lg := useSummary.log w
                ++ [{| method := GET; url := js "/summary" |}] in
    let st := useSummary.state w in
    match r with
    | inr data =>
        (Return tt,
         {| useSummary.state :=
              {| useSummary.balance := useSummary.resp_balance data;
                 useSummary.loading := false;
                 useSummary.error := None |};
            useSummary.server := sv; useSummary.log := lg |})
    | inl e =>
        (Return tt,
         {| useSummary.state :=
              {| useSummary.balance := useSummary.balance st;
                 useSummary.loading := false;
                 useSummary.error := Some (Errors.getApiErrorMessage e) |};
            useSummary.server := sv; useSummary.log := lg |})
    end.
Proof.
  unfold useSummary.refresh, useSummary.request, useSummary.setLoading,
    useSummary.setBalance, useSummary.setError, useSummary.setState,
    useSummary.path.
  unfold finally, tryCatch, bind, throw, ret, modify. cbn.
  destruct (summaryApi (useSummary.server w)) as [[e | data] sv]; reflexivity.
Qed.

(** X18.  [useSummary.refresh] never rejects.  It sends the one request
    [GET /summary] and leaves [loading] false; an answer becomes the
    balance and clears the error, a failure keeps the balance that was
    shown and records the failure's message. *)
Theorem summary_refresh_settles (w : useSummary.World Server) :
  let res := useSummary.refresh summaryApi w in
  let w' := snd res in
  fst res = Return tt
  /\ useSummary.log w'
     = useSummary.log w ++ [{| method := GET; url := js "/summary" |}]
  /\ useSummary.loading (useSummary.state w') = false
  /\ match fst (summaryApi (useSummary.server w)) with
     | inr data =>
         useSummary.balance (useSummary.state w')
         = useSummary.resp_balance data
         /\ useSummary.error (useSummary.state w') = None
     | inl e =>
         useSummary.balance (useSummary.state w')
         = useSummary.balance (useSummary.state w)
         /\ useSummary.error (useSummary.state w')
            = Some (Errors.getApiErrorMessage e)
     end.
Proof.
  cbn zeta. rewrite summary_refresh_run.
  destruct (summaryApi (useSummary.server w)) as [[e | data] sv]; cbn;
    repeat split; reflexivity.
Qed.

(** X19.  Submitting the expense form from [App] sends the update of the
    expense being edited, or a creation when none is.  If the server
    accepts it, the handler re-reads the expense list and then the
    summary, closes the dialog and forgets the edited expense.  If the
    server refuses it, the handler rejects with that error having sent
    nothing else: the summary is not re-read, and the dialog and the
    edited expense stay. *)
Theorem expense_submit_syncs_or_aborts (w : App.World Server)
  (payload : ExpenseForm.ExpensePayload) :
  let res := App.expenseOnSubmit expenseApi summaryApi payload w in
  match HookOutcomes.expenseSubmitAnswer expenseApi payload w with
  | inr _ =>
      HookOutcomes.synced w (HookOutcomes.expenseSubmitRequest w)
        (js "/expenses") res
      /\ App.isExpenseModalOpen (snd res) = false
      /\ App.editingExpense (snd res) = None
  | inl e =>
      HookOutcomes.aborted w (HookOutcomes.expenseSubmitRequest w) e res
  end.
Proof.
  unfold HookOutcomes.expenseSubmitAnswer, HookOutcomes.expenseSubmitRequest.
  destruct w as [ex inc sm [edited |] ei me mi sv lg];
    cbn [App.editingExpense App.server]; cbn zeta.
  - destruct (ListHook.api_put expenseApi (Types.expense_id edited) payload sv)
      as [[e | x] sv'] eqn:H; cbn [fst]; run_app; rewrite H; finish_app.
  - destruct (ListHook.api_post expenseApi payload sv)
      as [[e | x] sv'] eqn:H; cbn [fst]; run_app; rewrite H; finish_app.
Qed.

(** X20.  Submitting the income form from [App] behaves as the expense
    form does, on the income routes: an accepted request is followed by
    [GET /incomes] and [GET /summary] and closes the dialog, a refused one
    is rethrown with nothing else sent and nothing closed. *)
Theorem income_submit_syncs_or_aborts (w : App.World Server)
  (payload : IncomeForm.IncomePayload) :
  let res := App.incomeOnSubmit incomeApi summaryApi payload w in
  match HookOutcomes.incomeSubmitAnswer incomeApi payload w with
  | inr _ =>
      HookOutcomes.synced w (HookOutcomes.incomeSubmitRequest w)
        (js "/incomes") res
      /\ App.isIncomeModalOpen (snd res) = false
      /\ App.editingIncome (snd res) = None
  | inl e =>
      HookOutcomes.aborted w (HookOutcomes.incomeSubmitRequest w) e res
  end.
Proof.
  unfold HookOutcomes.incomeSubmitAnswer, HookOutcomes.incomeSubmitRequest.
  destruct w as [ex inc sm ee [edited |] me mi sv lg];
    cbn [App.editingIncome App.server]; cbn zeta.
  - destruct (ListHook.api_put incomeApi (Types.income_id edited) payload sv)
      as [[e | x] sv'] eqn:H; cbn [fst]; run_app; rewrite H; finish_app.
  - destruct (ListHook.api_post incomeApi payload sv)
      as [[e | x] sv'] eqn:H; cbn [fst]; run_app; rewrite H; finish_app.
Qed.

(** X21.  Deleting an expense from the list sends [DELETE /expenses/id].
    If the server accepts it, the handler re-reads the expense list and
    then the summary, and forgets the expense being edited exactly when
    it is the deleted one; the dialogs are not touched.  If the server
    refuses it, the handler rejects with that error and sends nothing
    else. *)
Theorem expense_delete_syncs_or_aborts (w : App.World Server)
  (id : jsstring) :
  let res := App.expenseOnDelete expenseApi summaryApi id w in
  let m := {| method := DELETE; url := js "/expenses" ++ js "/" ++ id |} in
  match fst (ListHook.api_delete expenseApi id (App.server w)) with
  | inr _ =>
      HookOutcomes.synced w m (js "/expenses") res
      /\ App.editingExpense (snd res)
         = match App.editingExpense w with
           | Some e =>
               if jsstring_eqb (Types.expense_id e) id then None else Some e
           | None => None
           end
      /\ App.editingIncome (snd res) = App.editingIncome w
      /\ App.isExpenseModalOpen (snd res) = App.isExpenseModalOpen w
      /\ App.isIncomeModalOpen (snd res) = App.isIncomeModalOpen w
  | inl e => HookOutcomes.aborted w m e res
  end.
Proof.
  destruct w as [ex inc sm ee ei me mi sv lg]; cbn [App.server]; cbn zeta.
  destruct (ListHook.api_delete expenseApi id sv) as [[e | x] sv'] eqn:H;
    cbn [fst]; run_app; rewrite H.
  - finish_app.
  - cbn -[ListHook.refresh]. rewrite refresh_run. cbn.
    destruct (ListHook.api_get expenseApi sv') as [[? | ?] ?]; cbn;
      destruct ee as [edited |]; cbn;
      try destruct (jsstring_eqb (Types.expense_id edited) id); cbn;
      destruct (summaryApi _) as [[? | ?] ?]; cbn;
      rewrite <- ?app_assoc; repeat split; reflexivity.
Qed.

(** X22.  Deleting an income from the list behaves as deleting an
    expense does, on the income routes. *)
Theorem income_delete_syncs_or_aborts (w : App.World Server)
  (id : jsstring) :
  let res := App.incomeOnDelete incomeApi summaryApi id w in
  let m := {| method := DELETE; url := js "/incomes" ++ js "/" ++ id |} in
  match fst (ListHook.api_delete incomeApi id (App.server w)) with
  | inr _ =>
      HookOutcomes.synced w m (js "/incomes") res
      /\ App.editingIncome (snd res)
         = match App.editingIncome w with
           | Some i =>
               if jsstring_eqb (Types.income_id i) id then None else Some i
           | None => None
           end
      /\ App.editingExpense (snd res) = App.editingExpense w
      /\ App.isExpenseModalOpen (snd res) = App.isExpenseModalOpen w
      /\ App.isIncomeModalOpen (snd res) = App.isIncomeModalOpen w
  | inl e => HookOutcomes.aborted w m e res
  end.
Proof.
  destruct w as [ex inc sm ee ei me mi sv lg]; cbn [App.server]; cbn zeta.
  destruct (ListHook.api_delete incomeApi id sv) as [[e | x] sv'] eqn:H;
    cbn [fst]; run_app; rewrite H.
  - finish_app.
  - cbn -[ListHook.refresh]. rewrite refresh_run. cbn.
    destruct (ListHook.api_get incomeApi sv') as [[? | ?] ?]; cbn;
      destruct ei as [edited |]; cbn;
      try destruct (jsstring_eqb (Types.income_id edited) id); cbn;
      destruct (summaryApi _) as [[? | ?] ?]; cbn;
      rewrite <- ?app_assoc; repeat split; reflexivity.
Qed.

End AppFacts.

(** ** CategoryManager *)

Section CategoryManagerFacts.

Variable sortKey : jsstring -> list N.
Variable Server : Type.
Variable api : useCategories.Api Server.

Ltac run_manager :=
  unfold CategoryManager.handleAdd, CategoryManager.handleUpdate,
    CategoryManager.handleDelete, CategoryManager.cancelEdit,
    CategoryManager.onHook, CategoryManager.onChange,
    CategoryManager.setNewName, CategoryManager.setShowManager,
    CategoryManager.setEditingId, CategoryManager.setEditingName,
    CategoryManager.setLocal, CategoryManager.get,
    useCategories.create, useCategories.update, useCategories.remove;
  unfold finally, tryCatch, bind, throw, ret, useCategories.request,
    useCategories.setSubmitting, useCategories.setError,
    useCategories.setItems, useCategories.setState, modify;
  cbn -[useCategories.sortCategories trim truthy].

Lemma selected_present (v : jsstring) (c : Types.Category)
  (l : list Types.Category) :
  In c l -> Types.name c = v ->
  existsb (fun category => jsstring_eqb (Types.name category) v) l = true.
Proof.
  intros Hin E. apply existsb_exists. exists c. split; [exact Hin |].
  now apply jsstring_eqb_true.
Qed.

(** X23.  [handleAdd] never rejects.  A name that is blank after trimming
    sends nothing and changes nothing.  Otherwise the trimmed name is
    posted: when the server answers, the answered category's name becomes
    the selected value and is among the options, the input is emptied and
    the manager is shown; when the server refuses, the selected value and
    the component's own state stay as they were. *)
Theorem handleAdd_outcomes (w : CategoryManager.World Server) :
  let res := CategoryManager.handleAdd sortKey api w in
  let w' := snd res in
  let trimmed := trim (CategoryManager.newName (CategoryManager.local w)) in
  fst res = Return tt
  /\ if truthy trimmed then
       match fst (useCategories.api_post api
                    {| useCategories.payload_name := trimmed |}
                    (useCategories.server (CategoryManager.hook w))) with
       | inr created =>
           CategoryManager.value w' = Types.name created
           /\ CategoryManager.hasSelectedValue w' = true
           /\ CategoryManager.newName (CategoryManager.local w') = []
           /\ CategoryManager.showManager (CategoryManager.local w') = true
       | inl e =>
           CategoryManager.value w' = CategoryManager.value w
           /\ CategoryManager.local w' = CategoryManager.local w
       end
     else w' = w.
Proof.
  cbn zeta. destruct w as [[sm nn ei en] v [st sv lg]].
  cbn [CategoryManager.local CategoryManager.newName CategoryManager.hook
       useCategories.server].
  run_manager.
  destruct (truthy (trim nn)) eqn:T; cbn -[useCategories.sortCategories trim];
    [| split; reflexivity].
  destruct (useCategories.api_post api _ sv) as [[e | created] sv'];
    cbn -[useCategories.sortCategories trim];
    (split; [reflexivity |]); repeat split; try reflexivity.
  unfold CategoryManager.hasSelectedValue.
  cbn -[useCategories.sortCategories].
  apply selected_present with (c := created); [| reflexivity].
  apply (Permutation_in _ (sortCategories_perm sortKey _)).
  apply in_or_app. right. now left.
Qed.

(** X24.  [handleUpdate] never rejects.  With no category being edited,
    or a name that is blank after trimming, it sends nothing and changes
    nothing.  Otherwise the trimmed name is put to the edited category:
    when the server answers, the answered name becomes the selected value,
    whichever category was selected before, and the edit is closed; when
    the server refuses, the selected value and the edit stay. *)
Theorem handleUpdate_outcomes (w : CategoryManager.World Server) :
  let res := CategoryManager.handleUpdate sortKey api w in
  let w' := snd res in
  let trimmed :=
    trim (CategoryManager.editingName (CategoryManager.local w)) in
  fst res = Return tt
  /\ match CategoryManager.editingId (CategoryManager.local w) with
     | Some i =>
         if truthy i && truthy trimmed then
           match fst (useCategories.api_put api i
                        {| useCategories.payload_name := trimmed |}
                        (useCategories.server (CategoryManager.hook w))) with
           | inr updated =>
               CategoryManager.value w' = Types.name updated
               /\ CategoryManager.editingId (CategoryManager.local w') = None
               /\ CategoryManager.editingName (CategoryManager.local w') = []
           | inl e =>
               CategoryManager.value w' = CategoryManager.value w
               /\ CategoryManager.local w' = CategoryManager.local w
           end
         else w' = w
     | None => w' = w
     end.
Proof.
  cbn zeta. destruct w as [[sm nn ei en] v [st sv lg]].
  cbn [CategoryManager.local CategoryManager.editingId
       CategoryManager.editingName CategoryManager.hook
       useCategories.server].
  run_manager.
  destruct ei as [i |]; cbn -[useCategories.sortCategories trim truthy];
    [| split; reflexivity].
  destruct (truthy i) eqn:Ti; cbn -[useCategories.sortCategories trim truthy];
    [| split; reflexivity].
  destruct (truthy (trim en)) eqn:T;
    cbn -[useCategories.sortCategories trim truthy];
    [| split; reflexivity].
  destruct (useCategories.api_put api i _ sv) as [[e | updated] sv'];
    cbn -[useCategories.sortCategories trim truthy];
    repeat split; reflexivity.
Qed.

(** X25.  [handleDelete] never rejects.  When the server accepts the
    deletion, the selected value is emptied exactly when it was the
    deleted category's name, and no remaining option has the deleted
    identifier; when the server refuses, the selected value and the
    options stay as they were. *)
Theorem handleDelete_outcomes (w : CategoryManager.World Server)
  (category : Types.Category) :
  let res := CategoryManager.handleDelete api category w in
  let w' := snd res in
  let options (x : CategoryManager.World Server) :=
    useCategories.items (useCategories.state (CategoryManager.hook x)) in
  fst res = Return tt
  /\ CategoryManager.local w' = CategoryManager.local w
  /\ match fst (useCategories.api_delete api (Types.id category)
                 (useCategories.server (CategoryManager.hook w))) with
     | inr _ =>
         CategoryManager.value w'
         = (if jsstring_eqb (CategoryManager.value w) (Types.name category)
            then [] else CategoryManager.value w)
         /\ forall c, In c (options w') ->
                      Types.id c <> Types.id category
     | inl e =>
         CategoryManager.value w' = CategoryManager.value w
         /\ options w' = options w
     end.
Proof.
  cbn zeta. destruct w as [[sm nn ei en] v [st sv lg]].
  cbn [CategoryManager.local CategoryManager.hook CategoryManager.value
       useCategories.server].
  run_manager.
  destruct (useCategories.api_delete api (Types.id category) sv)
    as [[e | x] sv']; cbn.
  - repeat split; reflexivity.
  - destruct (jsstring_eqb v (Types.name category)); cbn;
      (split; [reflexivity |]); (split; [reflexivity |]);
      (split; [reflexivity |]);
      intros c Hc; apply filter_In in Hc; destruct Hc as [_ Hc];
      apply negb_true_iff in Hc; now apply jsstring_eqb_false in Hc.
Qed.

End CategoryManagerFacts.
